(** * WishCube backend: gift box and wallet settlement

    A shallow embedding of the request handlers of
    [controllers/giftController.ts] and [controllers/walletController.ts],
    of the Mongoose models they use ([models/Wallet.ts], [models/Gift.ts],
    [models/GiftBox.ts]) and of the helpers of [services/paymentService.ts]
    and [utils/helpers.ts].

    The document store is explicit state: a collection is a list whose
    positions are the identities of its documents (the handlers modelled
    here never delete a document), or a finite map keyed by the [ObjectId]
    when documents are looked up by an id that comes from a request.  A
    handler is a function from the store and its request to the store it
    leaves behind and the response it sends.  Everything the handlers obtain
    from outside (the clock, [crypto.randomBytes], the payment gateway's
    answers) is an argument; the clock is read once per request.  A thrown
    exception is the handler's status 500, with the store as the writes
    before it left it.

    Numbers are JavaScript's: amounts, balances, prices, values and the
    quantities of line items are IEEE 754 doubles (Rocq's primitive
    [float]) with the operations of the processor; the quantity of a
    purchase, which the validator holds to an integer, stock and timestamps
    are integers ([Z]).  An [ObjectId] is its lower-case hexadecimal text,
    the form in which [ObjectId.toString] prints it and in which the
    collections are keyed; the text of an id in a request is cast to it
    where Mongoose casts it.  A field of a request body that the source
    leaves unvalidated (the quantity of addToGiftBox) is a JSON value.  On
    [save] Mongoose runs the validators of the paths that the handler has
    modified; the model runs them at those saves. *)

From Stdlib Require Import Ascii String ZArith QArith Qround Lqa Floats.
From stdpp Require Import base option list sorting gmap strings pretty.

Local Open Scope string_scope.
Local Open Scope list_scope.

(** ** Strings, bytes and identifiers *)

(** An [ObjectId], as the twenty-four lower-case hexadecimal digits that
    [toString] prints. *)
Definition ObjectId := string.

Definition isHexDigit (c : ascii) : bool :=
  let n := N_of_ascii c in
  ((48 <=? n) && (n <=? 57) || (65 <=? n) && (n <=? 70)
   || (97 <=? n) && (n <=? 102))%N.

Definition allHex (s : string) : bool := forallb isHexDigit (list_ascii_of_string s).

(** [isHexadecimal] of validator.js: [/^(0x|0h)?[0-9A-F]+$/i]. *)
Definition isHexadecimal (s : string) : bool :=
  let digits :=
    match s with
    | String "0" (String c rest) =>
        if (Ascii.eqb c "x" || Ascii.eqb c "X" || Ascii.eqb c "h" || Ascii.eqb c "H")%bool
        then rest else s
    | _ => s
    end in
  negb (String.eqb digits "") && allHex digits.

(** [isMongoId] of validator.js: [isHexadecimal(str) && str.length === 24]. *)
Definition isMongoId (s : string) : bool :=
  isHexadecimal s && (String.length s =? 24)%nat.

(** [String.prototype.toLowerCase] (on the characters A..Z). *)
Definition lowerChar (c : ascii) : ascii :=
  let n := N_of_ascii c in
  if ((65 <=? n) && (n <=? 90))%N then ascii_of_N (n + 32) else c.

Fixpoint toLowerCase (s : string) : string :=
  match s with
  | EmptyString => EmptyString
  | String c s' => String (lowerChar c) (toLowerCase s')
  end.

(** The cast of a string of twenty-four characters to an [ObjectId], as
    Mongoose applies it to the ids of a query and of a new document:
    twenty-four hexadecimal digits of either case give the id, anything
    else is a [CastError] ([None]).  The handlers cast only strings that
    [isMongoId] has accepted. *)
Definition castObjectId (s : string) : option ObjectId :=
  if (String.length s =? 24)%nat && allHex s then Some (toLowerCase s) else None.

(** [Buffer.toString("hex")]: two lower-case digits per byte. *)
Definition hexDigit (n : N) : ascii :=
  ascii_of_N (if (n <? 10)%N then 48 + n else 87 + n)%N.

Definition hexByte (b : Byte.byte) : string :=
  let n := Byte.to_N b in
  String (hexDigit (n / 16)) (String (hexDigit (n mod 16)) EmptyString).

Fixpoint toHex (bs : list Byte.byte) : string :=
  match bs with
  | [] => EmptyString
  | b :: bs' => hexByte b +:+ toHex bs'
  end.

(** [String.prototype.toUpperCase] (on the characters a..z). *)
Definition upperChar (c : ascii) : ascii :=
  let n := N_of_ascii c in
  if ((97 <=? n) && (n <=? 122))%N then ascii_of_N (n - 32) else c.

Fixpoint toUpperCase (s : string) : string :=
  match s with
  | EmptyString => EmptyString
  | String c s' => String (upperChar c) (toUpperCase s')
  end.

(** The entropy behind [crypto.randomBytes]: a source of bytes, of which a
    call takes the first [n] and leaves the rest. *)
Definition Entropy := nat → Byte.byte.

Definition randomBytes (src : Entropy) (n : nat) : list Byte.byte * Entropy :=
  (map src (seq 0 n), λ k, src (n + k)%nat).

(** [utils/helpers.ts]: generateRedemptionCode *)
Definition generateRedemptionCode (src : Entropy) : string * Entropy :=
  let '(bytes, src') := randomBytes src 6 in
  (toUpperCase (toHex bytes), src').

(** [services/paymentService.ts]: generatePaymentReference *)
Definition generatePaymentReference (now : Z) (src : Entropy) : string * Entropy :=
  let '(bytes, src') := randomBytes src 4 in
  ("WC_" +:+ pretty now +:+ "_" +:+ toHex bytes, src').

(** JavaScript truthiness of an optional string ([!cardId], [!this.redemptionCode]). *)
Definition truthy (o : option string) : bool :=
  match o with
  | Some s => negb (String.eqb s "")
  | None => false
  end.

(** ** Numbers *)

(** The double nearest to an integer: what [JSON.parse] makes of an integer
    literal, and what the arithmetic makes of an integer operand. *)
Definition ofZ (z : Z) : float := SF2Prim (binary_normalize prec emax z 0 false).

(** [ToNumber] of a number that may be [null]: [null] counts as zero. *)
Definition toNumber (x : option float) : float := default 0%float x.

(** The exact value of a finite double, as a rational; zero for the
    others. *)
Definition exactValue (x : float) : Q :=
  match Prim2SF x with
  | S754_finite s m e =>
      ((if s then -1 else 1) * inject_Z (Z.pos m) * Qpower 2 e)%Q
  | _ => 0%Q
  end.

(** A JSON value in a field of a request body that no validator covers.
    The handlers only add such a value to a number and hand it to Mongoose,
    so an array or an object is kept as the text that [String(v)] gives. *)
Inductive JSValue :=
| JNull
| JBool (b : bool)
| JNumber (x : float)
| JString (s : string)
| JOther (text : string).

Section JavaScript.

(** The two conversions of the language that the model leaves open:
    [String(x)] of a number and [Number(s)] of a string ([NaN] when the
    string is no numeral). *)
Variable Number_toString : float → string.
Variable String_toNumber : string → float.

(** [x + v] for a number [x] that may be [null]: concatenation when [v] is a
    string or becomes one ([ToPrimitive] of an array or an object), the sum
    of the numbers otherwise. *)
Definition jsAdd (x : option float) (v : JSValue) : JSValue :=
  let text := match x with Some n => Number_toString n | None => "null" end in
  match v with
  | JString s => JString (text +:+ s)
  | JOther s => JString (text +:+ s)
  | JNumber y => JNumber (toNumber x + y)
  | JBool b => JNumber (toNumber x + (if b then 1 else 0))
  | JNull => JNumber (toNumber x + 0)
  end.

(** Mongoose's cast of a value that is set on a [Number] path
    ([castNumber]): [null] and the empty string give [null], a string and a
    boolean are read by [Number], [NaN] and what is no number are a
    [CastError] (the outer [None]), which the next [save] throws. *)
Definition castNumber (v : JSValue) : option (option float) :=
  match v with
  | JNull => Some None
  | JString s =>
      if String.eqb s "" then Some None
      else let n := String_toNumber s in
           if is_nan n then None else Some (Some n)
  | JBool b => Some (Some (if b then 1 else 0)%float)
  | JNumber x => if is_nan x then None else Some (Some x)
  | JOther _ => None
  end.

End JavaScript.

(** ** Data model ([types/index.ts] and the Mongoose schemas) *)

Inductive TransactionType := credit | debit.
Inductive TransactionStatus := pending | completed | failed.

Global Instance TransactionType_eq_dec : EqDecision TransactionType.
Proof. solve_decision. Defined.
Global Instance TransactionStatus_eq_dec : EqDecision TransactionStatus.
Proof. solve_decision. Defined.

Record ITransaction := mkTransaction {
  type : TransactionType;
  amount : float;
  reference : string;
  description : string;
  status : TransactionStatus;
  createdAt : Z
}.

Record IWallet := mkWallet {
  userId : ObjectId;
  balance : float;
  currency : string;
  transactions : list ITransaction
}.

(** Of a gift the handlers read and write the fields below; [description],
    [type] and [image] are never touched by them. *)
Record IGift := mkGift {
  name : string;
  value : float;
  price : float;
  isActive : bool;
  stock : option Z
}.

(** A line item; its quantity is a number or [null]. *)
Record IGiftBoxItem := mkItem {
  giftId : ObjectId;
  quantity : option float;
  purchasedAt : Z
}.

Record IGiftBox := mkGiftBox {
  cardId : option ObjectId;
  websiteId : option ObjectId;
  senderId : ObjectId;
  recipientEmail : option string;
  gifts : list IGiftBoxItem;
  isRedeemed : bool;
  redeemedAt : option Z;
  redemptionCode : option string
}.

(** A card or a website, as far as the gift handlers see it: its owner and
    its back-reference to a gift box. *)
Record Attachable := mkAttachable {
  owner : ObjectId;
  giftBox : option nat
}.

(** [req.user], the document that the [auth] middleware has loaded. *)
Record IUser := mkUser {
  _id : ObjectId;
  email : string
}.

(** The collections. *)
Record Db := mkDb {
  Gift : gmap string IGift;
  Wallet : list IWallet;
  GiftBox : list IGiftBox;
  Card : gmap string Attachable;
  Website : gmap string Attachable
}.

(** What a handler sends: [res.json] with a payload, [res.status(c).json]
    with a message, or the status 400 with the validator's errors. *)
Inductive Response (A : Type) :=
| Json (data : A)
| Fail (code : nat) (message : string)
| Invalid (errors : list string).
Arguments Json {A} data.
Arguments Fail {A} code message.
Arguments Invalid {A} errors.

(** ** The wallet ledger ([models/Wallet.ts]) *)

Definition setWallet (db : Db) (ws : list IWallet) : Db :=
  mkDb (Gift db) ws (GiftBox db) (Card db) (Website db).

Definition setStatus (t : ITransaction) (s : TransactionStatus) : ITransaction :=
  mkTransaction (type t) (amount t) (reference t) (description t) s (createdAt t).

Definition setBalance (w : IWallet) (b : float) : IWallet :=
  mkWallet (userId w) b (currency w) (transactions w).

Definition setTransactions (w : IWallet) (ts : list ITransaction) : IWallet :=
  mkWallet (userId w) (balance w) (currency w) ts.

(** [wallet.transactions.push(t)] *)
Definition pushTransaction (w : IWallet) (t : ITransaction) : IWallet :=
  setTransactions w (transactions w ++ [t]).

(** [walletSchema.methods.addTransaction], up to the final [save]. *)
Definition addTransaction (w : IWallet) (t : ITransaction) : IWallet :=
  let w1 := pushTransaction w t in
  match status t with
  | completed =>
      match type t with
      | credit => setBalance w1 (balance w1 + amount t)
      | debit => setBalance w1 (balance w1 - amount t)
      end
  | _ => w1
  end.

(** [Wallet.create({ userId })] fills in the schema's defaults. *)
Definition newWallet (uid : ObjectId) : IWallet := mkWallet uid 0 "NGN" [].

(** The schema's validator of a wallet: [balance: { min: 0 }], which a
    balance passes when [balance >= 0]; [NaN] does not, nor does it cast.
    It runs on the saves that follow an assignment to [balance]. *)
Definition Wallet_validate (w : IWallet) : bool := (0 <=? balance w)%float.

(** [wallet.save()] of the document at position [i]; [None] when the
    validator rejects it and [save] throws. *)
Definition Wallet_save (db : Db) (i : nat) (w : IWallet) : option Db :=
  if Wallet_validate w then Some (setWallet db (<[i:=w]> (Wallet db))) else None.

(** [Wallet.findOne({ userId })] *)
Definition Wallet_findOne_userId (db : Db) (uid : ObjectId) : option (nat * IWallet) :=
  list_find (λ w, userId w = uid) (Wallet db).

(** [Wallet.findOne({ "transactions.reference": reference })] *)
Definition Wallet_findOne_reference (db : Db) (r : string) : option (nat * IWallet) :=
  list_find (λ w, Exists (λ t, reference t = r) (transactions w)) (Wallet db).

(** [wallet.transactions.find((t) => t.reference === reference)] *)
Definition findTransaction (w : IWallet) (r : string) : option (nat * ITransaction) :=
  list_find (λ t, reference t = r) (transactions w).

(** The sum of the amounts of the completed transactions of one type, as
    the exact sum of their values. *)
Definition completedSum (ty : TransactionType) (ts : list ITransaction) : Q :=
  foldr (λ t acc, if decide (type t = ty ∧ status t = completed)
                  then exactValue (amount t) + acc else acc)%Q 0%Q ts.

Definition ledgerBalance (w : IWallet) : Q :=
  (completedSum credit (transactions w) - completedSum debit (transactions w))%Q.

(** The ledger invariant of one wallet and of the whole store. *)
Definition ledger_ok (w : IWallet) : Prop :=
  (exactValue (balance w) == ledgerBalance w)%Q.

Definition ledger_invariant (db : Db) : Prop := Forall ledger_ok (Wallet db).

(** ** Wallet handlers ([controllers/walletController.ts]) *)

(** getOrCreateWallet *)
Definition getOrCreateWallet (db : Db) (uid : ObjectId) : Db * nat * IWallet :=
  match Wallet_findOne_userId db uid with
  | Some (i, w) => (db, i, w)
  | None =>
      (setWallet db (Wallet db ++ [newWallet uid]), length (Wallet db), newWallet uid)
  end.

Record BalanceData := mkBalanceData {
  bd_balance : float;
  bd_currency : string
}.

(** getBalance *)
Definition getBalance (db : Db) (user : IUser) : Db * Response BalanceData :=
  let '(db1, _, wallet) := getOrCreateWallet db (_id user) in
  (db1, Json (mkBalanceData (balance wallet) (currency wallet))).

(** What [initializePayment] resolves to. *)
Record InitData := mkInitData {
  authorization_url : string;
  access_code : string;
  init_reference : string
}.

Record FundData := mkFundData {
  authorizationUrl : string;
  fd_reference : string
}.

(** [utils/validators.ts]: fundWalletValidator, [isFloat({ min: 100 })] on
    the amount, a JSON number: its text is a float numeral, which that of
    [Infinity] is not, and it is at least 100. *)
Definition fundWalletValidator (amount : float) : list string :=
  if is_finite amount && (100 <=? amount)%float then []
  else ["Minimum amount is 100"].

(** fundWallet.  [paymentData] is the gateway's answer to
    [initializePayment], [None] when that call throws. *)
Definition fundWallet (db : Db) (user : IUser) (amount : float) (now : Z)
    (src : Entropy) (paymentData : option InitData) : Db * Response FundData :=
  match fundWalletValidator amount with
  | e :: errors => (db, Invalid (e :: errors))
  | [] =>
      let '(db1, i, wallet) := getOrCreateWallet db (_id user) in
      let reference := fst (generatePaymentReference now src) in
      let wallet1 :=
        pushTransaction wallet
          (mkTransaction credit amount reference "Wallet funding" pending now) in
      let db2 := setWallet db1 (<[i:=wallet1]> (Wallet db1)) in
      match paymentData with
      | None => (db2, Fail 500 "Failed to initialize payment.")
      | Some p => (db2, Json (mkFundData (authorization_url p) (init_reference p)))
      end
  end.

(** What [verifyPayment] resolves to. *)
Record VerifyData := mkVerifyData {
  vd_status : string;
  vd_amount : float
}.

Record VerifiedData := mkVerifiedData {
  v_balance : float;
  v_amount : float
}.

(** verifyWalletPayment.  [paymentData] is the gateway's answer to
    [verifyPayment(reference)], [None] when that call throws. *)
Definition verifyWalletPayment (db : Db) (reference : option string)
    (paymentData : option VerifyData) : Db * Response VerifiedData :=
  match reference with
  | None => (db, Fail 400 "Reference is required.")
  | Some r =>
      if String.eqb r "" then (db, Fail 400 "Reference is required.")
      else
        match paymentData with
        | None => (db, Fail 500 "Failed to verify payment.")
        | Some p =>
            if negb (String.eqb (vd_status p) "success")
            then (db, Fail 400 "Payment was not successful.")
            else
              match Wallet_findOne_reference db r with
              | None => (db, Fail 404 "Transaction not found.")
              | Some (i, wallet) =>
                  match findTransaction wallet r with
                  | Some (j, transaction) =>
                      match status transaction with
                      | pending =>
                          let wallet1 :=
                            setBalance
                              (setTransactions wallet
                                 (<[j:=setStatus transaction completed]>
                                    (transactions wallet)))
                              (balance wallet + amount transaction) in
                          match Wallet_save db i wallet1 with
                          | None => (db, Fail 500 "Failed to verify payment.")
                          | Some db1 =>
                              (db1, Json (mkVerifiedData (balance wallet1)
                                            (vd_amount p / 100)))
                          end
                      | _ =>
                          (db, Json (mkVerifiedData (balance wallet) (vd_amount p / 100)))
                      end
                  | None =>
                      (db, Json (mkVerifiedData (balance wallet) (vd_amount p / 100)))
                  end
              end
        end
  end.

(** The body of a webhook request, as far as the handler reads it. *)
Record ChargeData := mkChargeData {
  cd_reference : string;
  cd_amount : float
}.

Record WebhookBody := mkWebhookBody {
  event : string;
  data : ChargeData
}.

Section Webhook.

  (** [env.paystack.secretKey], [JSON.stringify] on a request body, and
      [crypto.createHmac("sha512", key).update(payload).digest("hex")]. *)
Variable secretKey : string.
Variable JSON_stringify : WebhookBody → string.
Variable hmac_sha512 : string → string → string.

  (** [services/paymentService.ts]: verifyWebhookSignature.  The signature
      header is absent ([None]) or a string. *)
Definition verifyWebhookSignature (payload : string) (signature : option string) : bool :=
    bool_decide (Some (hmac_sha512 secretKey payload) = signature).

  (** paystackWebhook *)
Definition paystackWebhook (db : Db) (body : WebhookBody)
      (signature : option string) : Db * Response unit :=
    let payload := JSON_stringify body in
    if negb (verifyWebhookSignature payload signature)
    then (db, Fail 400 "Invalid signature.")
    else
      if String.eqb (event body) "charge.success" then
        let reference := cd_reference (data body) in
        let amount := cd_amount (data body) in
        match Wallet_findOne_reference db reference with
        | Some (i, wallet) =>
            match findTransaction wallet reference with
            | Some (j, transaction) =>
                match status transaction with
                | pending =>
                    let wallet1 :=
                      setBalance
                        (setTransactions wallet
                           (<[j:=setStatus transaction completed]>
                              (transactions wallet)))
                        (balance wallet + amount / 100) in
                    match Wallet_save db i wallet1 with
                    | None => (db, Fail 500 "")
                    | Some db1 => (db1, Json ())
                    end
                | _ => (db, Json ())
                end
            | None => (db, Json ())
            end
        | None => (db, Json ())
        end
      else (db, Json ()).

End Webhook.

(** ** The gift catalog and the gift boxes ([models/Gift.ts], [models/GiftBox.ts]) *)

Definition setGift (db : Db) (gs : gmap string IGift) : Db :=
  mkDb gs (Wallet db) (GiftBox db) (Card db) (Website db).

Definition setGiftBox (db : Db) (bs : list IGiftBox) : Db :=
  mkDb (Gift db) (Wallet db) bs (Card db) (Website db).

Definition setCard (db : Db) (cs : gmap string Attachable) : Db :=
  mkDb (Gift db) (Wallet db) (GiftBox db) cs (Website db).

Definition setWebsite (db : Db) (ws : gmap string Attachable) : Db :=
  mkDb (Gift db) (Wallet db) (GiftBox db) (Card db) ws.

Definition setStock (g : IGift) (s : option Z) : IGift :=
  mkGift (name g) (value g) (price g) (isActive g) s.

Definition setQuantity (it : IGiftBoxItem) (q : option float) : IGiftBoxItem :=
  mkItem (giftId it) q (purchasedAt it).

Definition setGifts (b : IGiftBox) (items : list IGiftBoxItem) : IGiftBox :=
  mkGiftBox (cardId b) (websiteId b) (senderId b) (recipientEmail b) items
    (isRedeemed b) (redeemedAt b) (redemptionCode b).

Definition setRedeemed (b : IGiftBox) (now : Z) : IGiftBox :=
  mkGiftBox (cardId b) (websiteId b) (senderId b) (recipientEmail b) (gifts b)
    true (Some now) (redemptionCode b).

Definition setRedemptionCode (b : IGiftBox) (c : option string) : IGiftBox :=
  mkGiftBox (cardId b) (websiteId b) (senderId b) (recipientEmail b) (gifts b)
    (isRedeemed b) (redeemedAt b) c.

Definition setGiftBoxRef (a : Attachable) (i : nat) : Attachable :=
  mkAttachable (owner a) (Some i).

(** [gift.save()] after the stock was assigned: [stock: { min: 0 }]. *)
Definition Gift_save (db : Db) (id : ObjectId) (g : IGift) : option Db :=
  match stock g with
  | Some s => if (0 <=? s)%Z then Some (setGift db (<[id:=g]> (Gift db))) else None
  | None => Some (setGift db (<[id:=g]> (Gift db)))
  end.

(** [giftBoxSchema.pre("save")]: a box without a redemption code gets one. *)
Definition preSave (b : IGiftBox) (src : Entropy) : IGiftBox * Entropy :=
  if negb (truthy (redemptionCode b)) then
    let '(c, src') := generateRedemptionCode src in
    (setRedemptionCode b (Some c), src')
  else (b, src).

(** The validator of the line items, [quantity: { min: 1 }]: a quantity
    passes when it is [null] or [quantity >= 1].  It runs on the save of
    addToGiftBox, which has modified the line items. *)
Definition quantityValid (q : option float) : bool :=
  match q with
  | Some x => (1 <=? x)%float
  | None => true
  end.

Definition GiftBox_validate (b : IGiftBox) : bool :=
  forallb (λ it, quantityValid (quantity it)) (gifts b).

(** [giftBox.save()] of the document at position [i] (the position past the
    end for a new document): the hook runs, then the write, which the unique
    index on [redemptionCode] refuses when another document has the code.
    [None] when [save] throws. *)
Definition GiftBox_save (db : Db) (i : nat) (b : IGiftBox) (src : Entropy)
    : option (Db * IGiftBox * Entropy) :=
  let '(b1, src') := preSave b src in
  if bool_decide (Exists (λ b', redemptionCode b' = redemptionCode b1)
                    (delete i (GiftBox db)))
  then None
  else
    let boxes :=
      if bool_decide (i < length (GiftBox db))%nat
      then <[i:=b1]> (GiftBox db) else (GiftBox db ++ [b1]) in
    Some (setGiftBox db boxes, b1, src').

(** [populate("gifts.giftId")]: every line item with the catalog document
    its [giftId] refers to, [None] where the catalog has none. *)
Definition populate (db : Db) (b : IGiftBox) : list (option IGift * IGiftBoxItem) :=
  map (λ it, (Gift db !! giftId it, it)) (gifts b).

(** The [reduce] of redeemGiftBox over the populated items,
    [sum + gift.value * item.quantity]; [None] when an item's gift is
    missing and reading [gift.value] throws. *)
Fixpoint totalValueFrom (items : list (option IGift * IGiftBoxItem)) (sum : float)
    : option float :=
  match items with
  | [] => Some sum
  | (Some gift, item) :: rest =>
      totalValueFrom rest (sum + value gift * toNumber (quantity item))%float
  | (None, _) :: _ => None
  end.

(** ** Gift handlers ([controllers/giftController.ts]) *)

(** The body of a purchase: the text of the gift's id and the quantity, an
    integer when the validator accepts it. *)
Record PurchaseBody := mkPurchaseBody {
  pb_giftId : string;
  pb_quantity : option Z
}.

Record PurchaseData := mkPurchaseData {
  pd_gift : IGift;
  pd_quantity : Z;
  totalPrice : float;
  newBalance : float
}.

(** [utils/validators.ts]: purchaseGiftValidator *)
Definition purchaseGiftValidator (body : PurchaseBody) : list string :=
  (if isMongoId (pb_giftId body) then [] else ["Valid gift ID is required"])
  ++ match pb_quantity body with
     | Some q => if (1 <=? q)%Z then [] else ["Quantity must be at least 1"]
     | None => []
     end.

(** purchaseGift.  [Gift.findById] casts the id, and throws when it does
    not cast. *)
Definition purchaseGift (db : Db) (user : IUser) (body : PurchaseBody) (now : Z)
    : Db * Response PurchaseData :=
  match purchaseGiftValidator body with
  | e :: errors => (db, Invalid (e :: errors))
  | [] =>
      let quantity := default 1%Z (pb_quantity body) in
      match castObjectId (pb_giftId body) with
      | None => (db, Fail 500 "Failed to purchase gift.")
      | Some giftId =>
          match Gift db !! giftId with
          | None => (db, Fail 404 "Gift not found.")
          | Some gift =>
              if negb (isActive gift) then (db, Fail 404 "Gift not found.")
              else if match stock gift with
                      | Some s => (s <? quantity)%Z
                      | None => false
                      end
              then (db, Fail 400 "Insufficient stock.")
              else
                let totalPrice := (price gift * ofZ quantity)%float in
                match Wallet_findOne_userId db (_id user) with
                | None => (db, Fail 400 "Insufficient wallet balance.")
                | Some (i, wallet) =>
                    if (balance wallet <? totalPrice)%float
                    then (db, Fail 400 "Insufficient wallet balance.")
                    else
                      let wallet1 :=
                        pushTransaction
                          (setBalance wallet (balance wallet - totalPrice))
                          (mkTransaction debit totalPrice ("GIFT_" +:+ pretty now)
                             ("Purchased " +:+ pretty quantity +:+ "x " +:+ name gift)
                             completed now) in
                      match Wallet_save db i wallet1 with
                      | None => (db, Fail 500 "Failed to purchase gift.")
                      | Some db1 =>
                          match stock gift with
                          | Some s =>
                              let gift1 := setStock gift (Some (s - quantity)%Z) in
                              match Gift_save db1 giftId gift1 with
                              | None => (db1, Fail 500 "Failed to purchase gift.")
                              | Some db2 =>
                                  (db2, Json (mkPurchaseData gift1 quantity totalPrice
                                                (balance wallet1)))
                              end
                          | None =>
                              (db1, Json (mkPurchaseData gift quantity totalPrice
                                            (balance wallet1)))
                          end
                      end
                end
          end
      end
  end.

(** The body of an addToGiftBox request: the texts of the ids, and the
    quantity, on which the source puts no validator. *)
Record BoxBody := mkBoxBody {
  bb_giftId : string;
  bb_cardId : option string;
  bb_websiteId : option string;
  bb_quantity : option JSValue;
  bb_recipientEmail : option string
}.

(** A gift box as a response shows it: its identity, the document and the
    populated line items. *)
Record BoxView := mkBoxView {
  box_id : nat;
  box : IGiftBox;
  populated : list (option IGift * IGiftBoxItem)
}.

Definition optionalMongoId (o : option string) (message : string) : list string :=
  match o with
  | Some s => if isMongoId s then [] else [message]
  | None => []
  end.

(** [utils/validators.ts]: addToGiftBoxValidator *)
Definition addToGiftBoxValidator (body : BoxBody) : list string :=
  (if isMongoId (bb_giftId body) then [] else ["Valid gift ID is required"])
  ++ optionalMongoId (bb_cardId body) "Valid card ID is required"
  ++ optionalMongoId (bb_websiteId body) "Valid website ID is required".

(** The id that a query or a new document gets from the text of a request,
    and whether Mongoose fails to cast a text that is there. *)
Definition castId (id : option string) : option ObjectId := id ≫= castObjectId.

Definition castFails (id : option string) : bool :=
  match id with
  | Some s => negb (bool_decide (is_Some (castObjectId s)))
  | None => false
  end.

(** [Card.findOne({ _id, userId })] and [Website.findOne({ _id, userId })] *)
Definition findOwned (docs : gmap string Attachable) (id : option string)
    (uid : ObjectId) : option Attachable :=
  match castId id with
  | Some k =>
      match docs !! k with
      | Some a => if String.eqb (owner a) uid then Some a else None
      | None => None
      end
  | None => None
  end.

(** [GiftBox.findOne({ senderId, ...(cardId ? { cardId } : { websiteId }),
    isRedeemed: false })] *)
Definition GiftBox_findOpen (db : Db) (uid : ObjectId)
    (cardId' websiteId' : option string) : option (nat * IGiftBox) :=
  if truthy cardId'
  then list_find (λ b, senderId b = uid ∧ cardId b = castId cardId'
                       ∧ isRedeemed b = false)
         (GiftBox db)
  else list_find (λ b, senderId b = uid ∧ websiteId b = castId websiteId'
                       ∧ isRedeemed b = false)
         (GiftBox db).

(** [Card.findByIdAndUpdate(cardId, { giftBox })] *)
Definition linkGiftBox (docs : gmap string Attachable) (id : option ObjectId) (i : nat)
    : gmap string Attachable :=
  match id with
  | Some k =>
      match docs !! k with
      | Some a => <[k:=setGiftBoxRef a i]> docs
      | None => docs
      end
  | None => docs
  end.

(** The find-or-create step of addToGiftBox; [None] when [create] throws. *)
Definition findOrCreateGiftBox (db : Db) (user : IUser) (body : BoxBody)
    (src : Entropy) : option (Db * nat * IGiftBox * Entropy) :=
  match GiftBox_findOpen db (_id user) (bb_cardId body) (bb_websiteId body) with
  | Some (i, giftBox) => Some (db, i, giftBox, src)
  | None =>
      let fresh :=
        mkGiftBox (castId (bb_cardId body)) (castId (bb_websiteId body)) (_id user)
          (bb_recipientEmail body) [] false None None in
      let i := length (GiftBox db) in
      match GiftBox_save db i fresh src with
      | None => None
      | Some (db1, giftBox, src1) =>
          let db2 :=
            if truthy (bb_cardId body)
            then setCard db1 (linkGiftBox (Card db1) (castId (bb_cardId body)) i)
            else if truthy (bb_websiteId body)
            then setWebsite db1 (linkGiftBox (Website db1) (castId (bb_websiteId body)) i)
            else db1 in
          Some (db2, i, giftBox, src1)
      end
  end.

Record RedeemData := mkRedeemData {
  rd_giftBox : BoxView;
  totalValue : float;
  creditedToWallet : bool
}.

(** [GiftBox.findOne({ redemptionCode: code })] *)
Definition GiftBox_findOne_code (db : Db) (code : string) : option (nat * IGiftBox) :=
  list_find (λ b, redemptionCode b = Some code) (GiftBox db).

(** redeemGiftBox.  [user] is [req.user], which the handler tests; on the
    route of the repository the [auth] middleware runs first, so that the
    handler is reached with a user. *)
Definition redeemGiftBox (db : Db) (user : option IUser) (code : string) (now : Z)
    (src : Entropy) : Db * Response RedeemData :=
  match GiftBox_findOne_code db code with
  | None => (db, Fail 404 "Gift box not found.")
  | Some (i, giftBox) =>
      if isRedeemed giftBox
      then (db, Fail 400 "This gift box has already been redeemed.")
      else
        let items := populate db giftBox in
        match GiftBox_save db i (setRedeemed giftBox now) src with
        | None => (db, Fail 500 "Failed to redeem gift box.")
        | Some (db1, giftBox1, _) =>
            match totalValueFrom items 0 with
            | None => (db1, Fail 500 "Failed to redeem gift box.")
            | Some totalValue =>
                match user with
                | Some u =>
                    let '(db2, j, wallet) :=
                      match Wallet_findOne_userId db1 (_id u) with
                      | Some (j, wallet) => (db1, j, wallet)
                      | None =>
                          (setWallet db1 (Wallet db1 ++ [newWallet (_id u)]),
                           length (Wallet db1), newWallet (_id u))
                      end in
                    let wallet1 :=
                      pushTransaction
                        (setBalance wallet (balance wallet + totalValue))
                        (mkTransaction credit totalValue
                           ("REDEEM_" +:+ default "undefined" (redemptionCode giftBox1))
                           "Gift box redemption" completed now) in
                    match Wallet_save db2 j wallet1 with
                    | None => (db2, Fail 500 "Failed to redeem gift box.")
                    | Some db3 =>
                        (db3, Json (mkRedeemData (mkBoxView i giftBox1 items)
                                      totalValue true))
                    end
                | None =>
                    (db1, Json (mkRedeemData (mkBoxView i giftBox1 items)
                                  totalValue false))
                end
            end
        end
  end.

Section GiftBoxRequests.

Variable Number_toString : float → string.
Variable String_toNumber : string → float.

(** The merge of addToGiftBox: [find] the line item whose id prints as the
    text of the request and add the request's quantity to its quantity, or
    [push] a new line item, with the id and the quantity as Mongoose casts
    them.  [None] when the quantity does not cast, which the save that
    follows throws. *)
Definition addGift (items : list IGiftBoxItem) (text : string) (gid : ObjectId)
    (q : JSValue) (now : Z) : option (list IGiftBoxItem) :=
  match list_find (λ g, giftId g = text) items with
  | Some (k, existingGift) =>
      match castNumber String_toNumber
              (jsAdd Number_toString (quantity existingGift) q) with
      | Some q' => Some (<[k:=setQuantity existingGift q']> items)
      | None => None
      end
  | None =>
      match castNumber String_toNumber q with
      | Some q' => Some (items ++ [mkItem gid q' now])
      | None => None
      end
  end.

(** addToGiftBox.  [Gift.findById], [Card.findOne] and [Website.findOne]
    cast the id they are given, and throw when it does not cast. *)
Definition addToGiftBox (db : Db) (user : IUser) (body : BoxBody) (now : Z)
    (src : Entropy) : Db * Response BoxView :=
  match addToGiftBoxValidator body with
  | e :: errors => (db, Invalid (e :: errors))
  | [] =>
      let quantity := default (JNumber 1) (bb_quantity body) in
      if negb (truthy (bb_cardId body)) && negb (truthy (bb_websiteId body))
      then (db, Fail 400 "Either cardId or websiteId is required.")
      else
        match castObjectId (bb_giftId body) with
        | None => (db, Fail 500 "Failed to add gift to box.")
        | Some giftId =>
            match Gift db !! giftId with
            | None => (db, Fail 404 "Gift not found.")
            | Some gift =>
                if negb (isActive gift) then (db, Fail 404 "Gift not found.")
                else if truthy (bb_cardId body) && castFails (bb_cardId body)
                then (db, Fail 500 "Failed to add gift to box.")
                else if truthy (bb_cardId body)
                        && negb (bool_decide
                                   (is_Some (findOwned (Card db) (bb_cardId body)
                                               (_id user))))
                then (db, Fail 404 "Card not found.")
                else if truthy (bb_websiteId body) && castFails (bb_websiteId body)
                then (db, Fail 500 "Failed to add gift to box.")
                else if truthy (bb_websiteId body)
                        && negb (bool_decide
                                   (is_Some (findOwned (Website db) (bb_websiteId body)
                                               (_id user))))
                then (db, Fail 404 "Website not found.")
                else
                  match findOrCreateGiftBox db user body src with
                  | None => (db, Fail 500 "Failed to add gift to box.")
                  | Some (db1, i, giftBox, src1) =>
                      match addGift (gifts giftBox) (bb_giftId body) giftId
                              quantity now with
                      | None => (db1, Fail 500 "Failed to add gift to box.")
                      | Some items =>
                          let giftBox1 := setGifts giftBox items in
                          if negb (GiftBox_validate giftBox1)
                          then (db1, Fail 500 "Failed to add gift to box.")
                          else
                            match GiftBox_save db1 i giftBox1 src1 with
                            | None => (db1, Fail 500 "Failed to add gift to box.")
                            | Some (db2, giftBox2, _) =>
                                (db2, Json (mkBoxView i giftBox2
                                              (populate db2 giftBox2)))
                            end
                      end
                  end
            end
        end
  end.

End GiftBoxRequests.
(** ** Further helpers and handlers *)

(** [utils/helpers.ts]: generateShareableLink and generateToken *)
Definition generateShareableLink (src : Entropy) : string * Entropy :=
  let '(bytes, src') := randomBytes src 8 in (toHex bytes, src').

Definition generateToken (src : Entropy) : string * Entropy :=
  let '(bytes, src') := randomBytes src 32 in (toHex bytes, src').

(** What [initializePayment] posts to the gateway's [/transaction/initialize];
    [appUrl] is [env.appUrl]. *)
Record InitRequest := mkInitRequest {
  ir_email : string;
  ir_amount : float;
  ir_reference : string;
  ir_callback_url : string
}.

Definition initializePaymentRequest (appUrl email : string) (amount : float)
    (reference : string) (callbackUrl : option string) : InitRequest :=
  mkInitRequest email (amount * 100) reference
    (match callbackUrl with
     | Some url => if String.eqb url "" then appUrl +:+ "/wallet/verify" else url
     | None => appUrl +:+ "/wallet/verify"
     end).

(** [parseInt(q) || d]: the default replaces [NaN] ([None]) and zero. *)
Definition orDefault (parsed : option Z) (d : Z) : Z :=
  match parsed with
  | Some 0%Z | None => d
  | Some n => n
  end.

Record Paginated (A : Type) := mkPaginated {
  pg_data : list A;
  pg_total : Z;
  pg_page : Z;
  pg_limit : Z;
  pg_pages : option Z
}.
Arguments mkPaginated {A} _ _ _ _ _.
Arguments pg_data {A} _.
Arguments pg_total {A} _.
Arguments pg_page {A} _.
Arguments pg_limit {A} _.
Arguments pg_pages {A} _.

(** [utils/helpers.ts]: formatPaginatedResponse.  [Math.ceil(total / limit)]
    is a number unless [limit] is zero, where JSON prints [null]. *)
Definition formatPaginatedResponse {A} (data : list A) (total page limit : Z)
    : Paginated A :=
  mkPaginated data total page limit
    (if (limit =? 0)%Z then None
     else Some (Qceiling (inject_Z total / inject_Z limit))).

(** [Array.prototype.slice(start, end)], negative indices counting from the
    end. *)
Definition slice {A} (l : list A) (start final : Z) : list A :=
  let len := Z.of_nat (length l) in
  let k := (if start <? 0 then Z.max (len + start) 0 else Z.min start len)%Z in
  let e := (if final <? 0 then Z.max (len + final) 0 else Z.min final len)%Z in
  take (Z.to_nat (e - k)) (drop (Z.to_nat k) l).

(** [transactions.sort((a, b) => time(b.createdAt) - time(a.createdAt))]:
    the stable sort, newest first. *)
Fixpoint insertNewest (t : ITransaction) (sorted : list ITransaction)
    : list ITransaction :=
  match sorted with
  | [] => [t]
  | x :: rest =>
      if (createdAt x <=? createdAt t)%Z then t :: x :: rest
      else x :: insertNewest t rest
  end.

Definition sortNewestFirst (ts : list ITransaction) : list ITransaction :=
  foldr insertNewest [] ts.

(** getTransactions.  [page] and [limit] are what [parseInt] makes of the
    query parameters; the sorted copy is not saved. *)
Definition getTransactions (db : Db) (user : IUser) (page limit : option Z)
    : Db * Response (Paginated ITransaction) :=
  let page := orDefault page 1 in
  let limit := orDefault limit 20 in
  let '(db1, _, wallet) := getOrCreateWallet db (_id user) in
  let shown :=
    slice (sortNewestFirst (transactions wallet))
      ((page - 1) * limit)%Z (page * limit)%Z in
  (db1, Json (formatPaginatedResponse shown
                (Z.of_nat (length (transactions wallet))) page limit)).

(** ** Sequences of requests *)

(** A request to one of the handlers, with everything the handler obtains
    from outside while it serves the request. *)
Inductive Request :=
| GetBalance (user : IUser)
| FundWallet (user : IUser) (amount : float) (now : Z) (src : Entropy)
    (paymentData : option InitData)
| VerifyWalletPayment (reference : option string) (paymentData : option VerifyData)
| PaystackWebhook (body : WebhookBody) (signature : option string)
| PurchaseGift (user : IUser) (body : PurchaseBody) (now : Z)
| AddToGiftBox (user : IUser) (body : BoxBody) (now : Z) (src : Entropy)
| RedeemGiftBox (user : option IUser) (code : string) (now : Z) (src : Entropy).

Section Server.

Variable secretKey : string.
Variable JSON_stringify : WebhookBody → string.
Variable hmac_sha512 : string → string → string.
Variable Number_toString : float → string.
Variable String_toNumber : string → float.

  (** The store a request leaves behind. *)
Definition handle (db : Db) (req : Request) : Db :=
    match req with
    | GetBalance user => fst (getBalance db user)
    | FundWallet user amount now src p => fst (fundWallet db user amount now src p)
    | VerifyWalletPayment r p => fst (verifyWalletPayment db r p)
    | PaystackWebhook body sig =>
        fst (paystackWebhook secretKey JSON_stringify hmac_sha512 db body sig)
    | PurchaseGift user body now => fst (purchaseGift db user body now)
    | AddToGiftBox user body now src =>
        fst (addToGiftBox Number_toString String_toNumber db user body now src)
    | RedeemGiftBox user code now src => fst (redeemGiftBox db user code now src)
    end.

  (** Requests are served one after the other. *)
Definition serve (db : Db) (reqs : list Request) : Db := foldl handle db reqs.

End Server.

(** A store before the first request: any catalog, cards and websites, no
    wallet and no gift box yet. *)
Definition initialDb (gs : gmap string IGift) (cs ws : gmap string Attachable) : Db :=
  mkDb gs [] [] cs ws.

(** ** Sample data *)

Module Sample.

Definition alice : IUser := mkUser "64b000000000000000000a11" "alice@example.com".
Definition bob : IUser := mkUser "64b000000000000000000b0b" "bob@example.com".

Definition coffeeId : ObjectId := "64c0000000000000000000c0".
Definition teaId : ObjectId := "64c0000000000000000000c1".
Definition cardA : ObjectId := "64d0000000000000000000d0".
Definition siteA : ObjectId := "64e0000000000000000000e0".

Definition coffee : IGift := mkGift "Coffee Voucher" 1000 500 true (Some 3%Z).
Definition tea : IGift := mkGift "Tea Voucher" 300 200 true None.

Definition catalog : gmap string IGift := <[coffeeId:=coffee]> (<[teaId:=tea]> ∅).
Definition cards : gmap string Attachable := {[cardA := mkAttachable (_id alice) None]}.
Definition websites : gmap string Attachable := {[siteA := mkAttachable (_id alice) None]}.

Definition db0 : Db := initialDb catalog cards websites.

Definition zeros : Entropy := λ _, Byte.x00.
Definition ramp : Entropy := λ k, default Byte.xff (Byte.of_N (N.of_nat (17 * k + 171))).

  (** Stand-ins for the three external functions of the webhook. *)
Definition secret : string := "sk_test".
Definition showNumber (x : float) : string :=
  match Prim2SF x with
  | S754_zero _ => "0"
  | S754_finite s m e =>
      (if s then "-" else "") +:+ pretty (Z.pos m) +:+ "p" +:+ pretty e
  | S754_infinity s => (if s then "-" else "") +:+ "Infinity"
  | S754_nan => "NaN"
  end.
Definition stringify (b : WebhookBody) : string :=
    event b +:+ "|" +:+ cd_reference (data b) +:+ "|" +:+ showNumber (cd_amount (data b)).
Definition mac (key payload : string) : string := key +:+ ":" +:+ payload.

  (** Stand-ins for the two conversions of the language, which are right on
      the numerals of the natural numbers below [2 ^ 53]. *)
Definition integerOf (x : float) : option Z :=
  match Prim2SF x with
  | S754_zero _ => Some 0%Z
  | S754_finite s m e =>
      let n := (if (0 <=? e)%Z then Z.pos m * 2 ^ e else Z.pos m / 2 ^ (- e))%Z in
      if (0 <=? e)%Z || (Z.pos m mod 2 ^ (- e) =? 0)%Z
      then Some (if s then - n else n)%Z else None
  | _ => None
  end.
Definition numberToString (x : float) : string :=
  match integerOf x with
  | Some z => pretty z
  | None => "NaN"
  end.
Fixpoint readDigits (s : string) (acc : Z) : option Z :=
  match s with
  | EmptyString => Some acc
  | String c rest =>
      let n := Z.of_N (N_of_ascii c) in
      if ((48 <=? n) && (n <=? 57))%Z then readDigits rest (10 * acc + (n - 48))%Z
      else None
  end.
Definition stringToNumber (s : string) : float :=
  match readDigits s 0 with
  | Some z => ofZ z
  | None => nan
  end.

(** Alice funds her wallet with 500; the gateway later reports the charge. *)
Definition fundedRef : string := "WC_1700_00000000".
Definition funded : Db :=
  (fundWallet db0 alice 500 1700 zeros (Some (mkInitData "https://pay" "ac" fundedRef))).1.
Definition pendingTx : ITransaction :=
  mkTransaction credit 500 fundedRef "Wallet funding" pending 1700.
Definition fundedWallet : IWallet := mkWallet (_id alice) 0 "NGN" [pendingTx].
Definition paid : VerifyData := mkVerifyData "success" 50000.
Definition charge (kobo : float) : WebhookBody :=
  mkWebhookBody "charge.success" (mkChargeData fundedRef kobo).
Definition verified : Db := (verifyWalletPayment funded (Some fundedRef) (Some paid)).1.

(** Alice puts two coffee vouchers into the gift box of her card. *)
Definition cardBody (gid : string) (q : float) : BoxBody :=
  mkBoxBody gid (Some cardA) None (Some (JNumber q)) None.
Definition boxCode : string := "ABBCCDDEEFFF".
Definition coffeeBox : IGiftBox :=
  mkGiftBox (Some cardA) None (_id alice) None [mkItem coffeeId (Some 2%float) 1900]
    false None (Some boxCode).
Definition boxed : Db :=
  (addToGiftBox numberToString stringToNumber db0 alice (cardBody coffeeId 2) 1900 ramp).1.

(** The box of Alice's website with one coffee voucher, and the box that a
    request naming her card and her website opens. *)
Definition siteBox : IGiftBox :=
  mkGiftBox None (Some siteA) (_id alice) None [mkItem coffeeId (Some 1%float) 1900]
    false None (Some boxCode).
Definition bothBox : IGiftBox :=
  mkGiftBox (Some cardA) (Some siteA) (_id alice) None
    [mkItem coffeeId (Some 1%float) 2000] false None (Some "000000000000").

(** The id of the coffee voucher as a client may also write it. *)
Definition coffeeIdUpper : string := "64C0000000000000000000C0".


(** Alice with a balance of 1000. *)
Definition aliceWallet : IWallet :=
  mkWallet (_id alice) 1000 "NGN"
    [mkTransaction credit 1000 "WC_1_00000000" "Wallet funding" completed 1].
Definition shop : Db := mkDb catalog [aliceWallet] [] cards websites.

End Sample.

(** ** Vocabulary of the properties *)

(** What the two settling handlers write: the transaction at position [j]
    completed, the balance raised by [amt]. *)
Definition settle (w : IWallet) (j : nat) (t : ITransaction) (amt : float) : IWallet :=
  setBalance
    (setTransactions w (<[j:=setStatus t completed]> (transactions w)))
    (balance w + amt).

(** A transaction that is not pending stays where it is, as it is. *)
Definition keepsSettled (w w' : IWallet) : Prop :=
  ∀ j t, transactions w !! j = Some t → status t ≠ pending →
         transactions w' !! j = Some t.

Definition settledUnchanged (db db' : Db) : Prop :=
  ∀ i w, Wallet db !! i = Some w →
         ∃ w', Wallet db' !! i = Some w' ∧ userId w' = userId w ∧ keepsSettled w w'.

(** A double that is not below zero: zero of either sign, a positive
    number or the positive infinity; [NaN] is none of them. *)
Definition nonneg (x : float) : Prop := (0 <=? x)%float = true.

(** The same, and further classes of doubles, on the decoded form. *)
Definition sfNonneg (x : spec_float) : Prop :=
  match x with
  | S754_zero _ | S754_infinity false | S754_finite false _ _ => True
  | _ => False
  end.

Definition sfFinite (x : spec_float) : Prop :=
  match x with
  | S754_zero _ | S754_finite _ _ _ => True
  | _ => False
  end.

Definition sfPositive (x : spec_float) : Prop :=
  match x with
  | S754_finite false _ _ => True
  | _ => False
  end.


(** The gift boxes of a store as the handlers leave them: every box has a
    redemption code, no two boxes share one (the unique index), and every
    line item has a quantity that passes the schema's [min: 1]: it is
    [null] or at least one. *)
Definition boxesOk (db : Db) : Prop :=
  Forall (λ b, truthy (redemptionCode b) = true) (GiftBox db)
  ∧ NoDup (redemptionCode <$> GiftBox db)
  ∧ Forall (λ b, GiftBox_validate b = true) (GiftBox db).

(** A box is kept: it has the code, the sender and the references it had,
    and if it was redeemed it is exactly as it was. *)
Definition boxKept (b b' : IGiftBox) : Prop :=
  redemptionCode b' = redemptionCode b
  ∧ senderId b' = senderId b
  ∧ cardId b' = cardId b
  ∧ websiteId b' = websiteId b
  ∧ (isRedeemed b = true → b' = b).

Definition boxesKept (db db' : Db) : Prop :=
  ∀ k b, GiftBox db !! k = Some b → ∃ b', GiftBox db' !! k = Some b' ∧ boxKept b b'.

(** The card and the website that a request names belong to the user. *)
Definition targetOwned (db : Db) (user : IUser) (body : BoxBody) : Prop :=
  (truthy (bb_cardId body) = true →
     is_Some (findOwned (Card db) (bb_cardId body) (_id user)))
  ∧ (truthy (bb_websiteId body) = true →
       is_Some (findOwned (Website db) (bb_websiteId body) (_id user))).

(** The line items of a box for one gift. *)
Definition itemsOf (gid : ObjectId) (items : list IGiftBoxItem) : list IGiftBoxItem :=
  filter (λ it, giftId it = gid) items.

(** The wallet after the payout of a redeemed box. *)
Definition credited (w : IWallet) (total : float) (code : string) (now : Z) : IWallet :=
  pushTransaction (setBalance w (balance w + total))
    (mkTransaction credit total ("REDEEM_" +:+ code) "Gift box redemption" completed now).

(** No two wallets belong to one user (the unique index on [userId]). *)
Definition walletsUnique (db : Db) : Prop := NoDup (userId <$> Wallet db).

(** No wallet has a negative balance. *)
Definition balancesOk (db : Db) : Prop := Forall (λ w, nonneg (balance w)) (Wallet db).

(** An entry of a transaction log is kept: everything but its status is as
    it was, and its status is as it was or went from pending to completed. *)
Definition entryKept (t t' : ITransaction) : Prop :=
  type t' = type t ∧ amount t' = amount t ∧ reference t' = reference t
  ∧ description t' = description t ∧ createdAt t' = createdAt t
  ∧ (status t' = status t ∨ status t = pending ∧ status t' = completed).

(** What a handler may do to a wallet: keep its user and currency, keep
    every entry of its log in place, and leave the balance alone or leave
    it non-negative. *)
Definition walletUpdate (w w' : IWallet) : Prop :=
  userId w' = userId w ∧ currency w' = currency w
  ∧ (balance w' = balance w ∨ nonneg (balance w'))
  ∧ ∀ j t, transactions w !! j = Some t →
           ∃ t', transactions w' !! j = Some t' ∧ entryKept t t'.

(** Every wallet of [db] is in [db'] at its position, updated. *)
Definition logsKept (db db' : Db) : Prop :=
  ∀ i w, Wallet db !! i = Some w → ∃ w', Wallet db' !! i = Some w' ∧ walletUpdate w w'.

(** The three shapes of the wallets after a request: as they were, one
    wallet updated in place, or one wallet created for a user who had none
    (and updated). *)
Definition walletsStep (db : Db) (ws' : list IWallet) : Prop :=
  ws' = Wallet db
  ∨ (∃ i w w', Wallet db !! i = Some w ∧ walletUpdate w w'
               ∧ ws' = <[i:=w']> (Wallet db))
  ∨ (∃ uid w', Wallet_findOne_userId db uid = None
               ∧ walletUpdate (newWallet uid) w'
               ∧ ws' = Wallet db ++ [w']).

(** The wallet of a user and its position: the one the store has, or a new
    one past the end. *)
Definition userWallet (db : Db) (uid : ObjectId) : nat * IWallet :=
  match Wallet_findOne_userId db uid with
  | Some (i, w) => (i, w)
  | None => (length (Wallet db), newWallet uid)
  end.

(** The wallets with [w] at position [i], which is a position of the list or
    the one past its end. *)
Definition putWallet (ws : list IWallet) (i : nat) (w : IWallet) : list IWallet :=
  if bool_decide (i < length ws)%nat then <[i:=w]> ws else ws ++ [w].

(** No transaction of the store carries the reference. *)
Definition referenceFresh (db : Db) (r : string) : Prop :=
  Forall (λ w, Forall (λ t, reference t ≠ r) (transactions w)) (Wallet db).

(** The funding transaction that fundWallet records. *)
Definition fundingTx (amount : float) (now : Z) (src : Entropy) (s : TransactionStatus)
    : ITransaction :=
  mkTransaction credit amount (generatePaymentReference now src).1
    "Wallet funding" s now.

(** A wallet after a funding of [amount] was settled with a credit of [paid]. *)
Definition fundedWith (w : IWallet) (amount paid : float) (now : Z) (src : Entropy)
    : IWallet :=
  mkWallet (userId w) (balance w + paid) (currency w)
    (transactions w ++ [fundingTx amount now src completed]).

(** Newest first: the order of two neighbours of a sorted log. *)
Definition notOlder (a b : ITransaction) : Prop := (createdAt b ≤ createdAt a)%Z.

(** The transactions of one date, in the order of the list. *)
Definition onDate (d : Z) (ts : list ITransaction) : list ITransaction :=
  filter (λ t, createdAt t = d) ts.

(** The digits of a redemption code, and the shape of a code. *)
Definition isUpperHexDigit (c : ascii) : bool :=
  let n := N_of_ascii c in
  ((48 <=? n) && (n <=? 57) || (65 <=? n) && (n <=? 70))%N.

Definition isLowerHexDigit (c : ascii) : bool :=
  let n := N_of_ascii c in
  ((48 <=? n) && (n <=? 57) || (97 <=? n) && (n <=? 102))%N.

Definition codeFormatted (c : option string) : Prop :=
  ∃ s, c = Some s ∧ String.length s = 12%nat
       ∧ forallb isUpperHexDigit (list_ascii_of_string s) = true.

Definition codesFormatted (db : Db) : Prop :=
  Forall codeFormatted (redemptionCode <$> GiftBox db).

(** Reading two hexadecimal digits, of either case, back into a byte. *)
Definition unhexDigit (c : ascii) : option N :=
  let n := N_of_ascii c in
  if ((48 <=? n) && (n <=? 57))%N then Some (n - 48)%N
  else if ((65 <=? n) && (n <=? 70))%N then Some (n - 55)%N
  else if ((97 <=? n) && (n <=? 102))%N then Some (n - 87)%N
  else None.

Definition byteOfHex (c1 c2 : ascii) : option Byte.byte :=
  match unhexDigit c1, unhexDigit c2 with
  | Some a, Some b => Byte.of_N (16 * a + b)
  | _, _ => None
  end.

(** The box that addToGiftBox creates for a request, as [create] and the
    save hook leave it. *)
Definition createdBox (user : IUser) (body : BoxBody) (src : Entropy) : IGiftBox :=
  mkGiftBox (castId (bb_cardId body)) (castId (bb_websiteId body)) (_id user)
    (bb_recipientEmail body) [] false None (Some (generateRedemptionCode src).1).

(** No box of the store has the code. *)
Definition codeFresh (db : Db) (code : string) : Prop :=
  Forall (λ b, redemptionCode b ≠ Some code) (GiftBox db).

(** The document named by [id] has been given the reference to box [i];
    nothing else of the collection has changed. *)
Definition linkedTo (docs docs' : gmap string Attachable) (id : option ObjectId)
    (i : nat) : Prop :=
  ∃ k a, id = Some k ∧ docs !! k = Some a ∧ docs' = <[k:=setGiftBoxRef a i]> docs.

(** * Properties *)

(** ** Doubles

    What the properties need of the arithmetic of doubles: the sign of a
    sum, a product, a quotient and a difference, from the specification of
    the operations ([FloatAxioms] over [SpecFloat]). *)

Lemma nonneg_spec x : nonneg x ↔ sfNonneg (Prim2SF x).
Proof.
  unfold nonneg. rewrite FloatAxioms.leb_spec.
  change (Prim2SF 0) with (S754_zero false).
  destruct (Prim2SF x) as [s|[]| |[] m e]; cbv [SFleb SFcompare sfNonneg];
    intuition congruence.
Qed.

Lemma SFcompare_refl x : x ≠ S754_nan → SFcompare x x = Some Eq.
Proof.
  destruct x as [s|[]| |[] m e]; simpl; try done;
    rewrite Z.compare_refl, Pos.compare_cont_refl; done.
Qed.

Lemma is_finite_spec x : is_finite x = true ↔ sfFinite (Prim2SF x).
Proof.
  unfold is_finite, is_nan, is_infinity. rewrite !FloatAxioms.eqb_spec, FloatAxioms.abs_spec.
  change (Prim2SF infinity) with (S754_infinity false).
  destruct (Prim2SF x) as [s|[]| |[] m e] eqn:E; unfold SFeqb; simpl;
    rewrite ?Z.compare_refl, ?Pos.compare_cont_refl; simpl; intuition congruence.
Qed.

Lemma SFcompare_swap x y :
  SFcompare y x = CompOpp <$> SFcompare x y.
Proof.
  destruct x as [sx|sx| |sx mx ex], y as [sy|sy| |sy my ey]; simpl; try done;
    try (by destruct sx); try (by destruct sy); try (by destruct sx, sy).
  destruct sx, sy; simpl; try done;
    rewrite (Z.compare_antisym ex ey); destruct (ex ?= ey)%Z; simpl; try done;
    change (PosDef.Pos.compare_cont Eq my mx) with (Pos.compare my mx);
    change (PosDef.Pos.compare_cont Eq mx my) with (Pos.compare mx my);
    rewrite (Pos.compare_antisym mx my); by rewrite ?CompOpp_involutive.
Qed.


Lemma ltb_not_leb x y : (x <? y)%float = true → (y <=? x)%float = false.
Proof.
  rewrite FloatAxioms.leb_spec, FloatAxioms.ltb_spec. unfold SFleb, SFltb.
  rewrite (SFcompare_swap (Prim2SF y) (Prim2SF x)).
  by destruct (SFcompare (Prim2SF y) (Prim2SF x)) as [[]|].
Qed.

Lemma shr_1_nonneg mrs : (0 ≤ shr_m mrs)%Z → (0 ≤ shr_m (shr_1 mrs))%Z.
Proof. destruct mrs as [[|[p|p|]|[p|p|]] r s]; simpl; lia. Qed.

Lemma iter_pos_inv {A} (P : A → Prop) (f : A → A) (n : positive) x :
  (∀ y, P y → P (f y)) → P x → P (SpecFloat.iter_pos f n x).
Proof.
  intros Hf. revert x. induction n as [n IH|n IH|]; intros x Hx; simpl; auto.
Qed.

Lemma shr_nonneg mrs e n : (0 ≤ shr_m mrs)%Z → (0 ≤ shr_m (shr mrs e n).1)%Z.
Proof.
  intros H. destruct n as [|p|p]; simpl; try done.
  apply (iter_pos_inv (λ r, 0 ≤ shr_m r)%Z); [apply shr_1_nonneg|done].
Qed.

Lemma shr_fexp_nonneg m e l :
  (0 ≤ m)%Z → (0 ≤ shr_m (shr_fexp prec emax m e l).1)%Z.
Proof.
  intros H. unfold shr_fexp. apply shr_nonneg.
  by destruct l as [|[]].
Qed.

Lemma round_nearest_even_nonneg m l : (0 ≤ m)%Z → (0 ≤ round_nearest_even m l)%Z.
Proof.
  intros H. destruct l as [|[]]; simpl; try done; try lia. destruct (Z.even m); lia.
Qed.

Lemma binary_round_aux_nonneg m e l :
  (0 ≤ m)%Z → sfNonneg (binary_round_aux prec emax false m e l).
Proof.
  intros H. unfold binary_round_aux.
  pose proof (shr_fexp_nonneg m e l H) as H1.
  destruct (shr_fexp prec emax m e l) as [mrs' e'].
  simpl in H1.
  pose proof (shr_fexp_nonneg _ e' loc_Exact
                (round_nearest_even_nonneg _ (loc_of_shr_record mrs') H1)) as H2.
  destruct (shr_fexp prec emax _ e' loc_Exact) as [mrs'' e''].
  simpl in H2. destruct (shr_m mrs'') as [|p|p]; simpl; try done.
  by destruct (_ <=? _)%Z.
Qed.

Lemma binary_round_nonneg m e : sfNonneg (binary_round prec emax false m e).
Proof.
  unfold binary_round. destruct (shl_align _ _ _) as [mz ez].
  by apply binary_round_aux_nonneg.
Qed.


Lemma add_nonneg x y : nonneg x → nonneg y → nonneg (x + y).
Proof.
  rewrite !nonneg_spec, add_spec. unfold SF64add.
  destruct (Prim2SF x) as [sx|[]| |[] mx ex], (Prim2SF y) as [sy|[]| |[] my ey];
    simpl; try done.
  - by destruct sx, sy.
  - intros _ _. apply binary_round_nonneg.
Qed.

(** A positive finite number. *)
Lemma one_leb_positive y :
  (1 <=? y)%float = true → is_finite y = true → sfPositive (Prim2SF y).
Proof.
  rewrite FloatAxioms.leb_spec, is_finite_spec.
  destruct (Prim2SF y) as [s|[]| |[] m e]; vm_compute; try done.
Qed.

Lemma mul_nonneg x y : nonneg x → sfPositive (Prim2SF y) → nonneg (x * y).
Proof.
  rewrite !nonneg_spec, mul_spec. unfold SF64mul.
  destruct (Prim2SF x) as [sx|[]| |[] mx ex], (Prim2SF y) as [sy|[]| |[] my ey];
    simpl; try done.
  intros _ _. by apply binary_round_aux_nonneg.
Qed.

Lemma div_nonneg x y : nonneg x → sfPositive (Prim2SF y) → nonneg (x / y).
Proof.
  rewrite !nonneg_spec, div_spec. unfold SF64div.
  destruct (Prim2SF x) as [sx|[]| |[] mx ex], (Prim2SF y) as [sy|[]| |[] my ey];
    simpl; try done.
  intros _ _. unfold SFdiv_core_binary.
    set (m' := match _ with Z.pos _ => _ | Z0 => _ | Z.neg _ => _ end).
    assert (0 ≤ m')%Z as Hm'.
    { subst m'. destruct (_ - _ - _)%Z; try done. by apply Z.shiftl_nonneg. }
    pose proof (Z.div_pos m' (Z.pos my) Hm' ltac:(done)) as Hq.
    unfold Z.div in Hq. destruct (Z.div_eucl m' (Z.pos my)) as [q r].
  by apply binary_round_aux_nonneg.
Qed.

Lemma leb_nonneg c x : sfPositive (Prim2SF c) → (c <=? x)%float = true → nonneg x.
Proof.
  rewrite nonneg_spec, FloatAxioms.leb_spec.
  destruct (Prim2SF c) as [sc|[]| |[] mc ec]; try done. intros _.
  destruct (Prim2SF x) as [s|[]| |[] m e]; cbv [SFleb SFcompare sfNonneg]; done.
Qed.









(** ** Lists as collections *)

Section ListFind.
Context {A : Type} (P : A → Prop) `{!∀ x, Decision (P x)}.

  (** Writing a document back at the position where [find] found it, still
      matching the query, lets the same query find it there again. *)
Lemma list_find_insert_same (l : list A) i x y :
    list_find P l = Some (i, y) → P x → list_find P (<[i:=x]> l) = Some (i, x).
  Proof.
    intros (Hi & Hy & Hmin)%list_find_Some Hx. apply list_find_Some.
    split_and!.
    - apply list_lookup_insert_eq. by eapply lookup_lt_Some.
    - done.
    - intros k z Hk Hlt. rewrite list_lookup_insert_ne in Hk by lia. eauto.
  Qed.

Lemma list_find_lookup (l : list A) i x :
    list_find P l = Some (i, x) → l !! i = Some x.
  Proof. by intros (? & _)%list_find_Some. Qed.

Lemma list_find_holds (l : list A) i x :
    list_find P l = Some (i, x) → P x.
  Proof. by intros (_ & ? & _)%list_find_Some. Qed.
End ListFind.

(** ** The webhook's signature gate *)

Section WebhookFacts.
Variable secretKey : string.
Variable JSON_stringify : WebhookBody → string.
Variable hmac_sha512 : string → string → string.

Local Abbreviation webhook := (paystackWebhook secretKey JSON_stringify hmac_sha512).
Local Abbreviation digest body := (hmac_sha512 secretKey (JSON_stringify body)).

Lemma verifyWebhookSignature_true payload signature :
    verifyWebhookSignature secretKey hmac_sha512 payload signature = true
    ↔ signature = Some (hmac_sha512 secretKey payload).
  Proof. unfold verifyWebhookSignature. rewrite bool_decide_eq_true. naive_solver. Qed.




End WebhookFacts.


(** ** Settlement of a funding transaction *)

Lemma keepsSettled_refl w : keepsSettled w w.
Proof. by intros j t. Qed.

Lemma keepsSettled_trans w1 w2 w3 :
  keepsSettled w1 w2 → keepsSettled w2 w3 → keepsSettled w1 w3.
Proof. intros H1 H2 j t Hj Hs. eauto. Qed.

Lemma keepsSettled_push w t : keepsSettled w (pushTransaction w t).
Proof. intros j t0 Hj _. simpl. by apply lookup_app_l_Some. Qed.

Lemma keepsSettled_setBalance w b : keepsSettled w (setBalance w b).
Proof. by intros j t. Qed.

Lemma keepsSettled_settle w j t amt :
  transactions w !! j = Some t → status t = pending → keepsSettled w (settle w j t amt).
Proof.
  intros Hj Hp j' t' Hj' Hs. simpl.
  destruct (decide (j' = j)) as [->|Hne]; [congruence|].
  by rewrite list_lookup_insert_ne.
Qed.

Lemma settledUnchanged_refl db : settledUnchanged db db.
Proof. intros i w Hi. eauto using keepsSettled_refl. Qed.

Lemma settledUnchanged_trans db1 db2 db3 :
  settledUnchanged db1 db2 → settledUnchanged db2 db3 → settledUnchanged db1 db3.
Proof.
  intros H1 H2 i w Hi.
  destruct (H1 i w Hi) as (w2 & Hi2 & Hu2 & Hk2).
  destruct (H2 i w2 Hi2) as (w3 & Hi3 & Hu3 & Hk3).
  exists w3. split_and!; [done|congruence|by eapply keepsSettled_trans].
Qed.

Lemma settledUnchanged_insert db i w w' :
  Wallet db !! i = Some w → userId w' = userId w → keepsSettled w w' →
  settledUnchanged db (setWallet db (<[i:=w']> (Wallet db))).
Proof.
  intros Hi Hu Hk k wk Hwk. simpl.
  destruct (decide (k = i)) as [->|Hne].
  - exists w'. rewrite list_lookup_insert_eq by (by eapply lookup_lt_Some).
    by simplify_eq.
  - exists wk. rewrite list_lookup_insert_ne by done.
    eauto using keepsSettled_refl.
Qed.

Lemma settledUnchanged_create db w :
  settledUnchanged db (setWallet db (Wallet db ++ [w])).
Proof.
  intros k wk Hwk. exists wk. simpl.
  split; [by apply lookup_app_l_Some | eauto using keepsSettled_refl].
Qed.

Lemma settledUnchanged_same_wallets db db' :
  Wallet db' = Wallet db → settledUnchanged db db'.
Proof. intros Hw i w Hi. exists w. rewrite Hw. eauto using keepsSettled_refl. Qed.

Lemma Wallet_save_Some db i w db' :
  Wallet_save db i w = Some db' →
  Wallet_validate w = true ∧ db' = setWallet db (<[i:=w]> (Wallet db)).
Proof. unfold Wallet_save. case_match; naive_solver. Qed.

Lemma Wallet_findOne_reference_lookup db r i w :
  Wallet_findOne_reference db r = Some (i, w) → Wallet db !! i = Some w.
Proof. apply list_find_lookup. Qed.

Lemma Wallet_findOne_userId_lookup db uid i w :
  Wallet_findOne_userId db uid = Some (i, w) → Wallet db !! i = Some w.
Proof. apply list_find_lookup. Qed.

Lemma findTransaction_lookup w r j t :
  findTransaction w r = Some (j, t) → transactions w !! j = Some t.
Proof. apply list_find_lookup. Qed.

Lemma findTransaction_reference w r j t :
  findTransaction w r = Some (j, t) → reference t = r.
Proof. intros H. by apply list_find_holds in H. Qed.

(** The outcomes of verifyWalletPayment: the store is as it was, or the
    located transaction was pending and is settled with its own amount. *)
Lemma verifyWalletPayment_cases db reference paymentData :
  (verifyWalletPayment db reference paymentData).1 = db
  ∨ ∃ r i w j t,
      reference = Some r
      ∧ Wallet_findOne_reference db r = Some (i, w)
      ∧ findTransaction w r = Some (j, t)
      ∧ status t = pending
      ∧ Wallet_validate (settle w j t (amount t)) = true
      ∧ (verifyWalletPayment db reference paymentData).1
        = setWallet db (<[i:=settle w j t (amount t)]> (Wallet db)).
Proof.
  unfold verifyWalletPayment.
  destruct reference as [r|]; [|by left].
  destruct (String.eqb r ""); [by left|].
  destruct paymentData as [p|]; [|by left].
  destruct (negb _); [by left|].
  destruct (Wallet_findOne_reference db r) as [[i w]|] eqn:Hw; [|by left].
  destruct (findTransaction w r) as [[j t]|] eqn:Ht; [|by left].
  destruct (status t) eqn:Hs; [|by left..].
  destruct (Wallet_save _ _ _) as [db1|] eqn:Hsave; [|by left].
  apply Wallet_save_Some in Hsave as [Hval ->].
  right. by exists r, i, w, j, t.
Qed.

Section SettlementFacts.
Variable secretKey : string.
Variable JSON_stringify : WebhookBody → string.
Variable hmac_sha512 : string → string → string.

Local Abbreviation webhook := (paystackWebhook secretKey JSON_stringify hmac_sha512).
Local Abbreviation digest body := (hmac_sha512 secretKey (JSON_stringify body)).

(** The outcomes of paystackWebhook: the store is as it was, or the located
    transaction was pending and is settled with the amount of the payload. *)
Lemma paystackWebhook_cases db body signature :
  (webhook db body signature).1 = db
  ∨ ∃ i w j t,
      signature = Some (digest body)
      ∧ event body = "charge.success"
      ∧ Wallet_findOne_reference db (cd_reference (data body)) = Some (i, w)
      ∧ findTransaction w (cd_reference (data body)) = Some (j, t)
      ∧ status t = pending
      ∧ Wallet_validate (settle w j t (cd_amount (data body) / 100)) = true
      ∧ (webhook db body signature).1
        = setWallet db (<[i:=settle w j t (cd_amount (data body) / 100)]> (Wallet db)).
Proof.
  unfold paystackWebhook.
  destruct (verifyWebhookSignature _ _ _ _) eqn:Hv; [|by left].
  apply verifyWebhookSignature_true in Hv. simpl.
  destruct (String.eqb (event body) "charge.success") eqn:He; [|by left].
  apply String.eqb_eq in He.
  destruct (Wallet_findOne_reference db _) as [[i w]|] eqn:Hw; [|by left].
  destruct (findTransaction w _) as [[j t]|] eqn:Ht; [|by left].
  destruct (status t) eqn:Hs; [|by left..].
  destruct (Wallet_save _ _ _) as [db1|] eqn:Hsave; [|by left].
  apply Wallet_save_Some in Hsave as [Hval ->].
  right. by exists i, w, j, t.
Qed.

End SettlementFacts.

Lemma getOrCreateWallet_spec db uid db1 i w :
  getOrCreateWallet db uid = (db1, i, w) →
  Wallet db1 !! i = Some w
  ∧ userId w = uid
  ∧ Wallet_findOne_userId db1 uid = Some (i, w)
  ∧ (db1 = db ∨ Wallet_findOne_userId db uid = None
               ∧ w = newWallet uid ∧ i = length (Wallet db)
               ∧ db1 = setWallet db (Wallet db ++ [newWallet uid])).
Proof.
  unfold getOrCreateWallet.
  destruct (Wallet_findOne_userId db uid) as [[i0 w0]|] eqn:Hf; intros [= <- <- <-].
  - split_and!; [by eapply list_find_lookup| by apply list_find_holds in Hf |done|by left].
  - split_and!.
    + simpl. by rewrite lookup_app_r, Nat.sub_diag.
    + done.
    + unfold Wallet_findOne_userId in *. simpl.
      rewrite list_find_app_r by done. simpl.
      by rewrite decide_True by done.
    + right. done.
Qed.

Lemma getOrCreateWallet_settled db uid db1 i w :
  getOrCreateWallet db uid = (db1, i, w) → settledUnchanged db db1.
Proof.
  intros (_ & _ & _ & [->|(_ & _ & _ & ->)])%getOrCreateWallet_spec.
  - apply settledUnchanged_refl.
  - apply settledUnchanged_create.
Qed.

Lemma Gift_save_Wallet db id g db' : Gift_save db id g = Some db' → Wallet db' = Wallet db.
Proof. unfold Gift_save. repeat case_match; naive_solver. Qed.

Lemma Gift_save_GiftBox db id g db' : Gift_save db id g = Some db' → GiftBox db' = GiftBox db.
Proof. unfold Gift_save. repeat case_match; naive_solver. Qed.

Lemma GiftBox_save_Some db i b src db' b' src' :
  GiftBox_save db i b src = Some (db', b', src') →
  (b', src') = preSave b src
  ∧ ¬ Exists (λ x, redemptionCode x = redemptionCode b') (delete i (GiftBox db))
  ∧ db' = setGiftBox db (if bool_decide (i < length (GiftBox db))%nat
                         then <[i:=b']> (GiftBox db) else GiftBox db ++ [b']).
Proof.
  unfold GiftBox_save. destruct (preSave b src) as [b1 src1].
  case_bool_decide; [done|]. by intros [= <- <- <-].
Qed.

Lemma GiftBox_save_Wallet db i b src db' b' src' :
  GiftBox_save db i b src = Some (db', b', src') → Wallet db' = Wallet db.
Proof. by intros (_ & _ & ->)%GiftBox_save_Some. Qed.

Lemma GiftBox_save_Gift db i b src db' b' src' :
  GiftBox_save db i b src = Some (db', b', src') → Gift db' = Gift db.
Proof. by intros (_ & _ & ->)%GiftBox_save_Some. Qed.

Lemma findOrCreateGiftBox_Wallet db user body src db' i b src' :
  findOrCreateGiftBox db user body src = Some (db', i, b, src') → Wallet db' = Wallet db.
Proof.
  unfold findOrCreateGiftBox. intros H.
  repeat case_match; simplify_eq; try done;
    match goal with H : GiftBox_save _ _ _ _ = Some _ |- _ =>
      apply GiftBox_save_Wallet in H end; done.
Qed.

Lemma findOrCreateGiftBox_Gift db user body src db' i b src' :
  findOrCreateGiftBox db user body src = Some (db', i, b, src') → Gift db' = Gift db.
Proof.
  unfold findOrCreateGiftBox. intros H.
  repeat case_match; simplify_eq; try done;
    match goal with H : GiftBox_save _ _ _ _ = Some _ |- _ =>
      apply GiftBox_save_Gift in H end; done.
Qed.

Lemma addToGiftBox_Wallet ts tn db user body now src :
  Wallet (addToGiftBox ts tn db user body now src).1 = Wallet db.
Proof.
  unfold addToGiftBox.
  repeat case_match; simplify_eq; simpl; try done;
    repeat match goal with
    | H : GiftBox_save _ _ _ _ = Some _ |- _ => apply GiftBox_save_Wallet in H
    | H : findOrCreateGiftBox _ _ _ _ = Some _ |- _ =>
        apply findOrCreateGiftBox_Wallet in H
    end; congruence.
Qed.

Lemma addToGiftBox_Gift ts tn db user body now src :
  Gift (addToGiftBox ts tn db user body now src).1 = Gift db.
Proof.
  unfold addToGiftBox.
  repeat case_match; simplify_eq; simpl; try done;
    repeat match goal with
    | H : GiftBox_save _ _ _ _ = Some _ |- _ => apply GiftBox_save_Gift in H
    | H : findOrCreateGiftBox _ _ _ _ = Some _ |- _ =>
        apply findOrCreateGiftBox_Gift in H
    end; congruence.
Qed.

(** No handler touches a transaction that is completed or failed. *)
Lemma fundWallet_settled db user amount now src p :
  settledUnchanged db (fundWallet db user amount now src p).1.
Proof.
  unfold fundWallet. destruct (fundWalletValidator amount); [|apply settledUnchanged_refl].
  destruct (getOrCreateWallet db (_id user)) as [[db1 i] w] eqn:Hg.
  pose proof (getOrCreateWallet_settled _ _ _ _ _ Hg) as H1.
  apply getOrCreateWallet_spec in Hg as (Hi & _).
  eapply settledUnchanged_trans; [done|].
  destruct p; simpl;
    (eapply settledUnchanged_insert; [done|done|apply keepsSettled_push]).
Qed.

Lemma verifyWalletPayment_settled db r p :
  settledUnchanged db (verifyWalletPayment db r p).1.
Proof.
  destruct (verifyWalletPayment_cases db r p)
    as [->|(r' & i & w & j & t & _ & Hw & Ht & Hs & _ & ->)].
  - apply settledUnchanged_refl.
  - eapply settledUnchanged_insert;
      [by eapply Wallet_findOne_reference_lookup|done|].
    apply keepsSettled_settle; [by eapply findTransaction_lookup|done].
Qed.

Lemma paystackWebhook_settled key str mac db body sig :
  settledUnchanged db (paystackWebhook key str mac db body sig).1.
Proof.
  destruct (paystackWebhook_cases key str mac db body sig)
    as [->|(i & w & j & t & _ & _ & Hw & Ht & Hs & _ & ->)].
  - apply settledUnchanged_refl.
  - eapply settledUnchanged_insert;
      [by eapply Wallet_findOne_reference_lookup|done|].
    apply keepsSettled_settle; [by eapply findTransaction_lookup|done].
Qed.

Lemma purchaseGift_settled db user body now :
  settledUnchanged db (purchaseGift db user body now).1.
Proof.
  unfold purchaseGift.
  repeat case_match; simplify_eq; simpl; try apply settledUnchanged_refl;
    repeat match goal with
    | H : Wallet_save _ _ _ = Some _ |- _ => apply Wallet_save_Some in H as [_ ->]
    | H : Wallet_findOne_userId _ _ = Some _ |- _ =>
        apply Wallet_findOne_userId_lookup in H
    end.
  - eapply settledUnchanged_trans;
      [|apply settledUnchanged_same_wallets; by eapply Gift_save_Wallet].
    eapply settledUnchanged_insert; [done|done|].
    eapply keepsSettled_trans; [apply keepsSettled_setBalance|apply keepsSettled_push].
  - eapply settledUnchanged_insert; [done|done|].
    eapply keepsSettled_trans; [apply keepsSettled_setBalance|apply keepsSettled_push].
  - eapply settledUnchanged_insert; [done|done|].
    eapply keepsSettled_trans; [apply keepsSettled_setBalance|apply keepsSettled_push].
Qed.

Lemma redeemGiftBox_settled db user code now src :
  settledUnchanged db (redeemGiftBox db user code now src).1.
Proof.
  unfold redeemGiftBox.
  repeat case_match; simplify_eq; simpl; try apply settledUnchanged_refl;
    repeat match goal with
    | H : Wallet_save _ _ _ = Some _ |- _ => apply Wallet_save_Some in H as [_ ->]
    | H : Wallet_findOne_userId _ _ = Some _ |- _ =>
        apply Wallet_findOne_userId_lookup in H
    | H : GiftBox_save _ _ _ _ = Some _ |- _ => apply GiftBox_save_Wallet in H
    end.
  - eapply settledUnchanged_trans;
      [apply settledUnchanged_same_wallets; eassumption|].
    eapply settledUnchanged_insert; [done|done|].
    eapply keepsSettled_trans; [apply keepsSettled_setBalance|apply keepsSettled_push].
  - by apply settledUnchanged_same_wallets.
  - eapply settledUnchanged_trans;
      [apply settledUnchanged_same_wallets; eassumption|].
    eapply settledUnchanged_trans; [apply settledUnchanged_create|].
    eapply settledUnchanged_insert with (w := newWallet _); [|done|].
    + simpl. by apply list_lookup_middle.
    + eapply keepsSettled_trans; [apply keepsSettled_setBalance|apply keepsSettled_push].
  - eapply settledUnchanged_trans;
      [apply settledUnchanged_same_wallets; eassumption|].
    apply settledUnchanged_create.
  - by apply settledUnchanged_same_wallets.
  - by apply settledUnchanged_same_wallets.
Qed.

Lemma handle_settled key str mac ts tn db req :
  settledUnchanged db (handle key str mac ts tn db req).
Proof.
  destruct req; simpl.
  - unfold getBalance.
    destruct (getOrCreateWallet db (_id user)) as [[db1 i] w] eqn:Hg.
    by eapply getOrCreateWallet_settled.
  - apply fundWallet_settled.
  - apply verifyWalletPayment_settled.
  - apply paystackWebhook_settled.
  - apply purchaseGift_settled.
  - apply settledUnchanged_same_wallets, addToGiftBox_Wallet.
  - apply redeemGiftBox_settled.
Qed.

Lemma serve_settled key str mac ts tn reqs db :
  settledUnchanged db (serve key str mac ts tn db reqs).
Proof.
  revert db. induction reqs as [|req reqs IH]; intros db; simpl.
  - apply settledUnchanged_refl.
  - eapply settledUnchanged_trans; [apply handle_settled|apply IH].
Qed.

(** After a settlement the same reference locates the same transaction,
    now completed. *)
Lemma located_after_settle db r i w j t amt :
  Wallet_findOne_reference db r = Some (i, w) →
  findTransaction w r = Some (j, t) →
  Wallet_findOne_reference (setWallet db (<[i:=settle w j t amt]> (Wallet db))) r
  = Some (i, settle w j t amt)
  ∧ findTransaction (settle w j t amt) r = Some (j, setStatus t completed).
Proof.
  intros Hw Ht.
  assert (findTransaction (settle w j t amt) r = Some (j, setStatus t completed)) as Ht'.
  { unfold findTransaction in *. simpl.
    eapply list_find_insert_same; [done|]. simpl. by eapply findTransaction_reference. }
  split; [|done].
  unfold Wallet_findOne_reference in *. simpl.
  eapply list_find_insert_same; [done|].
  apply Exists_exists. exists (setStatus t completed). split.
  - apply findTransaction_lookup in Ht'. by eapply list_elem_of_lookup_2.
  - simpl. by eapply findTransaction_reference.
Qed.

(** Settlement of a transaction that is not pending is a no-op. *)
Lemma verifyWalletPayment_noop db r i w j t p :
  Wallet_findOne_reference db r = Some (i, w) →
  findTransaction w r = Some (j, t) →
  status t ≠ pending →
  (verifyWalletPayment db (Some r) p).1 = db.
Proof.
  intros Hw Ht Hs.
  destruct (verifyWalletPayment_cases db (Some r) p)
    as [->|(r' & i' & w' & j' & t' & ? & Hw' & Ht' & Hs' & _)]; [done|].
  simplify_eq.
Qed.

Lemma paystackWebhook_noop key str mac db i w j t body sig :
  Wallet_findOne_reference db (cd_reference (data body)) = Some (i, w) →
  findTransaction w (cd_reference (data body)) = Some (j, t) →
  status t ≠ pending →
  (paystackWebhook key str mac db body sig).1 = db.
Proof.
  intros Hw Ht Hs.
  destruct (paystackWebhook_cases key str mac db body sig)
    as [->|(i' & w' & j' & t' & _ & _ & Hw' & Ht' & Hs' & _)]; [done|].
  simplify_eq.
Qed.

(** The first settlement of a pending transaction. *)
Lemma verifyWalletPayment_settles db r i w j t p :
  r ≠ "" → vd_status p = "success" →
  Wallet_findOne_reference db r = Some (i, w) →
  findTransaction w r = Some (j, t) →
  status t = pending →
  nonneg (balance w + amount t) →
  verifyWalletPayment db (Some r) (Some p)
  = (setWallet db (<[i:=settle w j t (amount t)]> (Wallet db)),
     Json (mkVerifiedData (balance w + amount t) (vd_amount p / 100))).
Proof.
  intros Hr Hp Hw Ht Hs Hb. unfold verifyWalletPayment.
  apply String.eqb_neq in Hr. rewrite Hr, Hp. simpl.
  rewrite Hw, Ht, Hs. unfold Wallet_save, Wallet_validate. simpl.
  unfold nonneg in Hb. by rewrite Hb.
Qed.

Lemma paystackWebhook_settles key str mac db i w j t body :
  event body = "charge.success" →
  Wallet_findOne_reference db (cd_reference (data body)) = Some (i, w) →
  findTransaction w (cd_reference (data body)) = Some (j, t) →
  status t = pending →
  nonneg (balance w + cd_amount (data body) / 100) →
  paystackWebhook key str mac db body (Some (mac key (str body)))
  = (setWallet db
       (<[i:=settle w j t (cd_amount (data body) / 100)]> (Wallet db)),
     Json ()).
Proof.
  intros He Hw Ht Hs Hb. unfold paystackWebhook, verifyWebhookSignature.
  rewrite bool_decide_true by done. rewrite He. simpl.
  rewrite Hw, Ht, Hs. unfold Wallet_save, Wallet_validate. simpl.
  unfold nonneg in Hb. by rewrite Hb.
Qed.

(** C9: a transaction's status changes only from pending, and once.
    Whatever requests are served, a transaction that is completed or failed
    stays in its wallet at its position exactly as it is.  For the
    transaction that a reference locates (the first transaction with the
    reference in the first wallet that has one): when it is not pending,
    every verifyWalletPayment and paystackWebhook call for the reference
    leaves the store as it is; when it is pending, the first successful
    settlement, by either handler, completes it and credits the balance
    once, and every later verify call or webhook for the reference leaves
    the store as it is. *)
Theorem settlement_happens_once
    (secretKey : string) (JSON_stringify : WebhookBody → string)
    (hmac_sha512 : string → string → string)
    (Number_toString : float → string) (String_toNumber : string → float)
    (db : Db) (r : string) (i : nat) (w : IWallet) (j : nat) (t : ITransaction) :
  Wallet_findOne_reference db r = Some (i, w) →
  findTransaction w r = Some (j, t) →
  let webhook := paystackWebhook secretKey JSON_stringify hmac_sha512 in
  let laterCallsAreNoOps (db1 : Db) :=
    (∀ p, (verifyWalletPayment db1 (Some r) p).1 = db1)
    ∧ (∀ body sig, cd_reference (data body) = r → (webhook db1 body sig).1 = db1) in
  (∀ reqs, settledUnchanged db
             (serve secretKey JSON_stringify hmac_sha512 Number_toString String_toNumber
                db reqs))
  ∧ (status t ≠ pending → laterCallsAreNoOps db)
  ∧ (status t = pending → r ≠ "" → nonneg (balance w) →
     (∀ p, vd_status p = "success" → nonneg (amount t) →
        let db1 := (verifyWalletPayment db (Some r) (Some p)).1 in
        Wallet db1 = <[i:=settle w j t (amount t)]> (Wallet db)
        ∧ laterCallsAreNoOps db1)
     ∧ (∀ body, event body = "charge.success" → cd_reference (data body) = r →
        nonneg (cd_amount (data body)) →
        let db1 :=
          (webhook db body (Some (hmac_sha512 secretKey (JSON_stringify body)))).1 in
        Wallet db1 = <[i:=settle w j t (cd_amount (data body) / 100)]> (Wallet db)
        ∧ laterCallsAreNoOps db1)).
Proof.
  intros Hw Ht webhook laterCallsAreNoOps.
  assert (∀ amt, laterCallsAreNoOps
                   (setWallet db (<[i:=settle w j t amt]> (Wallet db)))) as Hlater.
  { intros amt.
    destruct (located_after_settle db r i w j t amt Hw Ht) as [Hw1 Ht1].
    split.
    - intros p. by eapply verifyWalletPayment_noop.
    - intros body sig <-. by eapply paystackWebhook_noop. }
  split_and!.
  - intros reqs. apply serve_settled.
  - intros Hs. split.
    + intros p. by eapply verifyWalletPayment_noop.
    + intros body sig <-. by eapply paystackWebhook_noop.
  - intros Hs Hr Hb. split.
    + intros p Hp Ha db1. subst db1.
      rewrite (verifyWalletPayment_settles db r i w j t p)
        by (try done; by apply add_nonneg).
      simpl. split; [done|apply Hlater].
    + intros body He <- Ha db1. subst db1 webhook.
      rewrite (paystackWebhook_settles _ _ _ db i w j t body); try done.
      * simpl. split; [done|apply Hlater].
      * apply add_nonneg; [done|]. by apply div_nonneg.
Qed.

Lemma settlement_happens_once_witness :
  Wallet_findOne_reference Sample.funded Sample.fundedRef = Some (0%nat, Sample.fundedWallet)
  ∧ findTransaction Sample.fundedWallet Sample.fundedRef = Some (0%nat, Sample.pendingTx)
  ∧ balance <$> Wallet Sample.verified !! 0%nat = Some 500%float
  ∧ (paystackWebhook Sample.secret Sample.stringify Sample.mac Sample.verified
       (Sample.charge 50000)
       (Some (Sample.mac Sample.secret (Sample.stringify (Sample.charge 50000))))).1
    = Sample.verified.
Proof.
  assert (Wallet_findOne_reference Sample.funded Sample.fundedRef
          = Some (0%nat, Sample.fundedWallet)) as Hw by (vm_compute; reflexivity).
  assert (findTransaction Sample.fundedWallet Sample.fundedRef
          = Some (0%nat, Sample.pendingTx)) as Ht by (vm_compute; reflexivity).
  split; [exact Hw|]. split; [exact Ht|].
  destruct (settlement_happens_once Sample.secret Sample.stringify Sample.mac
              Sample.numberToString Sample.stringToNumber Sample.funded Sample.fundedRef 0 Sample.fundedWallet 0 Sample.pendingTx
              Hw Ht) as (_ & _ & Hpending).
  destruct Hpending as [Hverify _]; [reflexivity|discriminate|reflexivity|].
  destruct (Hverify Sample.paid) as [Hbal [_ Hhook]];
    [reflexivity|reflexivity|].
  split.
  - unfold Sample.verified. rewrite Hbal. reflexivity.
  - apply Hhook. reflexivity.
Defined.


(** ** The ledger invariant *)

(** C1, at the input where the code departs from it: Alice funds her
    wallet with 500 and the gateway's signed [charge.success] webhook for
    the reference reports 30000 minor units.  The webhook completes the
    transaction of 500 and credits the payload's 30000 / 100 = 300, so the
    balance is 300 while the completed credits sum to 500: the ledger
    invariant, which holds before the webhook, does not hold after it.
    This is so for every secret, serialisation and digest function (and
    for every conversion between numbers and strings); the numbers of the
    input are integers, on which the arithmetic of doubles is exact. *)
Theorem webhook_breaks_ledger_invariant
    (secretKey : string) (JSON_stringify : WebhookBody → string)
    (hmac_sha512 : string → string → string)
    (Number_toString : float → string) (String_toNumber : string → float) :
  let fund :=
    FundWallet Sample.alice 500 1700 Sample.zeros
      (Some (mkInitData "https://pay" "ac" Sample.fundedRef)) in
  let body := Sample.charge 30000 in
  let hook := PaystackWebhook body (Some (hmac_sha512 secretKey (JSON_stringify body))) in
  let run :=
    serve secretKey JSON_stringify hmac_sha512 Number_toString String_toNumber in
  let db1 := run Sample.db0 [fund] in
  let db2 := run Sample.db0 [fund; hook] in
  ledger_invariant db1
  ∧ (∃ w, Wallet db2 = [w]
          ∧ balance w = 300%float
          ∧ (exactValue (balance w) == 300)%Q
          ∧ (ledgerBalance w == 500)%Q
          ∧ status <$> transactions w = [completed])
  ∧ ¬ ledger_invariant db2.
Proof.
  intros fund body hook run db1 db2.
  assert (db1 = Sample.funded) as Hdb1 by reflexivity.
  assert (db2 = setWallet Sample.funded
                  [settle Sample.fundedWallet 0 Sample.pendingTx (30000 / 100)]) as Hdb2.
  { unfold db2, run, serve. simpl.
    change (fundWallet _ _ _ _ _ _).1 with Sample.funded.
    rewrite (paystackWebhook_settles _ _ _ Sample.funded 0 Sample.fundedWallet 0
               Sample.pendingTx body); try (vm_compute; reflexivity); reflexivity. }
  split_and!.
  - rewrite Hdb1. constructor; [|constructor]. vm_compute. reflexivity.
  - rewrite Hdb2. eexists. split; [reflexivity|].
    split_and!; vm_compute; reflexivity.
  - rewrite Hdb2. intros Hinv. apply Forall_inv in Hinv. vm_compute in Hinv. discriminate.
Qed.

(** ** Purchases *)

Lemma purchaseGiftValidator_quantity body :
  purchaseGiftValidator body = [] → (1 ≤ default 1 (pb_quantity body))%Z.
Proof.
  unfold purchaseGiftValidator. intros [_ Hq]%app_eq_nil.
  destruct (pb_quantity body) as [q|]; simpl; [|lia].
  destruct (1 <=? q)%Z eqn:Hle; [lia|done].
Qed.




(** ** Stock *)









(** ** A user without a wallet *)

Lemma insert_at_end {A} (l : list A) (x y : A) : <[length l:=x]> (l ++ [y]) = l ++ [x].
Proof. rewrite insert_app_r_alt by done. by rewrite Nat.sub_diag. Qed.




(** ** Gift boxes *)

Lemma generateRedemptionCode_length src :
  String.length (generateRedemptionCode src).1 = 12%nat.
Proof. reflexivity. Qed.

Lemma generateRedemptionCode_truthy src :
  truthy (Some (generateRedemptionCode src).1) = true.
Proof. reflexivity. Qed.

Lemma preSave_truthy b src : truthy (redemptionCode b) = true → preSave b src = (b, src).
Proof. unfold preSave. by intros ->. Qed.

Lemma preSave_code b src b' src' :
  preSave b src = (b', src') →
  truthy (redemptionCode b') = true
  ∧ (truthy (redemptionCode b) = false →
     redemptionCode b' = Some (generateRedemptionCode src).1)
  ∧ gifts b' = gifts b ∧ senderId b' = senderId b ∧ cardId b' = cardId b
  ∧ websiteId b' = websiteId b ∧ isRedeemed b' = isRedeemed b
  ∧ redeemedAt b' = redeemedAt b ∧ recipientEmail b' = recipientEmail b.
Proof.
  unfold preSave. destruct (truthy (redemptionCode b)) eqn:Ht; simpl.
  - intros [= <- <-]. by split_and!.
  - intros [= <- <-]. by split_and!.
Qed.

Lemma lookup_delete_other {A} (l : list A) i k x :
  delete i l !! k = Some x → ∃ j, j ≠ i ∧ l !! j = Some x.
Proof.
  intros Hk. destruct (decide (k < i)) as [Hlt|Hge].
  - rewrite list_lookup_delete_lt in Hk by done. exists k. split; [lia|done].
  - rewrite list_lookup_delete_ge in Hk by lia. exists (S k). split; [lia|done].
Qed.

(** Under the unique index the only box with the code of a box is itself. *)
Lemma no_clash_at db i b b' :
  boxesOk db → GiftBox db !! i = Some b → redemptionCode b' = redemptionCode b →
  ¬ Exists (λ x, redemptionCode x = redemptionCode b') (delete i (GiftBox db)).
Proof.
  intros (_ & Hnd & _) Hi Hc (x & Hx & Hcx)%Exists_exists.
  apply list_elem_of_lookup in Hx as [k Hk].
  apply lookup_delete_other in Hk as (j & Hne & Hj).
  apply Hne. eapply NoDup_lookup; [exact Hnd| |].
  - rewrite list_lookup_fmap, Hj. simpl. reflexivity.
  - rewrite list_lookup_fmap, Hi. simpl. congruence.
Qed.

Lemma boxesOk_same_boxes db db' : GiftBox db' = GiftBox db → boxesOk db → boxesOk db'.
Proof. unfold boxesOk. by intros ->. Qed.

Lemma boxesOk_lookup db i b :
  boxesOk db → GiftBox db !! i = Some b →
  truthy (redemptionCode b) = true ∧ GiftBox_validate b = true.
Proof.
  intros (Ht & _ & Hv) Hi. split.
  - by eapply Forall_lookup_1 in Ht.
  - by eapply Forall_lookup_1 in Hv.
Qed.

Lemma boxesOk_insert db i b b' :
  boxesOk db → GiftBox db !! i = Some b →
  redemptionCode b' = redemptionCode b → GiftBox_validate b' = true →
  boxesOk (setGiftBox db (<[i:=b']> (GiftBox db))).
Proof.
  intros Hok Hi Hc Hv.
  destruct (boxesOk_lookup _ _ _ Hok Hi) as [Ht _].
  destruct Hok as (Hts & Hnd & Hvs). split_and!; simpl.
  - apply Forall_insert; [done|congruence].
  - rewrite list_fmap_insert, Hc, list_insert_id; [done|].
    by rewrite list_lookup_fmap, Hi.
  - by apply Forall_insert.
Qed.

Lemma boxesOk_create db b :
  boxesOk db → truthy (redemptionCode b) = true → GiftBox_validate b = true →
  ¬ Exists (λ x, redemptionCode x = redemptionCode b) (GiftBox db) →
  boxesOk (setGiftBox db (GiftBox db ++ [b])).
Proof.
  intros (Hts & Hnd & Hvs) Ht Hv Hfresh. split_and!; simpl.
  - apply Forall_app. split; [done|by constructor].
  - rewrite fmap_app. apply NoDup_app. split_and!; [done| |apply NoDup_singleton].
    intros c Hc ->%list_elem_of_singleton. apply Hfresh.
    apply list_elem_of_fmap in Hc as (x & Hx & Hin).
    apply Exists_exists. by exists x.
  - apply Forall_app. split; [done|by constructor].
Qed.

Lemma boxKept_refl b : boxKept b b.
Proof. by split_and!. Qed.

Lemma boxKept_trans b1 b2 b3 : boxKept b1 b2 → boxKept b2 b3 → boxKept b1 b3.
Proof.
  intros (? & ? & ? & ? & H12) (? & ? & ? & ? & H23). split_and!; try congruence.
  intros Hr. rewrite <- (H12 Hr). apply H23. by rewrite (H12 Hr).
Qed.

Lemma boxesKept_refl db : boxesKept db db.
Proof. intros k b Hk. eauto using boxKept_refl. Qed.

Lemma boxesKept_trans db1 db2 db3 :
  boxesKept db1 db2 → boxesKept db2 db3 → boxesKept db1 db3.
Proof.
  intros H12 H23 k b Hk.
  destruct (H12 k b Hk) as (b2 & Hk2 & Hb2).
  destruct (H23 k b2 Hk2) as (b3 & Hk3 & Hb3).
  eauto using boxKept_trans.
Qed.

Lemma boxesKept_same_boxes db db' : GiftBox db' = GiftBox db → boxesKept db db'.
Proof. intros Hb k b Hk. rewrite Hb. eauto using boxKept_refl. Qed.

Lemma boxesKept_insert db i b b' :
  GiftBox db !! i = Some b → boxKept b b' →
  boxesKept db (setGiftBox db (<[i:=b']> (GiftBox db))).
Proof.
  intros Hi Hb k bk Hk. simpl. destruct (decide (k = i)) as [->|Hne].
  - exists b'. rewrite list_lookup_insert_eq by (by eapply lookup_lt_Some).
    by simplify_eq.
  - exists bk. rewrite list_lookup_insert_ne by done. eauto using boxKept_refl.
Qed.

Lemma boxesKept_create db b : boxesKept db (setGiftBox db (GiftBox db ++ [b])).
Proof.
  intros k bk Hk. exists bk. simpl.
  split; [by apply lookup_app_l_Some|apply boxKept_refl].
Qed.

Lemma GiftBox_save_existing db i b0 b src :
  boxesOk db → GiftBox db !! i = Some b0 → redemptionCode b = redemptionCode b0 →
  GiftBox_save db i b src = Some (setGiftBox db (<[i:=b]> (GiftBox db)), b, src).
Proof.
  intros Hok Hi Hc. unfold GiftBox_save.
  destruct (boxesOk_lookup _ _ _ Hok Hi) as [Ht _].
  rewrite preSave_truthy by congruence.
  rewrite bool_decide_false by (by eapply no_clash_at).
  rewrite bool_decide_true by (by eapply lookup_lt_Some). done.
Qed.

Lemma delete_past_end {A} (l : list A) (i : nat) :
  (length l ≤ i)%nat → delete i l = l.
Proof.
  intros Hi. rewrite delete_take_drop, take_ge, drop_ge by lia. apply app_nil_r.
Qed.

Lemma GiftBox_save_new db b src db1 b1 src1 :
  GiftBox_save db (length (GiftBox db)) b src = Some (db1, b1, src1) →
  boxesOk db → GiftBox_validate b = true →
  (b1, src1) = preSave b src
  ∧ db1 = setGiftBox db (GiftBox db ++ [b1])
  ∧ boxesOk db1.
Proof.
  intros (Hpre & Hfresh & ->)%GiftBox_save_Some Hok Hv.
  rewrite bool_decide_false by lia.
  rewrite delete_past_end in Hfresh by done.
  split_and!; [done..|].
  symmetry in Hpre. apply preSave_code in Hpre as (Ht & _ & Hg & _).
  apply boxesOk_create; try done.
  unfold GiftBox_validate in *. by rewrite Hg.
Qed.

(** The merge of line items. *)
Lemma addGift_fresh ts tn items text gid q now :
  list_find (λ g, giftId g = text) items = None →
  addGift ts tn items text gid q now
  = (λ q', items ++ [mkItem gid q' now]) <$> castNumber tn q.
Proof. unfold addGift. intros ->. by destruct (castNumber tn q). Qed.

Lemma addGift_found ts tn items text gid q now k e :
  list_find (λ g, giftId g = text) items = Some (k, e) →
  addGift ts tn items text gid q now
  = (λ q', <[k:=setQuantity e q']> items) <$> castNumber tn (jsAdd ts (quantity e) q).
Proof. unfold addGift. intros ->. by destruct (castNumber tn _). Qed.

Lemma itemsOf_fresh items gid :
  list_find (λ g, giftId g = gid) items = None → itemsOf gid items = [].
Proof.
  intros Hf%list_find_None. unfold itemsOf.
  induction Hf as [|it items Hit _ IH]; [done|].
  rewrite filter_cons_False by done. done.
Qed.

Lemma itemsOf_app gid l1 l2 : itemsOf gid (l1 ++ l2) = itemsOf gid l1 ++ itemsOf gid l2.
Proof. apply filter_app. Qed.

Lemma GiftBox_findOpen_Some db uid c w i b :
  GiftBox_findOpen db uid c w = Some (i, b) →
  GiftBox db !! i = Some b ∧ senderId b = uid ∧ isRedeemed b = false
  ∧ (if truthy c then cardId b = castId c else websiteId b = castId w).
Proof.
  unfold GiftBox_findOpen. destruct (truthy c); intros Hf;
    (split; [by eapply list_find_lookup|]);
    apply list_find_holds in Hf; by destruct Hf as (? & ? & ?).
Qed.

(** Writing an open box back with its sender and references lets the same
    query find it again. *)
Lemma GiftBox_findOpen_insert db uid c w i b b' :
  GiftBox_findOpen db uid c w = Some (i, b) →
  senderId b' = senderId b → cardId b' = cardId b → websiteId b' = websiteId b →
  isRedeemed b' = false →
  GiftBox_findOpen (setGiftBox db (<[i:=b']> (GiftBox db))) uid c w = Some (i, b').
Proof.
  intros Hf Hs Hc Hw Hr.
  destruct (GiftBox_findOpen_Some _ _ _ _ _ _ Hf) as (_ & Hs0 & _ & Ht).
  unfold GiftBox_findOpen in *. simpl.
  destruct (truthy c); (eapply list_find_insert_same; [done|]);
    split_and!; congruence.
Qed.

Lemma findOrCreateGiftBox_spec db user body src db1 i b src1 :
  boxesOk db →
  findOrCreateGiftBox db user body src = Some (db1, i, b, src1) →
  boxesOk db1 ∧ GiftBox db1 !! i = Some b ∧ isRedeemed b = false
  ∧ boxesKept db db1 ∧ Gift db1 = Gift db
  ∧ ((GiftBox_findOpen db (_id user) (bb_cardId body) (bb_websiteId body) = Some (i, b)
      ∧ db1 = db ∧ src1 = src)
     ∨ (GiftBox_findOpen db (_id user) (bb_cardId body) (bb_websiteId body) = None
        ∧ i = length (GiftBox db)
        ∧ GiftBox db1 = GiftBox db ++ [b]
        ∧ b = mkGiftBox (castId (bb_cardId body)) (castId (bb_websiteId body))
                (_id user) (bb_recipientEmail body) [] false None
                (Some (generateRedemptionCode src).1))).
Proof.
  intros Hok Hfc. pose proof Hfc as HG. apply findOrCreateGiftBox_Gift in HG.
  unfold findOrCreateGiftBox in Hfc.
  destruct (GiftBox_findOpen db _ _ _) as [[i0 b0]|] eqn:Hf.
  - injection Hfc as <- <- <- <-.
    destruct (GiftBox_findOpen_Some _ _ _ _ _ _ Hf) as (Hi & _ & Hr & _).
    split_and!; [done..|apply boxesKept_refl|done|by left].
  - destruct (GiftBox_save _ _ _ _) as [[[db0 b0] src0]|] eqn:Hsave; [|done].
    apply GiftBox_save_new in Hsave as (Hpre & Hdb0 & Hok0); [|done..].
    assert (b0 = mkGiftBox (castId (bb_cardId body)) (castId (bb_websiteId body))
                   (_id user) (bb_recipientEmail body) [] false None
                   (Some (generateRedemptionCode src).1)) as Hb0.
    { unfold preSave in Hpre. simpl in Hpre. by injection Hpre as -> _. }
    assert (GiftBox db1 = GiftBox db ++ [b0] ∧ i = length (GiftBox db) ∧ b = b0)
      as (Hboxes & -> & ->).
    { repeat case_match; simplify_eq; done. }
    split_and!.
    + eapply boxesOk_same_boxes; [|exact Hok0]. by rewrite Hboxes, Hdb0.
    + rewrite Hboxes. by apply list_lookup_middle.
    + by rewrite Hb0.
    + intros k bk Hk. exists bk. rewrite Hboxes.
      split; [by apply lookup_app_l_Some|apply boxKept_refl].
    + done.
    + right. by split_and!.
Qed.

(** The outcomes of addToGiftBox on the boxes: nothing changed, or the box
    that was found or created has the merged line items. *)
Lemma addToGiftBox_cases ts tn db user body now src :
  boxesOk db →
  let quantity := default (JNumber 1) (bb_quantity body) in
  let result := addToGiftBox ts tn db user body now src in
  (GiftBox result.1 = GiftBox db ∧ ∀ view, result.2 ≠ Json view)
  ∨ ∃ giftId db1 i b src1,
      castObjectId (bb_giftId body) = Some giftId
      ∧ findOrCreateGiftBox db user body src = Some (db1, i, b, src1)
      ∧ let merged := addGift ts tn (gifts b) (bb_giftId body) giftId quantity now in
        (result = (db1, Fail 500 "Failed to add gift to box.")
         ∧ ∀ items, merged = Some items → GiftBox_validate (setGifts b items) = false)
        ∨ ∃ items,
            merged = Some items
            ∧ GiftBox_validate (setGifts b items) = true
            ∧ result = (setGiftBox db1 (<[i:=setGifts b items]> (GiftBox db1)),
                        Json (mkBoxView i (setGifts b items)
                                (populate db1 (setGifts b items)))).
Proof.
  intros Hok quantity result. subst result. unfold addToGiftBox. fold quantity.
  destruct (addToGiftBoxValidator body); [|by left].
  destruct (negb (truthy (bb_cardId body)) && negb (truthy (bb_websiteId body)));
    [by left|].
  destruct (castObjectId (bb_giftId body)) as [giftId|]; [|by left].
  destruct (Gift db !! giftId) as [gift|]; [|by left].
  destruct (negb (isActive gift)); [by left|].
  destruct (truthy (bb_cardId body) && castFails _); [by left|].
  destruct (truthy (bb_cardId body) && negb _); [by left|].
  destruct (truthy (bb_websiteId body) && castFails _); [by left|].
  destruct (truthy (bb_websiteId body) && negb _); [by left|].
  destruct (findOrCreateGiftBox db user body src) as [[[[db1 i] b] src1]|] eqn:Hfc;
    [|by left].
  right. exists giftId, db1, i, b, src1. split; [done|]. split; [done|].
  destruct (findOrCreateGiftBox_spec _ _ _ _ _ _ _ _ Hok Hfc)
    as (Hok1 & Hi & _ & _ & HG & _).
  destruct (addGift ts tn (gifts b) (bb_giftId body) giftId quantity now)
    as [items|] eqn:Hmerged; simpl; [|by left].
  destruct (GiftBox_validate (setGifts b items)) eqn:Hv; simpl.
  - right. exists items. split; [done|]. split; [done|].
    rewrite (GiftBox_save_existing db1 i b) by done. done.
  - left. split; [done|]. by intros ? [= <-].
Qed.

Lemma addToGiftBox_boxes ts tn db user body now src :
  boxesOk db →
  boxesOk (addToGiftBox ts tn db user body now src).1
  ∧ boxesKept db (addToGiftBox ts tn db user body now src).1.
Proof.
  intros Hok.
  destruct (addToGiftBox_cases ts tn db user body now src Hok)
    as [[Hsame _]|(giftId & db1 & i & b & src1 & _ & Hfc & Hres)].
  - split; [by eapply boxesOk_same_boxes|by apply boxesKept_same_boxes].
  - destruct (findOrCreateGiftBox_spec _ _ _ _ _ _ _ _ Hok Hfc)
      as (Hok1 & Hi & Hopen & Hkept & _).
    destruct Hres as [[-> _]|(items & _ & Hv & ->)]; simpl; [done|]. split.
    + by eapply boxesOk_insert.
    + eapply boxesKept_trans; [done|].
      eapply boxesKept_insert; [done|]. split_and!; try done.
      intros Hr. congruence.
Qed.

(** The outcomes of redeemGiftBox on the boxes. *)
Lemma redeemGiftBox_cases db user code now src :
  boxesOk db →
  let result := redeemGiftBox db user code now src in
  (GiftBox result.1 = GiftBox db ∧ ∀ d, result.2 ≠ Json d)
  ∨ ∃ i b,
      GiftBox_findOne_code db code = Some (i, b) ∧ isRedeemed b = false
      ∧ GiftBox result.1 = <[i:=setRedeemed b now]> (GiftBox db).
Proof.
  intros Hok result. subst result. unfold redeemGiftBox.
  destruct (GiftBox_findOne_code db code) as [[i b]|] eqn:Hf; [|by left].
  destruct (isRedeemed b) eqn:Hr; [by left|].
  pose proof (list_find_lookup _ _ _ _ Hf) as Hi.
  rewrite (GiftBox_save_existing db i b) by done.
  right. exists i, b. split_and!; [done..|].
  repeat case_match; simplify_eq; simpl; try done;
    repeat match goal with
    | H : Wallet_save _ _ _ = Some _ |- _ => apply Wallet_save_Some in H as [_ ->]
    end; done.
Qed.

Lemma redeemGiftBox_boxes db user code now src :
  boxesOk db →
  boxesOk (redeemGiftBox db user code now src).1
  ∧ boxesKept db (redeemGiftBox db user code now src).1.
Proof.
  intros Hok.
  destruct (redeemGiftBox_cases db user code now src Hok)
    as [[Hsame _]|(i & b & Hf & Hr & Hboxes)].
  - split; [by eapply boxesOk_same_boxes|by apply boxesKept_same_boxes].
  - pose proof (list_find_lookup _ _ _ _ Hf) as Hi.
    destruct (boxesOk_lookup _ _ _ Hok Hi) as [_ Hv].
    split.
    + eapply (boxesOk_same_boxes
                (setGiftBox db (<[i:=setRedeemed b now]> (GiftBox db))));
        [exact Hboxes|by eapply boxesOk_insert].
    + intros k bk Hk. rewrite Hboxes.
      destruct (boxesKept_insert db i b (setRedeemed b now) Hi) with (k := k) (b := bk)
        as (b' & Hb' & Hkept); [|done|by exists b'].
      split_and!; try done. intros; congruence.
Qed.

Lemma getOrCreateWallet_GiftBox db uid db1 i w :
  getOrCreateWallet db uid = (db1, i, w) → GiftBox db1 = GiftBox db.
Proof. by intros (_ & _ & _ & [->|(_ & _ & _ & ->)])%getOrCreateWallet_spec. Qed.

Lemma purchaseGift_GiftBox db user body now :
  GiftBox (purchaseGift db user body now).1 = GiftBox db.
Proof.
  unfold purchaseGift.
  repeat case_match; simplify_eq; simpl; try done;
    repeat match goal with
    | H : Wallet_save _ _ _ = Some _ |- _ => apply Wallet_save_Some in H as [_ ->]
    | H : Gift_save _ _ _ = Some _ |- _ => apply Gift_save_GiftBox in H
    end; done.
Qed.

(** Every handler keeps the boxes well formed and keeps every box. *)
Lemma handle_boxes key str mac ts tn db req :
  boxesOk db →
  boxesOk (handle key str mac ts tn db req) ∧ boxesKept db (handle key str mac ts tn db req).
Proof.
  intros Hok.
  assert (∀ db', GiftBox db' = GiftBox db → boxesOk db' ∧ boxesKept db db') as Hsame.
  { intros db' Hb. split; [by eapply boxesOk_same_boxes|by apply boxesKept_same_boxes]. }
  destruct req as [user|user amount now src p|r p|body sig|user body now
                  |user body now src|user code now src]; simpl.
  - unfold getBalance.
    destruct (getOrCreateWallet db (_id user)) as [[db1 i] w] eqn:Hg.
    apply Hsame. simpl. by eapply getOrCreateWallet_GiftBox.
  - apply Hsame. unfold fundWallet. destruct (fundWalletValidator amount); [|done].
    destruct (getOrCreateWallet db (_id user)) as [[db1 i] w] eqn:Hg.
    apply getOrCreateWallet_GiftBox in Hg. by destruct p.
  - apply Hsame.
    by destruct (verifyWalletPayment_cases db r p)
      as [->|(? & ? & ? & ? & ? & _ & _ & _ & _ & _ & ->)].
  - apply Hsame.
    by destruct (paystackWebhook_cases key str mac db body sig)
      as [->|(? & ? & ? & ? & _ & _ & _ & _ & _ & _ & ->)].
  - apply Hsame, purchaseGift_GiftBox.
  - by apply addToGiftBox_boxes.
  - by apply redeemGiftBox_boxes.
Qed.

Lemma serve_boxes key str mac ts tn reqs db :
  boxesOk db →
  boxesOk (serve key str mac ts tn db reqs) ∧ boxesKept db (serve key str mac ts tn db reqs).
Proof.
  revert db. induction reqs as [|req reqs IH]; intros db Hok; simpl.
  - split; [done|apply boxesKept_refl].
  - destruct (handle_boxes key str mac ts tn db req Hok) as [Hok1 Hk1].
    destruct (IH _ Hok1) as [Hok2 Hk2].
    split; [done|by eapply boxesKept_trans].
Qed.

Lemma boxesOk_initial gs cs ws : boxesOk (initialDb gs cs ws).
Proof. split_and!; simpl; constructor. Qed.

(** X24: the boxes are well formed in every store that the handlers
    reach: every box has a redemption code that is not empty, no two boxes
    share a code, and every line item has a quantity that the schema's
    validator passes, which is [null] or a number that is at least one. *)
Theorem serve_boxesOk key str mac ts tn gs cs ws reqs :
  boxesOk (serve key str mac ts tn (initialDb gs cs ws) reqs).
Proof. apply serve_boxes, boxesOk_initial. Qed.

(** A target that belongs to the caller has an id that casts. *)
Lemma findOwned_casts docs id uid : is_Some (findOwned docs id uid) → castFails id = false.
Proof.
  unfold findOwned, castFails, castId. destruct id as [s|]; [|done]. simpl.
  destruct (castObjectId s); [|by intros [? ?]].
  intros _. by rewrite bool_decide_true by eauto.
Qed.

(** addToGiftBox after its checks have passed. *)
Lemma addToGiftBox_checked ts tn db user body now src giftId gift :
  addToGiftBoxValidator body = [] →
  truthy (bb_cardId body) || truthy (bb_websiteId body) = true →
  castObjectId (bb_giftId body) = Some giftId →
  Gift db !! giftId = Some gift → isActive gift = true →
  targetOwned db user body →
  addToGiftBox ts tn db user body now src
  = match findOrCreateGiftBox db user body src with
    | None => (db, Fail 500 "Failed to add gift to box.")
    | Some (db1, i, giftBox, src1) =>
        match addGift ts tn (gifts giftBox) (bb_giftId body) giftId
                (default (JNumber 1) (bb_quantity body)) now with
        | None => (db1, Fail 500 "Failed to add gift to box.")
        | Some items =>
            if negb (GiftBox_validate (setGifts giftBox items))
            then (db1, Fail 500 "Failed to add gift to box.")
            else
              match GiftBox_save db1 i (setGifts giftBox items) src1 with
              | None => (db1, Fail 500 "Failed to add gift to box.")
              | Some (db2, giftBox2, _) =>
                  (db2, Json (mkBoxView i giftBox2 (populate db2 giftBox2)))
              end
        end
    end.
Proof.
  intros Hvalid Htarget Hcast Hgift Hactive [Hcard Hsite].
  unfold addToGiftBox. rewrite Hvalid, Hcast, Hgift, Hactive.
  assert (negb (truthy (bb_cardId body)) && negb (truthy (bb_websiteId body)) = false)
    as -> by (destruct (truthy (bb_cardId body)), (truthy (bb_websiteId body)); done).
  assert (truthy (bb_cardId body) && castFails (bb_cardId body) = false) as ->.
  { destruct (truthy (bb_cardId body)); [|done]. simpl.
    eapply findOwned_casts; auto. }
  assert (truthy (bb_cardId body)
          && negb (bool_decide (is_Some (findOwned (Card db) (bb_cardId body) (_id user))))
          = false) as ->.
  { destruct (truthy (bb_cardId body)); [|done]. simpl.
    by rewrite bool_decide_true by auto. }
  assert (truthy (bb_websiteId body) && castFails (bb_websiteId body) = false) as ->.
  { destruct (truthy (bb_websiteId body)); [|done]. simpl.
    eapply findOwned_casts; auto. }
  assert (truthy (bb_websiteId body)
          && negb (bool_decide
                     (is_Some (findOwned (Website db) (bb_websiteId body) (_id user))))
          = false) as ->.
  { destruct (truthy (bb_websiteId body)); [|done]. simpl.
    by rewrite bool_decide_true by auto. }
  done.
Qed.

(** addToGiftBox on a pair whose query finds an open box. *)
Lemma addToGiftBox_open ts tn db user body now src i b giftId gift items :
  boxesOk db →
  addToGiftBoxValidator body = [] →
  truthy (bb_cardId body) || truthy (bb_websiteId body) = true →
  castObjectId (bb_giftId body) = Some giftId →
  Gift db !! giftId = Some gift → isActive gift = true →
  targetOwned db user body →
  GiftBox_findOpen db (_id user) (bb_cardId body) (bb_websiteId body) = Some (i, b) →
  addGift ts tn (gifts b) (bb_giftId body) giftId
    (default (JNumber 1) (bb_quantity body)) now = Some items →
  GiftBox_validate (setGifts b items) = true →
  let b1 := setGifts b items in
  addToGiftBox ts tn db user body now src
  = (setGiftBox db (<[i:=b1]> (GiftBox db)), Json (mkBoxView i b1 (populate db b1))).
Proof.
  intros Hok Hvalid Htarget Hcast Hgift Hactive Howned Hf Hitems Hv b1.
  destruct (GiftBox_findOpen_Some _ _ _ _ _ _ Hf) as (Hi & _).
  rewrite (addToGiftBox_checked ts tn db user body now src giftId gift) by done.
  subst b1. unfold findOrCreateGiftBox. rewrite Hf, Hitems, Hv.
  simpl negb. cbv iota.
  rewrite (GiftBox_save_existing db i b) by done. done.
Qed.

Lemma is_nan_false_of_leb a x : (a <=? x)%float = true → is_nan x = false.
Proof.
  intros Hle. unfold is_nan. rewrite FloatAxioms.eqb_spec.
  rewrite FloatAxioms.leb_spec in Hle.
  destruct (Prim2SF x) as [s| | |s m e] eqn:Hx.
  - done.
  - by destruct s.
  - by destruct (Prim2SF a) as [?|[]| |].
  - unfold SFeqb. by rewrite SFcompare_refl.
Qed.

(** The quantity that a line item gets from a number that is at least
    one. *)
Lemma castNumber_number tn q :
  (1 <=? q)%float = true → castNumber tn (JNumber q) = Some (Some q).
Proof. intros Hq. simpl. by rewrite (is_nan_false_of_leb _ _ Hq). Qed.

Lemma GiftBox_validate_push b it :
  GiftBox_validate b = true → quantityValid (quantity it) = true →
  GiftBox_validate (setGifts b (gifts b ++ [it])) = true.
Proof.
  unfold GiftBox_validate. simpl. intros Hv Hq.
  rewrite forallb_app, Hv. simpl. by rewrite Hq.
Qed.

Lemma forallb_insert {A} (f : A → bool) (l : list A) k x :
  forallb f l = true → f x = true → forallb f (<[k:=x]> l) = true.
Proof.
  revert k. induction l as [|y l IH]; intros k Hl Hx; [done|].
  simpl in Hl. apply andb_prop in Hl as [Hy Hl].
  destruct k; simpl; [by rewrite Hx, Hl|]. by rewrite Hy, IH.
Qed.

Lemma GiftBox_validate_merge b k e q :
  GiftBox_validate b = true → quantityValid q = true →
  GiftBox_validate (setGifts b (<[k:=setQuantity e q]> (gifts b))) = true.
Proof.
  unfold GiftBox_validate. simpl. intros Hv Hq. by apply forallb_insert.
Qed.

(** C7, at the input where the code departs from it: Alice adds a
    coffee voucher for her website, which opens the gift box of the pair
    (Alice, website); then she adds one more in a request that names her
    card and the same website.  The query of addToGiftBox looks for the
    open box of the card alone, finds none and creates a box that refers to
    the card and to the website: the pair (Alice, website) has two open
    boxes, with two redemption codes, and the answer is the second box
    rather than the one the pair had.  This is so for every conversion
    between numbers and strings. *)
Theorem second_open_box_for_a_website
    (Number_toString : float → string) (String_toNumber : string → float) :
  let add := addToGiftBox Number_toString String_toNumber in
  let first := mkBoxBody Sample.coffeeId None (Some Sample.siteA) None None in
  let second :=
    mkBoxBody Sample.coffeeId (Some Sample.cardA) (Some Sample.siteA) None None in
  let db1 := (add Sample.db0 Sample.alice first 1900%Z Sample.ramp).1 in
  let result := add db1 Sample.alice second 2000%Z Sample.zeros in
  addToGiftBoxValidator second = []
  ∧ GiftBox db1 = [Sample.siteBox]
  ∧ GiftBox result.1 = [Sample.siteBox; Sample.bothBox]
  ∧ result.2 = Json (mkBoxView 1 Sample.bothBox (populate Sample.db0 Sample.bothBox))
  ∧ senderId Sample.siteBox = senderId Sample.bothBox
  ∧ websiteId Sample.siteBox = websiteId Sample.bothBox
  ∧ isRedeemed Sample.siteBox = false ∧ isRedeemed Sample.bothBox = false
  ∧ redemptionCode Sample.siteBox ≠ redemptionCode Sample.bothBox.
Proof.
  intros add first second db1 result.
  split_and!; try (vm_compute; reflexivity). vm_compute. discriminate.
Qed.

(** X25: the open gift box that the query of addToGiftBox finds gets no
    second one.  The query is keyed by the sender and the card if the
    request names one, and by the sender and the website otherwise.  When
    it finds a box, the call creates no box, the box stays where it is with
    the redemption code it has, a successful call returns that box (same
    identity, same code), and the call does succeed when the request is
    valid, the gift active, the target owned and the merged line items
    pass the validation of the schema.  A code is generated when the box is
    created (the query found none) and, whatever requests are served
    afterwards, every box keeps its position, its sender, its references
    and its code. *)
Theorem open_box_of_the_query_is_reused
    (secretKey : string) (JSON_stringify : WebhookBody → string)
    (hmac_sha512 : string → string → string)
    (Number_toString : float → string) (String_toNumber : string → float)
    (db : Db) (user : IUser) (body : BoxBody) (now : Z) (src : Entropy) :
  boxesOk db →
  let result := addToGiftBox Number_toString String_toNumber db user body now src in
  let found := GiftBox_findOpen db (_id user) (bb_cardId body) (bb_websiteId body) in
  (∀ i b, found = Some (i, b) →
     length (GiftBox result.1) = length (GiftBox db)
     ∧ (∃ b', GiftBox result.1 !! i = Some b'
              ∧ redemptionCode b' = redemptionCode b ∧ isRedeemed b' = false)
     ∧ (∀ view, result.2 = Json view →
          box_id view = i ∧ redemptionCode (box view) = redemptionCode b)
     ∧ (addToGiftBoxValidator body = [] →
        truthy (bb_cardId body) || truthy (bb_websiteId body) = true →
        targetOwned db user body →
        (∃ giftId gift items,
           castObjectId (bb_giftId body) = Some giftId
           ∧ Gift db !! giftId = Some gift ∧ isActive gift = true
           ∧ addGift Number_toString String_toNumber (gifts b) (bb_giftId body) giftId
               (default (JNumber 1) (bb_quantity body)) now = Some items
           ∧ GiftBox_validate (setGifts b items) = true) →
        ∃ view, result.2 = Json view))
  ∧ (found = None → ∀ view, result.2 = Json view →
       box_id view = length (GiftBox db)
       ∧ redemptionCode (box view) = Some (generateRedemptionCode src).1
       ∧ length (GiftBox result.1) = S (length (GiftBox db)))
  ∧ (∀ reqs, boxesKept db
               (serve secretKey JSON_stringify hmac_sha512 Number_toString
                  String_toNumber db reqs)).
Proof.
  intros Hok result found.
  pose proof (addToGiftBox_cases Number_toString String_toNumber db user body now src Hok)
    as Hcases.
  cbv zeta in Hcases. fold result in Hcases.
  split_and!.
  - intros i b Hf. subst found.
    destruct (GiftBox_findOpen_Some _ _ _ _ _ _ Hf) as (Hi & _ & Hr & _).
    assert (findOrCreateGiftBox db user body src = Some (db, i, b, src)) as Hfc.
    { unfold findOrCreateGiftBox. by rewrite Hf. }
    split_and!.
    + destruct Hcases as [[-> _]|(gid & db1 & i1 & b1 & src1 & _ & Hfc1 & Hres)]; [done|].
      rewrite Hfc in Hfc1. injection Hfc1 as <- <- <- <-.
      destruct Hres as [[-> _]|(items & _ & _ & ->)]; simpl; [done|].
      by rewrite length_insert.
    + destruct Hcases as [[-> _]|(gid & db1 & i1 & b1 & src1 & _ & Hfc1 & Hres)];
        [by exists b|].
      rewrite Hfc in Hfc1. injection Hfc1 as <- <- <- <-.
      destruct Hres as [[-> _]|(items & _ & _ & ->)]; simpl; [by exists b|].
      eexists. rewrite list_lookup_insert_eq by (by eapply lookup_lt_Some). done.
    + intros view Hview.
      destruct Hcases as [[_ Hno]|(gid & db1 & i1 & b1 & src1 & _ & Hfc1 & Hres)];
        [by destruct (Hno view)|].
      rewrite Hfc in Hfc1. injection Hfc1 as <- <- <- <-.
      destruct Hres as [[Hres _]|(items & _ & _ & Hres)]; rewrite Hres in Hview; [done|].
      simpl in Hview. by injection Hview as <-.
    + intros Hvalid Htarget Howned (gid & gift & items & Hcast & Hgift & Hactive & Hm & Hv).
      subst result.
      rewrite (addToGiftBox_open _ _ db user body now src i b gid gift items) by done.
      by eexists.
  - intros Hnone view Hview. subst found.
    destruct Hcases as [[_ Hno]|(gid & db1 & i1 & b1 & src1 & _ & Hfc1 & Hres)];
      [by destruct (Hno view)|].
    destruct (findOrCreateGiftBox_spec _ _ _ _ _ _ _ _ Hok Hfc1)
      as (_ & _ & _ & _ & _ & [(Hf & _)|(_ & -> & Hboxes & ->)]); [congruence|].
    destruct Hres as [[Hres _]|(items & _ & _ & Hres)]; rewrite Hres in Hview; [done|].
    simpl in Hview. injection Hview as <-. rewrite Hres. simpl.
    split_and!; [done..|].
    rewrite length_insert, Hboxes, length_app. simpl. lia.
  - intros reqs. by apply serve_boxes.
Qed.

Lemma open_box_of_the_query_is_reused_witness :
  boxesOk Sample.boxed
  ∧ GiftBox_findOpen Sample.boxed (_id Sample.alice) (Some Sample.cardA) None
    = Some (0%nat, Sample.coffeeBox)
  ∧ ∃ view,
      (addToGiftBox Sample.numberToString Sample.stringToNumber Sample.boxed
         Sample.alice (Sample.cardBody Sample.teaId 1) 2000 Sample.zeros).2 = Json view
      ∧ box_id view = 0%nat
      ∧ redemptionCode (box view) = Some Sample.boxCode.
Proof.
  assert (boxesOk Sample.boxed) as Hok.
  { apply (handle_boxes Sample.secret Sample.stringify Sample.mac
             Sample.numberToString Sample.stringToNumber Sample.db0
             (AddToGiftBox Sample.alice (Sample.cardBody Sample.coffeeId 2) 1900
                Sample.ramp)).
    apply boxesOk_initial. }
  assert (GiftBox_findOpen Sample.boxed (_id Sample.alice) (Some Sample.cardA) None
          = Some (0%nat, Sample.coffeeBox)) as Hf by (vm_compute; reflexivity).
  split; [exact Hok|]. split; [exact Hf|].
  destruct (open_box_of_the_query_is_reused Sample.secret Sample.stringify Sample.mac
              Sample.numberToString Sample.stringToNumber Sample.boxed
              Sample.alice (Sample.cardBody Sample.teaId 1) 2000 Sample.zeros Hok)
    as (Hreuse & _).
  destruct (Hreuse 0%nat Sample.coffeeBox Hf) as (_ & _ & Hview & Hsucceeds).
  assert (∃ view,
            (addToGiftBox Sample.numberToString Sample.stringToNumber Sample.boxed
               Sample.alice (Sample.cardBody Sample.teaId 1) 2000 Sample.zeros).2
            = Json view) as [view Hv].
  { apply Hsucceeds.
    - vm_compute; reflexivity.
    - reflexivity.
    - split; [intros _; vm_compute; eexists; reflexivity|intros [=]].
    - exists Sample.teaId, Sample.tea,
        (gifts Sample.coffeeBox ++ [mkItem Sample.teaId (Some 1%float) 2000]).
      split_and!; vm_compute; reflexivity. }
  exists view. split; [exact Hv|]. exact (Hview view Hv).
Defined.

Lemma itemsOf_nil_find items gid :
  itemsOf gid items = [] → list_find (λ g, giftId g = gid) items = None.
Proof.
  intros Hnil. apply list_find_None. unfold itemsOf in Hnil.
  induction items as [|it items IH]; [constructor|].
  destruct (decide (giftId it = gid)) as [Heq|Hne].
  - by rewrite filter_cons_True in Hnil.
  - rewrite filter_cons_False in Hnil by done. constructor; auto.
Qed.

(** C6, at the input where the code departs from it: the gift box of
    Alice's card holds two coffee vouchers, and Alice adds three more in a
    request that writes the id of the coffee voucher in upper case.  The
    validator accepts the id and [Gift.findById] casts it to the gift, but
    the merge compares the text of the request with the lower-case text of
    the stored id: it finds no line item and pushes a second one for the
    same gift.  The box has two line items for the coffee voucher, of
    quantities 2 and 3, and no line item of quantity 5.  This is so for
    every conversion between numbers and strings. *)
Theorem upper_case_id_is_not_merged
    (Number_toString : float → string) (String_toNumber : string → float) :
  let body := Sample.cardBody Sample.coffeeIdUpper 3 in
  let result :=
    addToGiftBox Number_toString String_toNumber Sample.boxed Sample.alice body 2000
      Sample.zeros in
  let items :=
    [mkItem Sample.coffeeId (Some 2%float) 1900;
     mkItem Sample.coffeeId (Some 3%float) 2000] in
  addToGiftBoxValidator body = []
  ∧ castObjectId Sample.coffeeIdUpper = Some Sample.coffeeId
  ∧ GiftBox Sample.boxed = [Sample.coffeeBox]
  ∧ gifts Sample.coffeeBox = [mkItem Sample.coffeeId (Some 2%float) 1900]
  ∧ GiftBox result.1 = [setGifts Sample.coffeeBox items]
  ∧ result.2 = Json (mkBoxView 0 (setGifts Sample.coffeeBox items)
                       (populate Sample.db0 (setGifts Sample.coffeeBox items)))
  ∧ itemsOf Sample.coffeeId items = items.
Proof.
  intros body result items.
  split_and!; vm_compute; reflexivity.
Qed.

(** X26: where addToGiftBox does merge line items.  On the open box that
    the query finds, for a gift whose id the request writes as the store
    prints it (in lower case) and quantities that are numbers: when the box
    has no line item for the gift, the first add appends one with the
    quantity and the time of the purchase, and the second add leaves
    exactly one line item for the gift, of quantity [q1 + q2], so that the
    two adds give the store and the answer of one add of [q1 + q2]; when
    the box has a line item for the gift, of quantity [x], its quantity
    after the two adds is [x + q1 + q2].  The sums are sums of doubles, and
    each add is accepted because its line item passes the schema's
    [min: 1]. *)
Theorem addToGiftBox_merges_line_items
    (Number_toString : float → string) (String_toNumber : string → float)
    (db : Db) (user : IUser) (gid : ObjectId) (card web : option string)
    (email : option string) (q1 q2 : float) (t1 t2 : Z) (src1 src2 : Entropy)
    (i : nat) (b : IGiftBox) (gift : IGift) :
  let add := addToGiftBox Number_toString String_toNumber in
  let body q := mkBoxBody gid card web (Some (JNumber q)) email in
  boxesOk db →
  addToGiftBoxValidator (body q1) = [] →
  truthy card || truthy web = true →
  castObjectId gid = Some gid →
  Gift db !! gid = Some gift → isActive gift = true →
  targetOwned db user (body q1) →
  GiftBox_findOpen db (_id user) card web = Some (i, b) →
  let db1 := (add db user (body q1) t1 src1).1 in
  let result := add db1 user (body q2) t2 src2 in
  (itemsOf gid (gifts b) = [] →
   (1 <=? q1)%float = true → (1 <=? q1 + q2)%float = true →
     (∃ b1, GiftBox db1 !! i = Some b1
            ∧ gifts b1 = gifts b ++ [mkItem gid (Some q1) t1])
     ∧ (∃ b2, GiftBox result.1 !! i = Some b2
              ∧ gifts b2 = gifts b ++ [mkItem gid (Some (q1 + q2)%float) t1]
              ∧ itemsOf gid (gifts b2) = [mkItem gid (Some (q1 + q2)%float) t1])
     ∧ result = add db user (body (q1 + q2)%float) t1 src1)
  ∧ (∀ k e, list_find (λ g, giftId g = gid) (gifts b) = Some (k, e) →
       let x := toNumber (quantity e) in
       (1 <=? x + q1)%float = true → (1 <=? x + q1 + q2)%float = true →
       ∃ b2, GiftBox result.1 !! i = Some b2
             ∧ gifts b2 = <[k:=setQuantity e (Some (x + q1 + q2)%float)]> (gifts b)).
Proof.
  intros add body Hok Hvalid Htarget Hcast Hgift Hactive Howned Hf db1 result.
  destruct (GiftBox_findOpen_Some _ _ _ _ _ _ Hf) as (Hi & _ & Hr & _).
  destruct (boxesOk_lookup _ _ _ Hok Hi) as [_ Hv].
  pose proof (lookup_lt_Some _ _ _ Hi) as Hlt.
  assert (∀ items1 items2,
            addGift Number_toString String_toNumber (gifts b) gid gid (JNumber q1) t1
            = Some items1 →
            GiftBox_validate (setGifts b items1) = true →
            addGift Number_toString String_toNumber items1 gid gid (JNumber q2) t2
            = Some items2 →
            GiftBox_validate (setGifts b items2) = true →
            db1 = setGiftBox db (<[i:=setGifts b items1]> (GiftBox db))
            ∧ result = (setGiftBox db (<[i:=setGifts b items2]> (GiftBox db)),
                        Json (mkBoxView i (setGifts b items2)
                                (populate db (setGifts b items2))))) as Htwo.
  { intros items1 items2 H1 Hv1 H2 Hv2.
    assert (db1 = setGiftBox db (<[i:=setGifts b items1]> (GiftBox db))) as Hdb1.
    { subst db1 add.
      by rewrite (addToGiftBox_open _ _ db user (body q1) t1 src1 i b gid gift items1). }
    split; [done|]. subst result add. rewrite Hdb1.
    rewrite (addToGiftBox_open _ _ _ user (body q2) t2 src2 i (setGifts b items1)
               gid gift items2); try done.
    - simpl. by rewrite list_insert_insert_eq.
    - by apply (boxesOk_insert db i b).
    - by apply (GiftBox_findOpen_insert db _ _ _ i b). }
  split.
  - intros Hnone%itemsOf_nil_find Hq1 Hq12.
    set (item q := mkItem gid (Some q) t1).
    assert (addGift Number_toString String_toNumber (gifts b) gid gid (JNumber q1) t1
            = Some (gifts b ++ [item q1])) as H1.
    { by rewrite (addGift_fresh _ _ _ _ _ _ _ Hnone), castNumber_number. }
    assert (addGift Number_toString String_toNumber (gifts b ++ [item q1]) gid gid
              (JNumber q2) t2
            = Some (gifts b ++ [item (q1 + q2)%float])) as H2.
    { rewrite (addGift_found _ _ _ _ _ _ _ (length (gifts b)) (item q1)).
      - simpl jsAdd. rewrite castNumber_number by done. simpl.
        by rewrite insert_at_end.
      - rewrite list_find_app_r by done. simpl. by rewrite decide_True by done. }
    assert (GiftBox_validate (setGifts b (gifts b ++ [item q1])) = true) as Hv1
      by (by apply GiftBox_validate_push).
    assert (GiftBox_validate (setGifts b (gifts b ++ [item (q1 + q2)%float])) = true)
      as Hv2 by (by apply GiftBox_validate_push).
    destruct (Htwo _ _ H1 Hv1 H2 Hv2) as [Hdb1 Hres].
    split_and!.
    + eexists. rewrite Hdb1. simpl. rewrite list_lookup_insert_eq by done. done.
    + eexists. rewrite Hres. simpl. rewrite list_lookup_insert_eq by done.
      split; [done|]. split; [done|]. simpl.
      rewrite itemsOf_app, (itemsOf_fresh _ _ Hnone). unfold itemsOf.
      by rewrite filter_cons_True by done.
    + rewrite Hres. subst add. symmetry.
      apply (addToGiftBox_open _ _ db user (body (q1 + q2)%float) t1 src1 i b gid gift);
        try done.
      simpl. by rewrite (addGift_fresh _ _ _ _ _ _ _ Hnone), castNumber_number.
  - intros k e Hfound x Hq1 Hq12.
    assert (gifts b !! k = Some e) as Hk by (by eapply list_find_lookup).
    assert (addGift Number_toString String_toNumber (gifts b) gid gid (JNumber q1) t1
            = Some (<[k:=setQuantity e (Some (x + q1)%float)]> (gifts b))) as H1.
    { rewrite (addGift_found _ _ _ _ _ _ _ k e Hfound). simpl jsAdd.
      by rewrite castNumber_number. }
    assert (addGift Number_toString String_toNumber
              (<[k:=setQuantity e (Some (x + q1)%float)]> (gifts b)) gid gid
              (JNumber q2) t2
            = Some (<[k:=setQuantity e (Some (x + q1 + q2)%float)]> (gifts b))) as H2.
    { rewrite (addGift_found _ _ _ _ _ _ _ k (setQuantity e (Some (x + q1)%float))).
      - simpl jsAdd. rewrite castNumber_number by done. simpl.
        by rewrite list_insert_insert_eq.
      - eapply list_find_insert_same; [done|]. simpl.
        by apply list_find_holds in Hfound. }
    destruct (Htwo _ _ H1 ltac:(by apply GiftBox_validate_merge) H2
                ltac:(by apply GiftBox_validate_merge)) as [_ Hres].
    eexists. rewrite Hres. simpl. rewrite list_lookup_insert_eq by done. done.
Qed.

Lemma addToGiftBox_merges_line_items_witness :
  GiftBox_findOpen Sample.boxed (_id Sample.alice) (Some Sample.cardA) None
  = Some (0%nat, Sample.coffeeBox)
  ∧ itemsOf Sample.teaId (gifts Sample.coffeeBox) = []
  ∧ ∃ b2,
      GiftBox (addToGiftBox Sample.numberToString Sample.stringToNumber
                 (addToGiftBox Sample.numberToString Sample.stringToNumber Sample.boxed
                    Sample.alice (Sample.cardBody Sample.teaId 2) 2000 Sample.zeros).1
                 Sample.alice (Sample.cardBody Sample.teaId 3) 2100 Sample.zeros).1
      !! 0%nat = Some b2
      ∧ itemsOf Sample.teaId (gifts b2) = [mkItem Sample.teaId (Some (2 + 3)%float) 2000].
Proof.
  assert (boxesOk Sample.boxed) as Hok.
  { apply (handle_boxes Sample.secret Sample.stringify Sample.mac
             Sample.numberToString Sample.stringToNumber Sample.db0
             (AddToGiftBox Sample.alice (Sample.cardBody Sample.coffeeId 2) 1900
                Sample.ramp)).
    apply boxesOk_initial. }
  assert (GiftBox_findOpen Sample.boxed (_id Sample.alice) (Some Sample.cardA) None
          = Some (0%nat, Sample.coffeeBox)) as Hf by (vm_compute; reflexivity).
  assert (itemsOf Sample.teaId (gifts Sample.coffeeBox) = []) as Hnone
    by (vm_compute; reflexivity).
  split; [exact Hf|]. split; [exact Hnone|].
  destruct (addToGiftBox_merges_line_items Sample.numberToString Sample.stringToNumber
              Sample.boxed Sample.alice Sample.teaId
              (Some Sample.cardA) None None 2 3 2000 2100 Sample.zeros Sample.zeros
              0 Sample.coffeeBox Sample.tea) as (Hfresh & _).
  - exact Hok.
  - vm_compute; reflexivity.
  - reflexivity.
  - vm_compute; reflexivity.
  - vm_compute; reflexivity.
  - reflexivity.
  - split; [intros _; vm_compute; eexists; reflexivity|intros [=]].
  - exact Hf.
  - destruct Hfresh as (_ & (b2 & Hb2 & _ & Hitems) & _);
      [exact Hnone|reflexivity|reflexivity|].
    exists b2. split; [exact Hb2|exact Hitems].
Defined.

(** X27: the quantity of addToGiftBox is no number unless the client sends
    one.  On the open box that the query finds, with a line item of
    quantity [x] for the gift, a request whose quantity is the string [s]
    sets the quantity of the line item to what Mongoose's cast makes of the
    concatenation of [String(x)] and [s], where a sum would have [x] plus
    the number that [s] spells: 2 and then "3" give a quantity of 23.  The
    call succeeds when the cast succeeds and its result passes the schema's
    [min: 1]. *)
Theorem addToGiftBox_string_quantity_is_appended
    (Number_toString : float → string) (String_toNumber : string → float)
    (db : Db) (user : IUser) (body : BoxBody) (now : Z) (src : Entropy)
    (i : nat) (b : IGiftBox) (gift : IGift) (k : nat) (e : IGiftBoxItem)
    (x : float) (s : string) (q : option float) :
  boxesOk db →
  addToGiftBoxValidator body = [] →
  truthy (bb_cardId body) || truthy (bb_websiteId body) = true →
  castObjectId (bb_giftId body) = Some (bb_giftId body) →
  Gift db !! bb_giftId body = Some gift → isActive gift = true →
  targetOwned db user body →
  GiftBox_findOpen db (_id user) (bb_cardId body) (bb_websiteId body) = Some (i, b) →
  list_find (λ g, giftId g = bb_giftId body) (gifts b) = Some (k, e) →
  quantity e = Some x →
  bb_quantity body = Some (JString s) →
  castNumber String_toNumber (JString (Number_toString x +:+ s)) = Some q →
  quantityValid q = true →
  let b1 := setGifts b (<[k:=setQuantity e q]> (gifts b)) in
  addToGiftBox Number_toString String_toNumber db user body now src
  = (setGiftBox db (<[i:=b1]> (GiftBox db)), Json (mkBoxView i b1 (populate db b1))).
Proof.
  intros Hok Hvalid Htarget Hcast Hgift Hactive Howned Hf Hfound Hx Hs Hq Hqv b1.
  destruct (GiftBox_findOpen_Some _ _ _ _ _ _ Hf) as (Hi & _).
  destruct (boxesOk_lookup _ _ _ Hok Hi) as [_ Hv].
  apply (addToGiftBox_open _ _ db user body now src i b (bb_giftId body) gift);
    try done.
  - rewrite Hs. simpl default.
    rewrite (addGift_found _ _ _ _ _ _ _ k e Hfound), Hx.
    cbn [jsAdd]. by rewrite Hq.
  - by apply GiftBox_validate_merge.
Qed.

Lemma addToGiftBox_string_quantity_is_appended_witness :
  castNumber Sample.stringToNumber (JString (Sample.numberToString 2 +:+ "3"))
  = Some (Some 23%float)
  ∧ ∃ db',
      addToGiftBox Sample.numberToString Sample.stringToNumber Sample.boxed Sample.alice
        (mkBoxBody Sample.coffeeId (Some Sample.cardA) None (Some (JString "3")) None)
        2000 Sample.zeros
      = (db', Json (mkBoxView 0
                      (setGifts Sample.coffeeBox
                         [mkItem Sample.coffeeId (Some 23%float) 1900])
                      [(Some Sample.coffee,
                        mkItem Sample.coffeeId (Some 23%float) 1900)])).
Proof.
  assert (boxesOk Sample.boxed) as Hok.
  { apply (handle_boxes Sample.secret Sample.stringify Sample.mac
             Sample.numberToString Sample.stringToNumber Sample.db0
             (AddToGiftBox Sample.alice (Sample.cardBody Sample.coffeeId 2) 1900
                Sample.ramp)).
    apply boxesOk_initial. }
  assert (castNumber Sample.stringToNumber (JString (Sample.numberToString 2 +:+ "3"))
          = Some (Some 23%float)) as Hq by (vm_compute; reflexivity).
  split; [exact Hq|]. eexists.
  rewrite (addToGiftBox_string_quantity_is_appended Sample.numberToString
             Sample.stringToNumber Sample.boxed Sample.alice
             (mkBoxBody Sample.coffeeId (Some Sample.cardA) None (Some (JString "3")) None)
             2000 Sample.zeros 0 Sample.coffeeBox Sample.coffee 0
             (mkItem Sample.coffeeId (Some 2%float) 1900) 2 "3" (Some 23%float));
    try (vm_compute; reflexivity); try reflexivity; try exact Hok; try exact Hq.
  split; [intros _; vm_compute; eexists; reflexivity|intros [=]].
Defined.

(** C5, at the input where the code departs from it: Alice names both
    her card and her website in one request.  The validator passes, both
    are hers, and the box that is created refers to the card and to the
    website; only the card is given the back-reference to the box.  This is
    so for every conversion between numbers and strings. *)
Theorem addToGiftBox_binds_card_and_website
    (Number_toString : float → string) (String_toNumber : string → float) :
  let body := mkBoxBody Sample.coffeeId (Some Sample.cardA) (Some Sample.siteA) None None in
  let result :=
    addToGiftBox Number_toString String_toNumber Sample.db0 Sample.alice body 1900
      Sample.ramp in
  addToGiftBoxValidator body = []
  ∧ GiftBox Sample.db0 = []
  ∧ ∃ view,
      result.2 = Json view
      ∧ GiftBox result.1 = [box view]
      ∧ cardId (box view) = Some Sample.cardA
      ∧ websiteId (box view) = Some Sample.siteA
      ∧ giftBox <$> Card result.1 !! Sample.cardA = Some (Some 0%nat)
      ∧ giftBox <$> Website result.1 !! Sample.siteA = Some None.
Proof.
  intros body result. split; [vm_compute; reflexivity|]. split; [reflexivity|].
  exists (mkBoxView 0
            (mkGiftBox (Some Sample.cardA) (Some Sample.siteA) (_id Sample.alice) None
               [mkItem Sample.coffeeId (Some 1%float) 1900] false None
               (Some Sample.boxCode))
            [(Some Sample.coffee, mkItem Sample.coffeeId (Some 1%float) 1900)]).
  split_and!; vm_compute; reflexivity.
Qed.

(** What holds of C5: without a card and without a website the call is
    refused, and a box that is created carries the references of the
    request, so exactly one when the request names exactly one. *)
Lemma addToGiftBox_requires_target ts tn db user body now src :
  addToGiftBoxValidator body = [] →
  truthy (bb_cardId body) = false → truthy (bb_websiteId body) = false →
  addToGiftBox ts tn db user body now src
  = (db, Fail 400 "Either cardId or websiteId is required.").
Proof. intros Hv Hc Hw. unfold addToGiftBox. by rewrite Hv, Hc, Hw. Qed.

Lemma addToGiftBox_created_references ts tn db user body now src view :
  boxesOk db →
  GiftBox_findOpen db (_id user) (bb_cardId body) (bb_websiteId body) = None →
  (addToGiftBox ts tn db user body now src).2 = Json view →
  cardId (box view) = castId (bb_cardId body)
  ∧ websiteId (box view) = castId (bb_websiteId body).
Proof.
  intros Hok Hnone Hview.
  destruct (addToGiftBox_cases ts tn db user body now src Hok)
    as [[_ Hno]|(gid & db1 & i1 & b1 & src1 & _ & Hfc1 & Hres)]; [by destruct (Hno view)|].
  destruct (findOrCreateGiftBox_spec _ _ _ _ _ _ _ _ Hok Hfc1)
    as (_ & _ & _ & _ & _ & [(Hf & _)|(_ & -> & Hboxes & ->)]); [congruence|].
  destruct Hres as [[Hres _]|(items & _ & _ & Hres)]; rewrite Hres in Hview; [done|].
  simpl in Hview. by injection Hview as <-.
Qed.

(** ** Redemption *)

Lemma GiftBox_findOne_code_at db i b code :
  boxesOk db → GiftBox db !! i = Some b → redemptionCode b = Some code →
  GiftBox_findOne_code db code = Some (i, b).
Proof.
  intros (_ & Hnd & _) Hi Hc. apply list_find_Some. split_and!; [done..|].
  intros j y Hj Hlt Hy.
  assert (j = i); [|lia].
  eapply NoDup_lookup; [exact Hnd| |].
  - rewrite list_lookup_fmap, Hj. simpl. by rewrite Hy.
  - rewrite list_lookup_fmap, Hi. simpl. by rewrite Hc.
Qed.


Lemma redeemGiftBox_redeemed db i b code user now src :
  boxesOk db → GiftBox db !! i = Some b → redemptionCode b = Some code →
  isRedeemed b = true →
  redeemGiftBox db user code now src
  = (db, Fail 400 "This gift box has already been redeemed.").
Proof.
  intros Hok Hi Hc Hr. unfold redeemGiftBox.
  by rewrite (GiftBox_findOne_code_at db i b code), Hr.
Qed.


(** The first redemption of an open box by a user: the box is marked, and
    the wallet is credited when the total can be computed and the new
    balance passes the validation of the wallet. *)
Lemma redeemGiftBox_open db i b code u now src :
  boxesOk db → GiftBox db !! i = Some b → redemptionCode b = Some code →
  isRedeemed b = false →
  let boxes := <[i:=setRedeemed b now]> (GiftBox db) in
  let j := (userWallet db (_id u)).1 in
  let w := (userWallet db (_id u)).2 in
  redeemGiftBox db (Some u) code now src
  = match totalValueFrom (populate db b) 0 with
    | None => (setGiftBox db boxes, Fail 500 "Failed to redeem gift box.")
    | Some total =>
        if (0 <=? balance w + total)%float
        then (mkDb (Gift db) (putWallet (Wallet db) j (credited w total code now))
                boxes (Card db) (Website db),
              Json (mkRedeemData (mkBoxView i (setRedeemed b now) (populate db b))
                      total true))
        else (mkDb (Gift db) (putWallet (Wallet db) j w) boxes (Card db) (Website db),
              Fail 500 "Failed to redeem gift box.")
    end.
Proof.
  intros Hok Hi Hc Hr boxes j w. subst boxes j w. unfold redeemGiftBox.
  rewrite (GiftBox_findOne_code_at db i b code), Hr by done.
  rewrite (GiftBox_save_existing db i b) by done.
  destruct (totalValueFrom (populate db b) 0) as [total|]; [|done].
  change (Wallet_findOne_userId (setGiftBox db _) (_id u))
    with (Wallet_findOne_userId db (_id u)).
  unfold userWallet, putWallet.
  destruct (Wallet_findOne_userId db (_id u)) as [[k w]|] eqn:Hw.
  - pose proof (Wallet_findOne_userId_lookup _ _ _ _ Hw) as Hk.
    pose proof (lookup_lt_Some _ _ _ Hk) as Hlt.
    unfold Wallet_save, Wallet_validate. simpl.
    rewrite bool_decide_true by done.
    destruct (0 <=? balance w + total)%float; [by rewrite Hc|].
    by rewrite (list_insert_id (Wallet db) k w).
  - unfold Wallet_save, Wallet_validate. simpl.
    rewrite bool_decide_false by lia.
    destruct (0 <=? 0 + total)%float; [|done].
    by rewrite insert_at_end, Hc.
Qed.




(** ** What the handlers do to the wallets *)

Lemma entryKept_refl t : entryKept t t.
Proof. unfold entryKept. split_and!; auto. Qed.

Lemma entryKept_trans t1 t2 t3 : entryKept t1 t2 → entryKept t2 t3 → entryKept t1 t3.
Proof.
  unfold entryKept. intros (? & ? & ? & ? & ? & H12) (? & ? & ? & ? & ? & H23).
  split_and!; try congruence.
  destruct H12 as [E12|[E1 E2]], H23 as [E23|[E2' E3]]; try (left; congruence);
    try (right; split; congruence).
Qed.

Lemma walletUpdate_refl w : walletUpdate w w.
Proof.
  split_and!; auto. intros j t Hj. exists t. split; [done|apply entryKept_refl].
Qed.

Lemma walletUpdate_trans w1 w2 w3 :
  walletUpdate w1 w2 → walletUpdate w2 w3 → walletUpdate w1 w3.
Proof.
  intros (? & ? & B12 & L12) (? & ? & B23 & L23). split_and!; try congruence.
  - destruct B23 as [E|?]; [|by right]. destruct B12 as [E'|?]; [left; congruence|].
    right. by rewrite E.
  - intros j t Hj. destruct (L12 j t Hj) as (t2 & Hj2 & K12).
    destruct (L23 j t2 Hj2) as (t3 & Hj3 & K23).
    exists t3. split; [done|by eapply entryKept_trans].
Qed.

Lemma walletUpdate_push w t : walletUpdate w (pushTransaction w t).
Proof.
  split_and!; auto. intros j t0 Hj. exists t0.
  split; [by apply lookup_app_l_Some|apply entryKept_refl].
Qed.

Lemma walletUpdate_push_balance w b t :
  Wallet_validate (pushTransaction (setBalance w b) t) = true →
  walletUpdate w (pushTransaction (setBalance w b) t).
Proof.
  intros Hv. split_and!; auto.
  - intros j t0 Hj. exists t0.
    split; [by apply lookup_app_l_Some|apply entryKept_refl].
Qed.

Lemma walletUpdate_settle w j t amt :
  transactions w !! j = Some t → status t = pending →
  Wallet_validate (settle w j t amt) = true →
  walletUpdate w (settle w j t amt).
Proof.
  intros Hj Hs Hv. split_and!; auto.
  - intros k t0 Hk. simpl. destruct (decide (k = j)) as [->|Hne].
    + exists (setStatus t completed).
      rewrite list_lookup_insert_eq by (by eapply lookup_lt_Some).
      split; [done|]. simplify_eq. unfold entryKept. simpl. split_and!; auto.
    + exists t0. rewrite list_lookup_insert_ne by done.
      split; [done|apply entryKept_refl].
Qed.

Lemma walletsStep_same_db db db1 ws' :
  Wallet db1 = Wallet db → walletsStep db1 ws' → walletsStep db ws'.
Proof.
  intros Hw [->|[(i & w & w' & Hi & Hu & ->)|(uid & w' & Hn & Hu & ->)]].
  - by left.
  - right; left. exists i, w, w'. by rewrite <- Hw.
  - right; right. exists uid, w'. unfold Wallet_findOne_userId in *. by rewrite <- Hw.
Qed.

Lemma walletsStep_getOrCreate db uid db1 i w w' :
  getOrCreateWallet db uid = (db1, i, w) → walletUpdate w w' →
  walletsStep db (<[i:=w']> (Wallet db1)).
Proof.
  intros (Hi & _ & _ & [->|(Hn & -> & -> & ->)])%getOrCreateWallet_spec Hu.
  - right; left. by exists i, w, w'.
  - right; right. exists uid, w'. simpl. by rewrite insert_at_end.
Qed.

Lemma getBalance_walletsStep db user : walletsStep db (Wallet (getBalance db user).1).
Proof.
  unfold getBalance.
  destruct (getOrCreateWallet db (_id user)) as [[db1 i] w] eqn:Hg. simpl.
  apply getOrCreateWallet_spec in Hg as (_ & _ & _ & [->|(Hn & -> & _ & ->)]).
  - by left.
  - right; right. exists (_id user), (newWallet (_id user)).
    split_and!; [done|apply walletUpdate_refl|done].
Qed.

Lemma fundWallet_walletsStep db user amount now src p :
  walletsStep db (Wallet (fundWallet db user amount now src p).1).
Proof.
  unfold fundWallet. destruct (fundWalletValidator amount); [|by left].
  destruct (getOrCreateWallet db (_id user)) as [[db1 i] w] eqn:Hg.
  destruct p; simpl;
    (eapply walletsStep_getOrCreate; [done|apply walletUpdate_push]).
Qed.

Lemma verifyWalletPayment_walletsStep db r p :
  walletsStep db (Wallet (verifyWalletPayment db r p).1).
Proof.
  destruct (verifyWalletPayment_cases db r p)
    as [->|(r' & i & w & j & t & _ & Hw & Ht & Hs & Hv & ->)]; [by left|].
  right; left. exists i, w, (settle w j t (amount t)).
  split_and!; [by eapply Wallet_findOne_reference_lookup| |done].
  apply walletUpdate_settle; [by eapply findTransaction_lookup|done..].
Qed.

Lemma paystackWebhook_walletsStep key str mac db body sig :
  walletsStep db (Wallet (paystackWebhook key str mac db body sig).1).
Proof.
  destruct (paystackWebhook_cases key str mac db body sig)
    as [->|(i & w & j & t & _ & _ & Hw & Ht & Hs & Hv & ->)]; [by left|].
  right; left. exists i, w, (settle w j t (cd_amount (data body) / 100)).
  split_and!; [by eapply Wallet_findOne_reference_lookup| |done].
  apply walletUpdate_settle; [by eapply findTransaction_lookup|done..].
Qed.

Lemma purchaseGift_walletsStep db user body now :
  walletsStep db (Wallet (purchaseGift db user body now).1).
Proof.
  unfold purchaseGift.
  repeat case_match; simplify_eq; simpl; try (by left);
    repeat match goal with
    | H : Gift_save _ _ _ = Some _ |- _ => apply Gift_save_Wallet in H; rewrite H
    | H : Wallet_save _ _ _ = Some _ |- _ => apply Wallet_save_Some in H as [Hv ->]
    | H : Wallet_findOne_userId _ _ = Some _ |- _ =>
        apply Wallet_findOne_userId_lookup in H
    end; simpl;
    (right; left; eexists _, _, _;
     split_and!; [done|by apply walletUpdate_push_balance|done]).
Qed.

Lemma redeemGiftBox_walletsStep db user code now src :
  walletsStep db (Wallet (redeemGiftBox db user code now src).1).
Proof.
  unfold redeemGiftBox.
  destruct (GiftBox_findOne_code db code) as [[i b]|]; [|by left].
  destruct (isRedeemed b); [by left|].
  destruct (GiftBox_save _ _ _ _) as [[[db1 b1] src1]|] eqn:Hsave; [|by left].
  apply GiftBox_save_Wallet in Hsave.
  apply (walletsStep_same_db db db1); [done|].
  destruct (totalValueFrom _ _) as [total|]; [|by left].
  destruct user as [u|]; [|by left].
  destruct (Wallet_findOne_userId db1 (_id u)) as [[j w]|] eqn:Hw.
  - destruct (Wallet_save _ _ _) as [db3|] eqn:Hs; [|by left].
    apply Wallet_save_Some in Hs as [Hv ->]. simpl.
    right; left. eexists _, _, _.
    split_and!; [by eapply Wallet_findOne_userId_lookup
                |by apply walletUpdate_push_balance|done].
  - destruct (Wallet_save _ _ _) as [db3|] eqn:Hs.
    + apply Wallet_save_Some in Hs as [Hv ->]. simpl. rewrite insert_at_end.
      right; right. eexists _, _.
      split_and!; [done|by apply walletUpdate_push_balance|done].
    + simpl. right; right. exists (_id u), (newWallet (_id u)).
      split_and!; [done|apply walletUpdate_refl|done].
Qed.

Lemma handle_walletsStep key str mac ts tn db req :
  walletsStep db (Wallet (handle key str mac ts tn db req)).
Proof.
  destruct req as [user|user amount now src p|r p|body sig|user body now
                  |user body now src|user code now src]; simpl.
  - apply getBalance_walletsStep.
  - apply fundWallet_walletsStep.
  - apply verifyWalletPayment_walletsStep.
  - apply paystackWebhook_walletsStep.
  - apply purchaseGift_walletsStep.
  - left. apply addToGiftBox_Wallet.
  - apply redeemGiftBox_walletsStep.
Qed.

Lemma walletsStep_unique db ws' :
  walletsStep db ws' → walletsUnique db → NoDup (userId <$> ws').
Proof.
  unfold walletsUnique.
  intros [->|[(i & w & w' & Hi & (Hu & _) & ->)|(uid & w' & Hn & (Hu & _) & ->)]] Hnd.
  - done.
  - rewrite list_fmap_insert, Hu, list_insert_id; [done|].
    by rewrite list_lookup_fmap, Hi.
  - rewrite fmap_app. apply NoDup_app. split_and!; [done| |apply NoDup_singleton].
    intros x Hx ->%list_elem_of_singleton.
    apply list_elem_of_fmap in Hx as (w & Hw & Hin). simpl in Hw.
    unfold Wallet_findOne_userId in Hn. apply list_find_None in Hn.
    rewrite Forall_forall in Hn. apply (Hn w Hin). simpl in Hu. congruence.
Qed.

Lemma walletsStep_balances db ws' :
  walletsStep db ws' → balancesOk db → Forall (λ w, nonneg (balance w)) ws'.
Proof.
  unfold balancesOk.
  intros [->|[(i & w & w' & Hi & (_ & _ & Hb & _) & ->)
             |(uid & w' & Hn & (_ & _ & Hb & _) & ->)]] Hok.
  - done.
  - apply Forall_insert; [done|]. destruct Hb as [->|?]; [|done].
    by eapply Forall_lookup_1 in Hok.
  - apply Forall_app. split; [done|]. constructor; [|constructor].
    destruct Hb as [->|?]; [reflexivity|done].
Qed.

Lemma walletsStep_logs db db' : walletsStep db (Wallet db') → logsKept db db'.
Proof.
  unfold logsKept.
  intros [->|[(i & w & w' & Hi & Hu & ->)|(uid & w' & Hn & Hu & ->)]] k wk Hk.
  - exists wk. split; [done|apply walletUpdate_refl].
  - destruct (decide (k = i)) as [->|Hne].
    + exists w'. rewrite list_lookup_insert_eq by (by eapply lookup_lt_Some).
      by simplify_eq.
    + exists wk. rewrite list_lookup_insert_ne by done.
      split; [done|apply walletUpdate_refl].
  - exists wk. split; [by apply lookup_app_l_Some|apply walletUpdate_refl].
Qed.

Lemma logsKept_trans db1 db2 db3 : logsKept db1 db2 → logsKept db2 db3 → logsKept db1 db3.
Proof.
  intros H12 H23 i w Hi.
  destruct (H12 i w Hi) as (w2 & Hi2 & U2).
  destruct (H23 i w2 Hi2) as (w3 & Hi3 & U3).
  exists w3. split; [done|by eapply walletUpdate_trans].
Qed.

(** X1: one wallet per user.  If no two wallets of a store belong to the
    same user, then after any sequence of requests none do: getBalance,
    fundWallet and redeemGiftBox create a wallet only for a user who has
    none, and no handler changes the user of a wallet. *)
Theorem one_wallet_per_user
    (secretKey : string) (JSON_stringify : WebhookBody → string)
    (hmac_sha512 : string → string → string)
    (Number_toString : float → string) (String_toNumber : string → float)
    (reqs : list Request) (db : Db) :
  walletsUnique db →
  walletsUnique (serve secretKey JSON_stringify hmac_sha512 Number_toString String_toNumber
     db reqs).
Proof.
  revert db. induction reqs as [|req reqs IH]; intros db Hdb; [done|].
  simpl. apply IH. eapply walletsStep_unique; [apply handle_walletsStep|done].
Qed.

(** X2: no overdraft.  If no wallet of a store has a negative balance, then
    after any sequence of requests none has: purchaseGift checks the balance
    before it debits, and every save after an assignment to the balance runs
    the schema's [min: 0]. *)
Theorem balance_never_negative
    (secretKey : string) (JSON_stringify : WebhookBody → string)
    (hmac_sha512 : string → string → string)
    (Number_toString : float → string) (String_toNumber : string → float)
    (reqs : list Request) (db : Db) :
  balancesOk db →
  balancesOk (serve secretKey JSON_stringify hmac_sha512 Number_toString String_toNumber
     db reqs).
Proof.
  revert db. induction reqs as [|req reqs IH]; intros db Hdb; [done|].
  simpl. apply IH. eapply walletsStep_balances; [apply handle_walletsStep|done].
Qed.

(** X3: the transaction log is append-only.  After any sequence of
    requests every wallet is still at its position with its user and its
    currency, and every transaction it had is still at its position in the
    log with its type, amount, reference, description and date; its status
    is what it was, or it was pending and is now completed. *)
Theorem transaction_log_is_append_only
    (secretKey : string) (JSON_stringify : WebhookBody → string)
    (hmac_sha512 : string → string → string)
    (Number_toString : float → string) (String_toNumber : string → float)
    (reqs : list Request) (db : Db) :
  logsKept db (serve secretKey JSON_stringify hmac_sha512 Number_toString String_toNumber
     db reqs).
Proof.
  revert db. induction reqs as [|req reqs IH]; intros db.
  - intros i w Hi. exists w. split; [done|apply walletUpdate_refl].
  - simpl. eapply logsKept_trans; [|apply IH].
    apply walletsStep_logs, handle_walletsStep.
Qed.

Lemma one_wallet_per_user_witness :
  walletsUnique Sample.shop
  ∧ walletsUnique
      (serve Sample.secret Sample.stringify Sample.mac Sample.numberToString
         Sample.stringToNumber Sample.shop
         [GetBalance Sample.bob;
          FundWallet Sample.bob 250 1700 Sample.zeros None;
          RedeemGiftBox (Some Sample.alice) Sample.boxCode 1800 Sample.zeros]).
Proof.
  assert (walletsUnique Sample.shop) as H by (vm_compute; apply NoDup_singleton).
  split; [exact H|].
  exact (one_wallet_per_user Sample.secret Sample.stringify Sample.mac
           Sample.numberToString Sample.stringToNumber _ Sample.shop H).
Defined.

Lemma balance_never_negative_witness :
  balancesOk Sample.shop
  ∧ balancesOk
      (serve Sample.secret Sample.stringify Sample.mac Sample.numberToString
         Sample.stringToNumber Sample.shop
         [PurchaseGift Sample.alice (mkPurchaseBody Sample.coffeeId (Some 2%Z)) 1800;
          PurchaseGift Sample.alice (mkPurchaseBody Sample.teaId (Some 1%Z)) 1801]).
Proof.
  assert (balancesOk Sample.shop) as H.
  { constructor; [reflexivity|constructor]. }
  split; [exact H|].
  exact (balance_never_negative Sample.secret Sample.stringify Sample.mac
           Sample.numberToString Sample.stringToNumber _ Sample.shop H).
Defined.

(** ** Funding, end to end *)

Lemma userWallet_lookup db uid i w :
  userWallet db uid = (i, w) →
  userId w = uid
  ∧ (Wallet_findOne_userId db uid = Some (i, w) ∧ Wallet db !! i = Some w
     ∨ Wallet_findOne_userId db uid = None ∧ i = length (Wallet db)
       ∧ w = newWallet uid).
Proof.
  unfold userWallet. destruct (Wallet_findOne_userId db uid) as [[i0 w0]|] eqn:Hf;
    intros [= <- <-].
  - split; [by apply list_find_holds in Hf|]. left.
    split; [done|by eapply list_find_lookup].
  - split; [done|]. by right.
Qed.

Lemma putWallet_lookup ws i w :
  (i ≤ length ws)%nat → putWallet ws i w !! i = Some w.
Proof.
  intros Hi. unfold putWallet. case_bool_decide.
  - by apply list_lookup_insert_eq.
  - assert (i = length ws) as -> by lia. by apply list_lookup_middle.
Qed.

Lemma putWallet_before ws i w j :
  (j < i)%nat → (i ≤ length ws)%nat → putWallet ws i w !! j = ws !! j.
Proof.
  intros Hj Hi. unfold putWallet. case_bool_decide.
  - apply list_lookup_insert_ne. lia.
  - apply lookup_app_l. lia.
Qed.

Lemma putWallet_again ws i w w' :
  (i ≤ length ws)%nat →
  <[i:=w']> (putWallet ws i w) = putWallet ws i w'.
Proof.
  intros Hi. unfold putWallet. case_bool_decide.
  - apply list_insert_insert_eq.
  - assert (i = length ws) as -> by lia. apply insert_at_end.
Qed.

Lemma getOrCreateWallet_userWallet db uid :
  getOrCreateWallet db uid
  = (match Wallet_findOne_userId db uid with
     | Some _ => db
     | None => setWallet db (Wallet db ++ [newWallet uid])
     end, (userWallet db uid).1, (userWallet db uid).2).
Proof.
  unfold getOrCreateWallet, userWallet.
  by destruct (Wallet_findOne_userId db uid) as [[i w]|].
Qed.

(** fundWallet in closed form. *)
Lemma fundWallet_spec db user amount now src p :
  is_finite amount = true → (100 <=? amount)%float = true →
  fundWallet db user amount now src p
  = (setWallet db
       (putWallet (Wallet db) (userWallet db (_id user)).1
          (pushTransaction (userWallet db (_id user)).2
             (fundingTx amount now src pending))),
     match p with
     | Some d => Json (mkFundData (authorization_url d) (init_reference d))
     | None => Fail 500 "Failed to initialize payment."
     end).
Proof.
  intros Hfin Ha.
  unfold fundWallet, fundWalletValidator. rewrite Hfin, Ha, getOrCreateWallet_userWallet.
  unfold userWallet, putWallet.
  destruct (Wallet_findOne_userId db (_id user)) as [[i w]|] eqn:Hf; simpl.
  - rewrite bool_decide_true
      by (apply list_find_lookup in Hf; by eapply lookup_lt_Some).
    by destruct p.
  - rewrite bool_decide_false by lia. rewrite insert_at_end. by destruct p.
Qed.

(** After a funding with a fresh reference, the reference locates the
    pending transaction at the end of the caller's log. *)
Lemma located_after_funding db uid amount now src :
  let r := (generatePaymentReference now src).1 in
  let i := (userWallet db uid).1 in
  let w := (userWallet db uid).2 in
  let w1 := pushTransaction w (fundingTx amount now src pending) in
  referenceFresh db r →
  Wallet_findOne_reference (setWallet db (putWallet (Wallet db) i w1)) r = Some (i, w1)
  ∧ findTransaction w1 r
    = Some (length (transactions w), fundingTx amount now src pending)
  ∧ (i ≤ length (Wallet db))%nat
  ∧ Forall (λ t, reference t ≠ r) (transactions w).
Proof.
  intros r i w w1 Hfresh.
  destruct (userWallet db uid) as [i0 w0] eqn:Hu. simpl in i, w. subst i w.
  destruct (userWallet_lookup _ _ _ _ Hu) as [_ Hcase].
  assert ((i0 ≤ length (Wallet db))%nat) as Hle.
  { destruct Hcase as [[_ Hi]|(_ & -> & _)]; [|done].
    apply lookup_lt_Some in Hi. lia. }
  assert (Forall (λ t, reference t ≠ r) (transactions w0)) as Hw0.
  { destruct Hcase as [[_ Hi]|(_ & _ & ->)]; [|constructor].
    by eapply Forall_lookup_1 in Hfresh. }
  split_and!; [| |done|done].
  - apply list_find_Some. split_and!.
    + by apply putWallet_lookup.
    + apply Exists_exists. exists (fundingTx amount now src pending).
      split; [|done]. subst w1. simpl. apply elem_of_app. right.
      apply list_elem_of_singleton. reflexivity.
    + intros j y Hj Hlt. simpl in Hj. rewrite putWallet_before in Hj by done.
      eapply Forall_lookup_1 in Hfresh; [|done].
      intros (t & Ht & Hr)%Exists_exists.
      rewrite Forall_forall in Hfresh. by apply (Hfresh t Ht).
  - unfold findTransaction. subst w1. simpl.
    rewrite list_find_app_r by (by apply list_find_None). simpl.
    by rewrite decide_True by done.
Qed.

Lemma settle_funding w amount paid now src :
  settle (pushTransaction w (fundingTx amount now src pending))
    (length (transactions w)) (fundingTx amount now src pending) paid
  = fundedWith w amount paid now src.
Proof. unfold settle, fundedWith. simpl. by rewrite insert_at_end. Qed.

Lemma paymentReference_not_empty now src : (generatePaymentReference now src).1 ≠ "".
Proof. done. Qed.

Lemma valid_amount_nonneg amount : (100 <=? amount)%float = true → nonneg amount.
Proof. by apply leb_nonneg. Qed.

(** X4: funding, verified.  A user funds the wallet with a valid amount
    under a reference that no transaction of the store carries, and
    verifyWalletPayment is then called for that reference while the gateway
    reports success.  Whatever the gateway answered to the initialisation,
    the store then differs from the original one in the caller's wallet
    only (created if it was missing, its balance not negative): its balance
    is the double that [balance + amount] computes, the sum of the two
    rounded to the nearest double, and its log ends with the funding
    transaction, completed.  The response shows the new balance. *)
Theorem fund_then_verify
    (db : Db) (user : IUser) (amount : float) (now : Z) (src : Entropy)
    (p : option InitData) (paid : VerifyData) :
  let r := (generatePaymentReference now src).1 in
  let i := (userWallet db (_id user)).1 in
  let w := (userWallet db (_id user)).2 in
  is_finite amount = true → (100 <=? amount)%float = true →
  nonneg (balance w) → referenceFresh db r →
  vd_status paid = "success" →
  verifyWalletPayment (fundWallet db user amount now src p).1 (Some r) (Some paid)
  = (setWallet db (putWallet (Wallet db) i (fundedWith w amount amount now src)),
     Json (mkVerifiedData (balance w + amount) (vd_amount paid / 100))).
Proof.
  intros r i w Hfin Ha Hb Hfresh Hpaid.
  rewrite fundWallet_spec by done. cbn [fst].
  destruct (located_after_funding db (_id user) amount now src Hfresh)
    as (Hw & Ht & Hle & _).
  rewrite (verifyWalletPayment_settles _ r _ _ _ _ paid
             (paymentReference_not_empty now src) Hpaid Hw Ht eq_refl)
    by (simpl; fold w; apply add_nonneg; [done|by apply valid_amount_nonneg]).
  cbn [Wallet setWallet]. rewrite putWallet_again by done.
  by rewrite settle_funding.
Qed.

Lemma fund_then_verify_witness :
  referenceFresh Sample.shop (generatePaymentReference 1700 Sample.zeros).1
  ∧ verifyWalletPayment
      (fundWallet Sample.shop Sample.alice 500 1700 Sample.zeros None).1
      (Some (generatePaymentReference 1700 Sample.zeros).1) (Some Sample.paid)
    = (setWallet Sample.shop
         [fundedWith Sample.aliceWallet 500 500 1700 Sample.zeros],
       Json (mkVerifiedData (1000 + 500) (50000 / 100))).
Proof.
  assert (referenceFresh Sample.shop (generatePaymentReference 1700 Sample.zeros).1)
    as Hfresh.
  { constructor; [|constructor].
    constructor; [vm_compute; discriminate|constructor]. }
  split; [exact Hfresh|].
  apply (fund_then_verify Sample.shop Sample.alice 500 1700 Sample.zeros None
           Sample.paid).
  - reflexivity.
  - reflexivity.
  - reflexivity.
  - exact Hfresh.
  - reflexivity.
Defined.

(** X5: funding, confirmed by the webhook.  A user funds the wallet with a
    valid amount under a fresh reference; [initializePayment] asks the
    gateway for [amount * 100], and the gateway's signed [charge.success]
    webhook reports the amount it was asked for.  The webhook then
    completes the funding transaction and credits the balance with
    [amount * 100 / 100] as doubles compute it: only the caller's wallet
    differs from the original store, its balance is the double that
    [balance + amount * 100 / 100] computes and its log ends with the
    funding transaction, completed.  The credit need not be the amount of
    the transaction: for the double nearest to 100.003 it is another
    double. *)
Theorem fund_then_webhook
    (secretKey : string) (JSON_stringify : WebhookBody → string)
    (hmac_sha512 : string → string → string) (appUrl : string)
    (db : Db) (user : IUser) (amount : float) (now : Z) (src : Entropy)
    (p : option InitData) (callbackUrl : option string) :
  let r := (generatePaymentReference now src).1 in
  let i := (userWallet db (_id user)).1 in
  let w := (userWallet db (_id user)).2 in
  let asked := initializePaymentRequest appUrl (email user) amount r callbackUrl in
  let body :=
    mkWebhookBody "charge.success" (mkChargeData (ir_reference asked) (ir_amount asked)) in
  let w' := fundedWith w amount (amount * 100 / 100) now src in
  let odd := (100003 / 1000)%float in
  is_finite amount = true → (100 <=? amount)%float = true →
  nonneg (balance w) → referenceFresh db r →
  paystackWebhook secretKey JSON_stringify hmac_sha512
    (fundWallet db user amount now src p).1 body
    (Some (hmac_sha512 secretKey (JSON_stringify body)))
  = (setWallet db (putWallet (Wallet db) i w'), Json ())
  ∧ balance w' = (balance w + amount * 100 / 100)%float
  ∧ is_finite odd = true ∧ (100 <=? odd)%float = true
  ∧ (odd * 100 / 100 =? odd)%float = false.
Proof.
  intros r i w asked body w' odd Hfin Ha Hb Hfresh.
  split; [|by split_and!].
  rewrite fundWallet_spec by done. cbn [fst].
  destruct (located_after_funding db (_id user) amount now src Hfresh)
    as (Hw & Ht & Hle & _).
  rewrite (paystackWebhook_settles _ _ _ _ _ _ _ _ body eq_refl Hw Ht eq_refl).
  - cbn [Wallet setWallet]. rewrite putWallet_again by done.
    by rewrite settle_funding.
  - simpl. fold w. apply add_nonneg; [done|].
    apply div_nonneg; [|done]. apply mul_nonneg; [|done].
    by apply valid_amount_nonneg.
Qed.

Lemma fund_then_webhook_witness :
  referenceFresh Sample.shop (generatePaymentReference 1700 Sample.zeros).1
  ∧ paystackWebhook Sample.secret Sample.stringify Sample.mac
      (fundWallet Sample.shop Sample.alice 500 1700 Sample.zeros None).1
      (Sample.charge (500 * 100))
      (Some (Sample.mac Sample.secret (Sample.stringify (Sample.charge (500 * 100)))))
    = (setWallet Sample.shop
         [fundedWith Sample.aliceWallet 500 (500 * 100 / 100) 1700 Sample.zeros],
       Json ()).
Proof.
  assert (referenceFresh Sample.shop (generatePaymentReference 1700 Sample.zeros).1)
    as Hfresh.
  { constructor; [|constructor].
    constructor; [vm_compute; discriminate|constructor]. }
  split; [exact Hfresh|].
  apply (fund_then_webhook Sample.secret Sample.stringify Sample.mac "https://app"
           Sample.shop Sample.alice 500 1700 Sample.zeros None None).
  - reflexivity.
  - reflexivity.
  - reflexivity.
  - exact Hfresh.
Defined.

(** X6: what fundWallet leaves behind.  With a valid amount the caller's
    wallet (created if missing) gets the pending funding transaction at the
    end of its log, and that is all: no balance changes.  This is so also
    when the gateway cannot initialise the payment, where the answer is
    status 500 and the pending transaction stays.  With an amount below 100
    the request is refused and nothing is written, not even a wallet. *)
Theorem fundWallet_records_pending
    (db : Db) (user : IUser) (amount : float) (now : Z) (src : Entropy)
    (p : option InitData) :
  let i := (userWallet db (_id user)).1 in
  let w := (userWallet db (_id user)).2 in
  let result := fundWallet db user amount now src p in
  (is_finite amount = true → (100 <=? amount)%float = true →
     result.1
     = setWallet db
         (putWallet (Wallet db) i
            (pushTransaction w (fundingTx amount now src pending)))
     ∧ (p = None → result.2 = Fail 500 "Failed to initialize payment.")
     ∧ (∀ k w0, Wallet db !! k = Some w0 →
          ∃ w1, Wallet result.1 !! k = Some w1 ∧ balance w1 = balance w0)
     ∧ balance <$> Wallet result.1 !! i = Some (balance w))
  ∧ ((amount <? 100)%float = true ∨ is_finite amount = false →
       result = (db, Invalid ["Minimum amount is 100"])).
Proof.
  intros i w result. split.
  - intros Hfin Ha. subst result. rewrite fundWallet_spec by done. cbn [fst snd].
    destruct (userWallet db (_id user)) as [i0 w0] eqn:Hu. simpl in i, w. subst i w.
    destruct (userWallet_lookup _ _ _ _ Hu) as [_ Hcase].
    assert ((i0 ≤ length (Wallet db))%nat) as Hle.
    { destruct Hcase as [[_ Hi]|(_ & -> & _)]; [|done].
      apply lookup_lt_Some in Hi. lia. }
    split_and!; [done|by intros ->| |].
    + intros k wk Hk. cbn [Wallet setWallet].
      destruct (decide (k = i0)) as [->|Hne].
      * rewrite putWallet_lookup by done. eexists. split; [done|].
        destruct Hcase as [[_ Hi]|(_ & -> & _)]; [by simplify_eq|].
        apply lookup_lt_Some in Hk. lia.
      * exists wk. split; [|done]. unfold putWallet. case_bool_decide.
        -- by rewrite list_lookup_insert_ne.
        -- by apply lookup_app_l_Some.
    + cbn [Wallet setWallet]. by rewrite putWallet_lookup.
  - intros Hlt. subst result. unfold fundWallet, fundWalletValidator.
    destruct Hlt as [Hlt| ->]; [|done].
    rewrite (ltb_not_leb _ _ Hlt). by destruct (is_finite amount).
Qed.

Lemma fundWallet_records_pending_witness :
  (fundWallet Sample.db0 Sample.alice 500 1700 Sample.zeros None).2
  = Fail 500 "Failed to initialize payment."
  ∧ Wallet (fundWallet Sample.db0 Sample.alice 500 1700 Sample.zeros None).1
    = [Sample.fundedWallet].
Proof.
  destruct (fundWallet_records_pending Sample.db0 Sample.alice 500 1700 Sample.zeros
              None) as [Hvalid _].
  destruct Hvalid as (Hstore & Hfail & _); [reflexivity|reflexivity|].
  split; [by apply Hfail|]. rewrite Hstore. reflexivity.
Defined.

(** ** Refusals of the settling handlers *)

(** X7: verifyWalletPayment writes only on success.  Unless the gateway
    reports "success" for a reference that locates a pending transaction,
    the store is left as it is: a missing or empty reference is answered
    400, a gateway failure 500, another gateway status 400, and a reference
    that no wallet knows 404 even though the gateway reports success.  When
    the store does change, the only wallet that differs is the one located,
    settled with its transaction's own amount. *)
Theorem verifyWalletPayment_writes_only_on_success
    (db : Db) (reference : option string) (paymentData : option VerifyData) :
  let result := verifyWalletPayment db reference paymentData in
  (reference = None ∨ reference = Some "" →
     result = (db, Fail 400 "Reference is required."))
  ∧ (∀ r, reference = Some r → r ≠ "" →
       (paymentData = None → result = (db, Fail 500 "Failed to verify payment."))
       ∧ (∀ pd, paymentData = Some pd →
            (vd_status pd ≠ "success" →
               result = (db, Fail 400 "Payment was not successful."))
            ∧ (vd_status pd = "success" → Wallet_findOne_reference db r = None →
                 result = (db, Fail 404 "Transaction not found."))))
  ∧ (result.1 ≠ db →
       ∃ r pd i w j t,
         reference = Some r ∧ paymentData = Some pd ∧ vd_status pd = "success"
         ∧ Wallet_findOne_reference db r = Some (i, w)
         ∧ findTransaction w r = Some (j, t) ∧ status t = pending
         ∧ result.1 = setWallet db (<[i:=settle w j t (amount t)]> (Wallet db))).
Proof.
  intros result. subst result. split_and!.
  - by intros [->| ->].
  - intros r -> Hr. apply String.eqb_neq in Hr.
    unfold verifyWalletPayment. rewrite Hr. split; [by intros ->|].
    intros pd ->. split.
    + intros Hs. apply String.eqb_neq in Hs. by rewrite Hs.
    + intros Hs Hnone. apply String.eqb_eq in Hs. by rewrite Hs, Hnone.
  - intros Hne.
    destruct (verifyWalletPayment_cases db reference paymentData)
      as [Hsame|(r & i & w & j & t & -> & Hw & Ht & Hs & _ & Hres)]; [done|].
    unfold verifyWalletPayment in Hne.
    destruct (String.eqb r ""); [done|].
    destruct paymentData as [pd|]; [|done].
    destruct (String.eqb (vd_status pd) "success") eqn:Hpd; [|done].
    apply String.eqb_eq in Hpd. by exists r, pd, i, w, j, t.
Qed.

Lemma verifyWalletPayment_writes_only_on_success_witness :
  verifyWalletPayment Sample.funded (Some "WC_0_ffffffff") (Some Sample.paid)
  = (Sample.funded, Fail 404 "Transaction not found.").
Proof.
  destruct (verifyWalletPayment_writes_only_on_success Sample.funded
              (Some "WC_0_ffffffff") (Some Sample.paid)) as (_ & Hr & _).
  destruct (Hr "WC_0_ffffffff" eq_refl) as [_ Hpd]; [discriminate|].
  destruct (Hpd Sample.paid eq_refl) as [_ Hunknown].
  apply Hunknown; [reflexivity|vm_compute; reflexivity].
Defined.

(** X8: a correctly signed webhook is always acknowledged.  Under the
    digest of its body as signature header the webhook is answered with
    status 200, whatever event it carries and whether or not a wallet knows
    its reference, except with status 500 when the new balance fails the
    schema's [min: 0] (it is negative or no number); it never gets a 4xx.  For an event other than
    [charge.success], and for a reference that no wallet knows, nothing
    changes. *)
Theorem signed_webhook_is_acknowledged
    (secretKey : string) (JSON_stringify : WebhookBody → string)
    (hmac_sha512 : string → string → string) (db : Db) (body : WebhookBody) :
  let result :=
    paystackWebhook secretKey JSON_stringify hmac_sha512 db body
      (Some (hmac_sha512 secretKey (JSON_stringify body))) in
  (result.2 = Json () ∨ result = (db, Fail 500 ""))
  ∧ (result.2 = Fail 500 "" →
       ∃ i w, Wallet_findOne_reference db (cd_reference (data body)) = Some (i, w)
              ∧ (0 <=? balance w + cd_amount (data body) / 100)%float = false)
  ∧ (event body ≠ "charge.success" → result = (db, Json ()))
  ∧ (Wallet_findOne_reference db (cd_reference (data body)) = None →
       result = (db, Json ())).
Proof.
  intros result. subst result. unfold paystackWebhook, verifyWebhookSignature.
  rewrite bool_decide_true by done. simpl.
  destruct (String.eqb (event body) "charge.success") eqn:He.
  - destruct (Wallet_findOne_reference db _) as [[i w]|] eqn:Hw.
    + destruct (findTransaction w _) as [[j t]|] eqn:Ht.
      * destruct (status t) eqn:Hs; unfold Wallet_save, Wallet_validate; simpl.
        -- destruct (0 <=? balance w + cd_amount (data body) / 100)%float eqn:Hv;
             simpl.
           ++ split_and!; [by left|done| |done].
              intros Hne. by apply String.eqb_eq in He.
           ++ split_and!; [by right| | |done].
              ** intros _. by exists i, w.
              ** intros Hne. by apply String.eqb_eq in He.
        -- split_and!; [by left|done| |done].
           intros Hne. by apply String.eqb_eq in He.
        -- split_and!; [by left|done| |done].
           intros Hne. by apply String.eqb_eq in He.
      * split_and!; [by left|done| |done].
        intros Hne. by apply String.eqb_eq in He.
    + split_and!; [by left|done|done|done].
  - split_and!; [by left|done|done|done].
Qed.

Lemma signed_webhook_is_acknowledged_witness :
  paystackWebhook Sample.secret Sample.stringify Sample.mac Sample.funded
    (mkWebhookBody "transfer.success" (mkChargeData Sample.fundedRef 50000))
    (Some (Sample.mac Sample.secret
             (Sample.stringify
                (mkWebhookBody "transfer.success" (mkChargeData Sample.fundedRef 50000)))))
  = (Sample.funded, Json ()).
Proof.
  destruct (signed_webhook_is_acknowledged Sample.secret Sample.stringify Sample.mac
              Sample.funded
              (mkWebhookBody "transfer.success" (mkChargeData Sample.fundedRef 50000)))
    as (_ & _ & Hother & _).
  apply Hother. discriminate.
Defined.

(** ** Listing transactions *)

Lemma insertNewest_perm t l : insertNewest t l ≡ₚ t :: l.
Proof.
  induction l as [|x l IH]; simpl; [done|].
  destruct (createdAt x <=? createdAt t)%Z; [done|].
  rewrite IH. apply Permutation_swap.
Qed.

Lemma sortNewestFirst_perm l : sortNewestFirst l ≡ₚ l.
Proof.
  induction l as [|t l IH]; simpl; [done|].
  by rewrite insertNewest_perm, IH.
Qed.

Lemma insertNewest_sorted t l :
  StronglySorted notOlder l → StronglySorted notOlder (insertNewest t l).
Proof.
  induction 1 as [|x l Hl IH Hx]; simpl.
  - repeat constructor.
  - destruct (createdAt x <=? createdAt t)%Z eqn:Hc.
    + apply Z.leb_le in Hc. constructor; [by constructor|].
      constructor; [done|].
      eapply Forall_impl; [exact Hx|]. unfold notOlder. intros y Hy. simpl in Hy. lia.
    + apply Z.leb_gt in Hc. constructor; [done|].
      rewrite insertNewest_perm. constructor; [|done]. unfold notOlder. lia.
Qed.

Lemma sortNewestFirst_sorted l : StronglySorted notOlder (sortNewestFirst l).
Proof.
  induction l as [|t l IH]; simpl; [constructor|by apply insertNewest_sorted].
Qed.

Lemma insertNewest_onDate d t l :
  StronglySorted notOlder l →
  onDate d (insertNewest t l)
  = if decide (createdAt t = d) then t :: onDate d l else onDate d l.
Proof.
  unfold onDate. induction 1 as [|x l Hl IH Hx]; simpl.
  - rewrite filter_cons. destruct (decide (createdAt t = d)); done.
  - destruct (createdAt x <=? createdAt t)%Z eqn:Hc.
    + rewrite (filter_cons _ t). destruct (decide (createdAt t = d)); done.
    + apply Z.leb_gt in Hc. rewrite (filter_cons _ x), IH.
      destruct (decide (createdAt t = d)) as [Ht|Ht]; [|by rewrite (filter_cons _ x)].
      rewrite (filter_cons _ x).
      destruct (decide (createdAt x = d)) as [Hxd|Hxd]; [lia|done].
Qed.

Lemma sortNewestFirst_onDate d l : onDate d (sortNewestFirst l) = onDate d l.
Proof.
  induction l as [|t l IH]; simpl; [done|].
  rewrite insertNewest_onDate by apply sortNewestFirst_sorted.
  rewrite IH. unfold onDate. rewrite (filter_cons _ t).
  destruct (decide (createdAt t = d)); done.
Qed.

(** [slice] between two indices that are in order and not negative. *)
Lemma slice_take_drop {A} (l : list A) (a b : Z) :
  (0 ≤ a)%Z → (a ≤ b)%Z →
  slice l a b = take (Z.to_nat (b - a)) (drop (Z.to_nat a) l).
Proof.
  intros Ha Hab. unfold slice.
  assert ((a <? 0)%Z = false) as -> by lia.
  assert ((b <? 0)%Z = false) as -> by lia.
  destruct (decide (a ≤ Z.of_nat (length l))%Z) as [Hal|Hal].
  - rewrite (Z.min_l a) by done.
    destruct (decide (b ≤ Z.of_nat (length l))%Z) as [Hbl|Hbl].
    + by rewrite (Z.min_l b) by done.
    + rewrite (Z.min_r b) by lia.
      rewrite !take_ge; [done|rewrite length_drop; lia..].
  - rewrite !Z.min_r by lia. rewrite Z.sub_diag. simpl.
    rewrite (drop_ge l (Z.to_nat a)) by lia. by rewrite take_nil.
Qed.

(** X9: getTransactions shows the log newest first, a page at a time, and
    writes nothing but a missing wallet.  The sorted log has the
    transactions of the caller's log, each once, none older before a newer
    one, and those of one date in the order of the log.  For a page and a
    limit of at least one (absent or zero they are 1 and 20), the page shown
    is the next [limit] entries of the sorted log after the pages before it,
    so that the page and what follows it make up what followed the pages
    before; the total is the length of the log.  The store is left as
    getBalance leaves it: a wallet is created if the caller had none, and
    the stored log is not reordered. *)
Theorem getTransactions_pages_newest_first
    (db : Db) (user : IUser) (page limit : option Z) :
  let p := orDefault page 1 in
  let n := orDefault limit 20 in
  let log := transactions (userWallet db (_id user)).2 in
  let sorted := sortNewestFirst log in
  let shown := take (Z.to_nat n) (drop (Z.to_nat ((p - 1) * n)) sorted) in
  (1 ≤ p)%Z → (1 ≤ n)%Z →
  getTransactions db user page limit
  = ((getBalance db user).1,
     Json (formatPaginatedResponse shown (Z.of_nat (length log)) p n))
  ∧ sorted ≡ₚ log
  ∧ StronglySorted notOlder sorted
  ∧ (∀ d, onDate d sorted = onDate d log)
  ∧ shown ++ drop (Z.to_nat (p * n)) sorted = drop (Z.to_nat ((p - 1) * n)) sorted
  ∧ (length shown ≤ Z.to_nat n)%nat.
Proof.
  intros p n log sorted shown Hp Hn. split_and!.
  - unfold getTransactions, getBalance. rewrite getOrCreateWallet_userWallet.
    fold p n. cbn [fst snd]. f_equal. f_equal. fold log. fold sorted.
    rewrite slice_take_drop by nia. subst shown. f_equal. f_equal. f_equal. lia.
  - apply sortNewestFirst_perm.
  - apply sortNewestFirst_sorted.
  - intros d. apply sortNewestFirst_onDate.
  - subst shown.
    rewrite <- (take_drop (Z.to_nat n) (drop (Z.to_nat ((p - 1) * n)) sorted)) at 2.
    f_equal. rewrite drop_drop. f_equal. nia.
  - subst shown. rewrite length_take. lia.
Qed.

Lemma getTransactions_pages_newest_first_witness :
  getTransactions Sample.boxed Sample.bob (Some 0%Z) None
  = (setWallet Sample.boxed [newWallet (_id Sample.bob)],
     Json (mkPaginated [] 0 1 20 (Some 0%Z))).
Proof.
  destruct (getTransactions_pages_newest_first Sample.boxed Sample.bob (Some 0%Z) None)
    as [Hresult _]; [vm_compute; discriminate..|].
  rewrite Hresult. vm_compute. reflexivity.
Defined.

Lemma ceiling_bounds (total limit : Z) :
  (1 ≤ limit)%Z →
  let n := Qceiling (inject_Z total / inject_Z limit) in
  (total ≤ n * limit)%Z ∧ ((n - 1) * limit < total)%Z.
Proof.
  intros Hl n.
  assert (0 < inject_Z limit)%Q as Hpos.
  { change 0%Q with (inject_Z 0). rewrite <- Zlt_Qlt. lia. }
  assert (inject_Z total == inject_Z total / inject_Z limit * inject_Z limit)%Q as Hx.
  { field. lra. }
  split.
  - rewrite Zle_Qle, inject_Z_mult, Hx.
    apply Qmult_le_compat_r; [apply Qle_ceiling|lra].
  - rewrite Zlt_Qlt, inject_Z_mult, Hx.
    apply Qmult_lt_compat_r; [done|apply Qceiling_lt].
Qed.

(** X10: the page count of formatPaginatedResponse.  For a limit of at
    least one and a total that is not negative, [pages] is the least number
    of pages of [limit] entries that hold [total] entries; a page [p ≥ 1] cut
    by [slice] from a list of [total] entries is empty exactly when [p] is
    beyond [pages].  For a limit of zero there is no page count. *)
Theorem formatPaginatedResponse_pages
    {A B : Type} (data : list A) (total page limit : Z) :
  let r := formatPaginatedResponse data total page limit in
  (limit = 0%Z → pg_pages r = None)
  ∧ ((1 ≤ limit)%Z → (0 ≤ total)%Z →
     ∃ n, pg_pages r = Some n
          ∧ (0 ≤ n)%Z ∧ (total ≤ n * limit)%Z
          ∧ (∀ m, (0 ≤ m)%Z → (total ≤ m * limit)%Z → (n ≤ m)%Z)
          ∧ ∀ (l : list B) (p : Z),
              Z.of_nat (length l) = total → (1 ≤ p)%Z →
              (slice l ((p - 1) * limit) (p * limit) = [] ↔ (n < p)%Z)).
Proof.
  intros r. subst r. unfold formatPaginatedResponse. simpl. split.
  - by intros ->.
  - intros Hl Ht. assert ((limit =? 0)%Z = false) as -> by lia.
    destruct (ceiling_bounds total limit Hl) as [Hup Hlow].
    set (n := Qceiling (inject_Z total / inject_Z limit)) in *.
    exists n. split_and!; [done|nia|done|intros m Hm Hmt; nia|].
    intros l p Hlen Hp. rewrite slice_take_drop by nia.
    replace (Z.to_nat (p * limit - (p - 1) * limit)) with (Z.to_nat limit) by lia.
    destruct (decide (length l ≤ Z.to_nat ((p - 1) * limit))%nat) as [Hge|Hlt].
    + rewrite drop_ge by done. rewrite take_nil. split; [intros _; nia|done].
    + split; [|intros Hnp; nia].
      intros Hnil. exfalso.
      assert (length (take (Z.to_nat limit)
                        (drop (Z.to_nat ((p - 1) * limit)) l)) = 0%nat) as Hz
        by (by rewrite Hnil).
      rewrite length_take, length_drop in Hz. lia.
Qed.

Lemma formatPaginatedResponse_pages_witness :
  pg_pages (formatPaginatedResponse [1%nat; 2%nat] 45 3 20) = Some 3%Z
  ∧ (slice (replicate 45 true) ((3 - 1) * 20) (3 * 20) = [] ↔ (3 < 3)%Z).
Proof.
  destruct (@formatPaginatedResponse_pages nat bool [1%nat; 2%nat] 45 3 20)
    as [_ Hpages].
  destruct Hpages as (n & Hn & _ & _ & _ & Hslice); [lia..|].
  assert (n = 3%Z) as -> by (vm_compute in Hn; congruence).
  split; [exact Hn|].
  apply (Hslice (replicate 45 true) 3%Z); [reflexivity|lia].
Defined.

(** ** Random codes and references *)

Lemma hexByte_digits b :
  ∃ c1 c2, hexByte b = String c1 (String c2 EmptyString)
           ∧ isLowerHexDigit c1 = true ∧ isLowerHexDigit c2 = true
           ∧ isUpperHexDigit (upperChar c1) = true
           ∧ isUpperHexDigit (upperChar c2) = true
           ∧ byteOfHex c1 c2 = Some b
           ∧ byteOfHex (upperChar c1) (upperChar c2) = Some b.
Proof. eexists _, _. split; [reflexivity|]. destruct b; vm_compute; done. Qed.

Lemma toHex_cons b bs :
  ∃ c1 c2, toHex (b :: bs) = String c1 (String c2 (toHex bs))
           ∧ isLowerHexDigit c1 = true ∧ isLowerHexDigit c2 = true
           ∧ isUpperHexDigit (upperChar c1) = true
           ∧ isUpperHexDigit (upperChar c2) = true
           ∧ byteOfHex c1 c2 = Some b
           ∧ byteOfHex (upperChar c1) (upperChar c2) = Some b.
Proof.
  destruct (hexByte_digits b) as (c1 & c2 & Hb & H).
  exists c1, c2. split; [|done]. simpl. by rewrite Hb.
Qed.

Lemma toHex_format bs :
  String.length (toHex bs) = (2 * length bs)%nat
  ∧ forallb isLowerHexDigit (list_ascii_of_string (toHex bs)) = true
  ∧ String.length (toUpperCase (toHex bs)) = (2 * length bs)%nat
  ∧ forallb isUpperHexDigit (list_ascii_of_string (toUpperCase (toHex bs))) = true.
Proof.
  induction bs as [|b bs (IH1 & IH2 & IH3 & IH4)]; [done|].
  destruct (toHex_cons b bs) as (c1 & c2 & -> & L1 & L2 & U1 & U2 & _).
  simpl. rewrite IH1, IH2, IH3, IH4, L1, L2, U1, U2. simpl.
  split_and!; try done; lia.
Qed.

Lemma toHex_inj l1 l2 : toHex l1 = toHex l2 → l1 = l2.
Proof.
  revert l2. induction l1 as [|b1 l1 IH]; intros [|b2 l2] Heq.
  - done.
  - destruct (toHex_cons b2 l2) as (c1 & c2 & E & _). by rewrite E in Heq.
  - destruct (toHex_cons b1 l1) as (c1 & c2 & E & _). by rewrite E in Heq.
  - destruct (toHex_cons b1 l1) as (c1 & c2 & E1 & _ & _ & _ & _ & D1 & _).
    destruct (toHex_cons b2 l2) as (d1 & d2 & E2 & _ & _ & _ & _ & D2 & _).
    rewrite E1, E2 in Heq. injection Heq as -> -> Hrest.
    f_equal; [congruence|by apply IH].
Qed.

Lemma toUpperCase_toHex_inj l1 l2 :
  toUpperCase (toHex l1) = toUpperCase (toHex l2) → l1 = l2.
Proof.
  revert l2. induction l1 as [|b1 l1 IH]; intros [|b2 l2] Heq.
  - done.
  - destruct (toHex_cons b2 l2) as (c1 & c2 & E & _). by rewrite E in Heq.
  - destruct (toHex_cons b1 l1) as (c1 & c2 & E & _). by rewrite E in Heq.
  - destruct (toHex_cons b1 l1) as (c1 & c2 & E1 & _ & _ & _ & _ & _ & D1).
    destruct (toHex_cons b2 l2) as (d1 & d2 & E2 & _ & _ & _ & _ & _ & D2).
    rewrite E1, E2 in Heq. simpl in Heq. injection Heq as H1 H2 Hrest.
    f_equal; [rewrite H1, H2 in D1; congruence|by apply IH].
Qed.

Lemma generateRedemptionCode_formatted src :
  codeFormatted (Some (generateRedemptionCode src).1).
Proof.
  exists (generateRedemptionCode src).1. split; [done|].
  unfold generateRedemptionCode, randomBytes. cbn [fst].
  destruct (toHex_format (map src (seq 0 6))) as (_ & _ & Hlen & Hdigits).
  split; [by rewrite Hlen|done].
Qed.

(** X12: a redemption code is the six random bytes, written in twelve
    characters of 0-9 and A-F, and nothing is lost: two draws give the same
    code exactly when they give the same six bytes.  The code is never the
    empty string, so the save hook never replaces it. *)
Theorem redemption_code_encodes_the_bytes (src1 src2 : Entropy) :
  String.length (generateRedemptionCode src1).1 = 12%nat
  ∧ forallb isUpperHexDigit (list_ascii_of_string (generateRedemptionCode src1).1)
    = true
  ∧ ((generateRedemptionCode src1).1 = (generateRedemptionCode src2).1
     ↔ (randomBytes src1 6).1 = (randomBytes src2 6).1)
  ∧ (∀ b src, redemptionCode b = Some (generateRedemptionCode src1).1 →
       preSave b src = (b, src)).
Proof.
  destruct (generateRedemptionCode_formatted src1) as (s & [= <-] & Hlen & Hdigits).
  split_and!; [done..| |].
  - unfold generateRedemptionCode, randomBytes. cbn [fst]. split.
    + apply toUpperCase_toHex_inj.
    + by intros ->.
  - intros b src Hb. apply preSave_truthy. by rewrite Hb.
Qed.

Lemma codes_insert (l : list IGiftBox) i b b' :
  l !! i = Some b → redemptionCode b' = redemptionCode b →
  redemptionCode <$> <[i:=b']> l = redemptionCode <$> l.
Proof.
  intros Hi Hc. rewrite list_fmap_insert, Hc.
  apply list_insert_id. by rewrite list_lookup_fmap, Hi.
Qed.

(** A handler leaves the codes of the boxes as they are, or adds one box with
    a code that was just drawn. *)
Lemma handle_codes key str mac ts tn db req :
  boxesOk db →
  let codes d := redemptionCode <$> GiftBox d in
  codes (handle key str mac ts tn db req) = codes db
  ∨ ∃ src, codes (handle key str mac ts tn db req)
           = codes db ++ [Some (generateRedemptionCode src).1].
Proof.
  intros Hok codes. subst codes. cbv beta.
  destruct req as [user|user amount now src p|r p|body sig|user body now
                  |user body now src|user code now src];
    cbn [handle].
  - left. unfold getBalance.
    destruct (getOrCreateWallet db (_id user)) as [[db1 i] w] eqn:Hg.
    simpl. by rewrite (getOrCreateWallet_GiftBox _ _ _ _ _ Hg).
  - left. unfold fundWallet. destruct (fundWalletValidator amount); [|done].
    destruct (getOrCreateWallet db (_id user)) as [[db1 i] w] eqn:Hg.
    apply getOrCreateWallet_GiftBox in Hg. destruct p; simpl; by rewrite Hg.
  - left.
    by destruct (verifyWalletPayment_cases db r p)
      as [->|(? & ? & ? & ? & ? & _ & _ & _ & _ & _ & ->)].
  - left.
    by destruct (paystackWebhook_cases key str mac db body sig)
      as [->|(? & ? & ? & ? & _ & _ & _ & _ & _ & _ & ->)].
  - left. by rewrite purchaseGift_GiftBox.
  - destruct (addToGiftBox_cases ts tn db user body now src Hok)
      as [[-> _]|(gid & db1 & i & b & src1 & _ & Hfc & Hres)]; [by left|].
    destruct (findOrCreateGiftBox_spec _ _ _ _ _ _ _ _ Hok Hfc)
      as (_ & Hi & _ & _ & _ & Hcase).
    assert (redemptionCode <$> GiftBox (addToGiftBox ts tn db user body now src).1
            = redemptionCode <$> GiftBox db1) as ->.
    { destruct Hres as [[-> _]|(items & _ & _ & ->)]; [done|]. simpl.
      by eapply codes_insert. }
    destruct Hcase as [(_ & -> & _)|(_ & _ & -> & ->)]; [by left|].
    right. exists src. by rewrite fmap_app.
  - left.
    destruct (redeemGiftBox_cases db user code now src Hok)
      as [[-> _]|(i & b & Hf & _ & ->)]; [done|].
    eapply codes_insert; [by eapply list_find_lookup|done].
Qed.

(** X11: in every store that the handlers reach from one whose boxes are
    well formed and carry generated codes, every box carries a code of
    twelve characters of 0-9 and A-F; and a single request leaves the codes
    of the boxes as they were or adds one freshly drawn code at the end: no
    handler ever changes or removes the code of a box. *)
Theorem redemption_codes_keep_their_format
    (secretKey : string) (JSON_stringify : WebhookBody → string)
    (hmac_sha512 : string → string → string)
    (Number_toString : float → string) (String_toNumber : string → float)
    (db : Db) (reqs : list Request)
    (Hboxes : boxesOk db) (Hcodes : codesFormatted db) :
  let run :=
    serve secretKey JSON_stringify hmac_sha512 Number_toString String_toNumber in
  codesFormatted (run db reqs)
  ∧ ∀ req,
      let codes d := redemptionCode <$> GiftBox d in
      let db' := run db reqs in
      let db'' :=
        handle secretKey JSON_stringify hmac_sha512 Number_toString String_toNumber
          db' req in
      codes db'' = codes db'
      ∨ ∃ src, codes db'' = codes db' ++ [Some (generateRedemptionCode src).1].
Proof.
  intros run. subst run. split.
  - revert db Hboxes Hcodes. induction reqs as [|req reqs IH]; intros db Hok Hc; [done|].
    simpl. apply IH; [by apply handle_boxes|].
    unfold codesFormatted in *.
    destruct (handle_codes secretKey JSON_stringify hmac_sha512 Number_toString
                String_toNumber db req Hok)
      as [->|[src ->]]; [done|].
    apply Forall_app. split; [done|].
    constructor; [apply generateRedemptionCode_formatted|constructor].
  - intros req. apply handle_codes. by apply serve_boxes.
Qed.

Lemma redemption_codes_keep_their_format_witness :
  codesFormatted
    (serve Sample.secret Sample.stringify Sample.mac Sample.numberToString
       Sample.stringToNumber Sample.boxed
       [AddToGiftBox Sample.bob (Sample.cardBody Sample.teaId 1) 2000 Sample.zeros;
        RedeemGiftBox (Some Sample.bob) Sample.boxCode 2100 Sample.zeros]).
Proof.
  apply (redemption_codes_keep_their_format Sample.secret Sample.stringify Sample.mac
           Sample.numberToString Sample.stringToNumber Sample.boxed).
  - split_and!; vm_compute; repeat constructor. by intros ?%elem_of_nil.
  - constructor; [|constructor].
    exists Sample.boxCode. split_and!; reflexivity.
Defined.

Lemma length_append (a s : string) :
  String.length (a +:+ s) = (String.length a + String.length s)%nat.
Proof. induction a as [|c a IH]; simpl; [done|by rewrite IH]. Qed.

Lemma append_inj_prefix (p x y : string) : p +:+ x = p +:+ y → x = y.
Proof.
  induction p as [|c p IH]; [done|].
  intros Heq. apply IH. by injection Heq.
Qed.

Lemma append_inj_suffix (a b s t : string) :
  String.length s = String.length t → a +:+ s = b +:+ t → a = b ∧ s = t.
Proof.
  intros Hlen Heq.
  assert (String.length a = String.length b) as Hab.
  { apply (f_equal String.length) in Heq.
    rewrite !length_append in Heq. lia. }
  revert b Heq Hab. induction a as [|c a IH]; intros [|d b] Heq Hab; try done.
  simpl in Heq, Hab. injection Heq as -> Heq.
  destruct (IH b Heq) as [-> ->]; [lia|done].
Qed.

(** X13: the reference of a funding request is "WC_", the clock in
    milliseconds, "_" and the four random bytes in hexadecimal.  Two requests
    get the same reference exactly when they are served in the same
    millisecond and draw the same four bytes; and a funding reference is
    never the reference of a purchase ("GIFT_...") or of a redemption
    ("REDEEM_..."). *)
Theorem payment_reference_identifies_the_draw
    (now1 now2 : Z) (src1 src2 : Entropy) :
  ((generatePaymentReference now1 src1).1 = (generatePaymentReference now2 src2).1
   ↔ now1 = now2 ∧ (randomBytes src1 4).1 = (randomBytes src2 4).1)
  ∧ (∀ t, (generatePaymentReference now1 src1).1 ≠ "GIFT_" +:+ t)
  ∧ (∀ c, (generatePaymentReference now1 src1).1 ≠ "REDEEM_" +:+ c)
  ∧ (generatePaymentReference now1 src1).2 = (randomBytes src1 4).2.
Proof.
  unfold generatePaymentReference, randomBytes. cbn [fst snd]. split_and!.
  - split.
    + intros Heq. apply append_inj_prefix in Heq.
      apply (append_inj_suffix (pretty now1) (pretty now2)) in Heq as [Hnow Hhex].
      * split; [by apply pretty_Z_inj|].
        apply append_inj_prefix in Hhex. by apply toHex_inj.
      * rewrite !length_append.
        destruct (toHex_format (map src1 (seq 0 4))) as (-> & _).
        by destruct (toHex_format (map src2 (seq 0 4))) as (-> & _).
    + by intros [-> ->].
  - intros t. simpl. discriminate.
  - intros c. simpl. discriminate.
  - done.
Qed.

(** ** Gift boxes: creation, refusals and the way to redemption *)

(** The save of a new box whose generated code no box has. *)
Lemma GiftBox_save_created db user body src :
  codeFresh db (generateRedemptionCode src).1 →
  GiftBox_save db (length (GiftBox db))
    (mkGiftBox (castId (bb_cardId body)) (castId (bb_websiteId body)) (_id user)
       (bb_recipientEmail body) [] false None None) src
  = Some (setGiftBox db (GiftBox db ++ [createdBox user body src]),
          createdBox user body src, (generateRedemptionCode src).2).
Proof.
  intros Hfresh. unfold GiftBox_save, preSave, createdBox in *.
  destruct (generateRedemptionCode src) as [c src'] eqn:Hg.
  cbn [redemptionCode truthy negb fst snd] in *.
  rewrite delete_past_end by done.
  rewrite bool_decide_false.
  - by rewrite bool_decide_false by lia.
  - intros (b & Hin & Hb)%Exists_exists. simpl in Hb.
    unfold codeFresh in Hfresh. rewrite Forall_forall in Hfresh.
    by apply (Hfresh b).
Qed.

(** The save of a new box whose generated code a box already has. *)
Lemma GiftBox_save_clash db user body src :
  ¬ codeFresh db (generateRedemptionCode src).1 →
  GiftBox_save db (length (GiftBox db))
    (mkGiftBox (castId (bb_cardId body)) (castId (bb_websiteId body)) (_id user)
       (bb_recipientEmail body) [] false None None) src
  = None.
Proof.
  intros Hclash. unfold GiftBox_save, preSave.
  destruct (generateRedemptionCode src) as [c src'] eqn:Hg.
  cbn [redemptionCode truthy negb fst snd] in *.
  rewrite delete_past_end by done.
  rewrite bool_decide_true; [done|].
  unfold codeFresh in Hclash. apply not_Forall_Exists in Hclash; [|apply _].
  eapply Exists_impl; [exact Hclash|].
  simpl. intros b Hb. by destruct (decide (redemptionCode b = Some c)).
Qed.

Lemma findOwned_Some docs id uid a :
  findOwned docs id uid = Some a → ∃ k, castId id = Some k ∧ docs !! k = Some a.
Proof.
  unfold findOwned. destruct (castId id) as [k|]; [|done].
  destruct (docs !! k) as [a0|] eqn:Hk; [|done].
  destruct (String.eqb (owner a0) uid); [|done].
  intros [= <-]. by exists k.
Qed.

Lemma linkGiftBox_owned docs id uid i :
  is_Some (findOwned docs id uid) →
  linkedTo docs (linkGiftBox docs (castId id) i) (castId id) i.
Proof.
  intros [a (k & Hid & Hk)%findOwned_Some]. exists k, a. rewrite Hid.
  split_and!; [done..|]. unfold linkGiftBox. by rewrite Hk.
Qed.

(** The created box is the open box of its pair. *)
Lemma GiftBox_findOpen_created db user body src :
  GiftBox_findOpen db (_id user) (bb_cardId body) (bb_websiteId body) = None →
  ∀ db', GiftBox db' = GiftBox db ++ [createdBox user body src] →
  GiftBox_findOpen db' (_id user) (bb_cardId body) (bb_websiteId body)
  = Some (length (GiftBox db), createdBox user body src).
Proof.
  intros Hnone db' Hboxes. unfold GiftBox_findOpen in *. rewrite Hboxes.
  destruct (truthy (bb_cardId body));
    rewrite list_find_app_r by done; simpl;
    rewrite decide_True by done; simpl; do 2 f_equal; lia.
Qed.

(** What the creation of a box leaves in the store. *)
Lemma findOrCreateGiftBox_created db user body src :
  targetOwned db user body →
  GiftBox_findOpen db (_id user) (bb_cardId body) (bb_websiteId body) = None →
  codeFresh db (generateRedemptionCode src).1 →
  ∃ db1,
    findOrCreateGiftBox db user body src
    = Some (db1, length (GiftBox db), createdBox user body src,
            (generateRedemptionCode src).2)
    ∧ GiftBox db1 = GiftBox db ++ [createdBox user body src]
    ∧ Wallet db1 = Wallet db ∧ Gift db1 = Gift db
    ∧ (if truthy (bb_cardId body)
       then linkedTo (Card db) (Card db1) (castId (bb_cardId body)) (length (GiftBox db))
            ∧ Website db1 = Website db
       else if truthy (bb_websiteId body)
       then linkedTo (Website db) (Website db1) (castId (bb_websiteId body))
              (length (GiftBox db))
            ∧ Card db1 = Card db
       else Card db1 = Card db ∧ Website db1 = Website db).
Proof.
  intros [Hcard Hsite] Hnone Hfresh. unfold findOrCreateGiftBox.
  rewrite Hnone, GiftBox_save_created by done.
  eexists. split; [reflexivity|].
  destruct (truthy (bb_cardId body)); [|destruct (truthy (bb_websiteId body))];
    simpl; split_and!; try done; apply (linkGiftBox_owned _ _ (_id user)); auto.
Qed.

Lemma GiftBox_validate_spec b :
  GiftBox_validate b = true →
  Forall (λ it, quantity it = None
                ∨ ∃ x, quantity it = Some x ∧ (1 <=? x)%float = true) (gifts b).
Proof.
  unfold GiftBox_validate. intros Hv. apply Forall_forall. intros it Hin.
  rewrite forallb_forall in Hv. specialize (Hv it). rewrite <- list_elem_of_In in Hv.
  specialize (Hv Hin). destruct (quantity it) as [x|]; [right|by left].
  by exists x.
Qed.

(** X14: what a successful addToGiftBox guarantees.  When the call answers
    with a box, the request passed the validator and names a card or a
    website, every target it names belongs to the caller, the id of the
    request casts to an active gift of the catalog, and the box of the
    answer is stored at the identity of the answer, is open, was sent by the
    caller and has only line items whose quantity is [null] or a number
    that is at least one (what the schema's [min: 1] lets pass).  The call
    has charged nobody and has left the catalog alone: adding to a gift box
    moves no money and no stock. *)
Theorem addToGiftBox_success_requires
    (Number_toString : float → string) (String_toNumber : string → float)
    (db : Db) (user : IUser) (body : BoxBody) (now : Z) (src : Entropy)
    (view : BoxView) :
  boxesOk db →
  (addToGiftBox Number_toString String_toNumber db user body now src).2 = Json view →
  let db' := (addToGiftBox Number_toString String_toNumber db user body now src).1 in
  addToGiftBoxValidator body = []
  ∧ truthy (bb_cardId body) || truthy (bb_websiteId body) = true
  ∧ targetOwned db user body
  ∧ (∃ giftId gift, castObjectId (bb_giftId body) = Some giftId
                    ∧ Gift db !! giftId = Some gift ∧ isActive gift = true)
  ∧ GiftBox db' !! box_id view = Some (box view)
  ∧ senderId (box view) = _id user
  ∧ isRedeemed (box view) = false
  ∧ Forall (λ it, quantity it = None
                  ∨ ∃ x, quantity it = Some x ∧ (1 <=? x)%float = true)
      (gifts (box view))
  ∧ populated view = populate db (box view)
  ∧ Wallet db' = Wallet db
  ∧ Gift db' = Gift db.
Proof.
  intros Hok Hview db'. subst db'.
  assert (addToGiftBoxValidator body = []
          ∧ truthy (bb_cardId body) || truthy (bb_websiteId body) = true
          ∧ targetOwned db user body
          ∧ ∃ giftId gift, castObjectId (bb_giftId body) = Some giftId
                           ∧ Gift db !! giftId = Some gift ∧ isActive gift = true)
    as (Hvalid & Htarget & Howned & Hgift).
  { unfold addToGiftBox in Hview.
    destruct (addToGiftBoxValidator body); [|done].
    destruct (negb (truthy (bb_cardId body)) && negb (truthy (bb_websiteId body)))
      eqn:Ht; [done|].
    destruct (castObjectId (bb_giftId body)) as [giftId|]; [|done].
    destruct (Gift db !! giftId) as [gift|] eqn:Hg; [|done].
    destruct (isActive gift) eqn:Ha; [|done]. simpl in Hview.
    destruct (truthy (bb_cardId body)) eqn:Hc; simpl in Hview, Ht.
    - destruct (castFails (bb_cardId body)); [done|].
      case_bool_decide as Hcard; [|done]. simpl in Hview.
      destruct (truthy (bb_websiteId body)) eqn:Hw; simpl in Hview.
      + destruct (castFails (bb_websiteId body)); [done|].
        case_bool_decide as Hsite; [|done].
        split_and!; [done..| |by exists giftId, gift].
        split; intros; first [done|congruence].
      + split_and!; [done..| |by exists giftId, gift].
        split; intros; first [done|congruence].
    - destruct (truthy (bb_websiteId body)) eqn:Hw; [|done]. simpl in Hview.
      destruct (castFails (bb_websiteId body)); [done|].
      case_bool_decide as Hsite; [|done].
      split_and!; [done..| |by exists giftId, gift].
      split; intros; first [done|congruence]. }
  pose proof (addToGiftBox_Wallet Number_toString String_toNumber db user body now src)
    as HW.
  pose proof (addToGiftBox_Gift Number_toString String_toNumber db user body now src)
    as HGift.
  destruct (addToGiftBox_cases Number_toString String_toNumber db user body now src Hok)
    as [[_ Hno]|(gid & db1 & i & b & src1 & _ & Hfc & Hres)]; [by destruct (Hno view)|].
  destruct (findOrCreateGiftBox_spec _ _ _ _ _ _ _ _ Hok Hfc)
    as (Hok1 & Hi & Hopen & _ & HG & Hcase).
  destruct Hres as [[Hres _]|(items & _ & Hv & Hres)];
    rewrite Hres in Hview, HW, HGift |- *; [done|].
  simpl in Hview. injection Hview as <-. simpl in *.
  split_and!; try done.
  - apply list_lookup_insert_eq. by eapply lookup_lt_Some.
  - destruct Hcase as [(Hf & _)|(_ & _ & _ & ->)]; [|done].
    by destruct (GiftBox_findOpen_Some _ _ _ _ _ _ Hf) as (_ & ? & _).
  - by apply (GiftBox_validate_spec (setGifts b items)).
  - unfold populate. by rewrite HG.
Qed.

Lemma addToGiftBox_success_requires_witness :
  targetOwned Sample.db0 Sample.alice (Sample.cardBody Sample.coffeeId 2)
  ∧ Wallet Sample.boxed = Wallet Sample.db0
  ∧ Gift Sample.boxed = Gift Sample.db0.
Proof.
  destruct (addToGiftBox_success_requires Sample.numberToString Sample.stringToNumber
              Sample.db0 Sample.alice
              (Sample.cardBody Sample.coffeeId 2) 1900 Sample.ramp
              (mkBoxView 0 Sample.coffeeBox
                 (populate Sample.db0 Sample.coffeeBox)))
    as (_ & _ & Howned & _ & _ & _ & _ & _ & _ & Hw & Hg).
  - apply boxesOk_initial.
  - vm_compute; reflexivity.
  - split_and!; [exact Howned|exact Hw|exact Hg].
Defined.

(** X15: the quantity of addToGiftBox is not validated before the box is
    created.  A valid request for an active gift and an owned target, on a
    pair that has no open box, with a quantity that Mongoose cannot cast to
    a number or casts to a number below one: the box is created with a
    fresh code and linked to the card (or, without a card, to the website),
    then the save of the line item is refused (by the cast, or by the
    schema's [min: 1]) and the call answers 500.  The store keeps the new
    box, empty and open, and it is the box that the next request of the
    pair finds; no wallet and no gift has changed.  Had the drawn code been
    the code of another box, the creation itself would have failed, with the
    same answer and the store unchanged. *)
Theorem addToGiftBox_rejected_quantity_leaves_empty_box
    (Number_toString : float → string) (String_toNumber : string → float)
    (db : Db) (user : IUser) (body : BoxBody) (now : Z) (src : Entropy)
    (giftId : ObjectId) (gift : IGift) :
  addToGiftBoxValidator body = [] →
  truthy (bb_cardId body) || truthy (bb_websiteId body) = true →
  castObjectId (bb_giftId body) = Some giftId →
  Gift db !! giftId = Some gift → isActive gift = true →
  targetOwned db user body →
  GiftBox_findOpen db (_id user) (bb_cardId body) (bb_websiteId body) = None →
  (∀ q, castNumber String_toNumber (default (JNumber 1) (bb_quantity body)) = Some q →
        quantityValid q = false) →
  let result := addToGiftBox Number_toString String_toNumber db user body now src in
  let n := length (GiftBox db) in
  (codeFresh db (generateRedemptionCode src).1 →
     result.2 = Fail 500 "Failed to add gift to box."
     ∧ GiftBox result.1 = GiftBox db ++ [createdBox user body src]
     ∧ GiftBox_findOpen result.1 (_id user) (bb_cardId body) (bb_websiteId body)
       = Some (n, createdBox user body src)
     ∧ (if truthy (bb_cardId body)
        then linkedTo (Card db) (Card result.1) (castId (bb_cardId body)) n
             ∧ Website result.1 = Website db
        else linkedTo (Website db) (Website result.1) (castId (bb_websiteId body)) n
             ∧ Card result.1 = Card db)
     ∧ Wallet result.1 = Wallet db ∧ Gift result.1 = Gift db)
  ∧ (¬ codeFresh db (generateRedemptionCode src).1 →
     result = (db, Fail 500 "Failed to add gift to box.")).
Proof.
  intros Hvalid Htarget Hcast Hgift Hactive Howned Hnone Hq result n. subst result n.
  rewrite (addToGiftBox_checked _ _ db user body now src giftId gift) by done.
  split.
  - intros Hfresh.
    destruct (findOrCreateGiftBox_created db user body src Howned Hnone Hfresh)
      as (db1 & -> & Hboxes & HW & HG & Hlink).
    match goal with
    | |- context [match addGift ?a ?b ?c ?d ?e ?f ?g with _ => _ end] =>
        destruct (addGift a b c d e f g) as [items|] eqn:Hitems
    end.
    + assert (GiftBox_validate (setGifts (createdBox user body src) items) = false)
        as ->.
      { unfold addGift in Hitems. simpl in Hitems.
        destruct (castNumber String_toNumber _) as [q|] eqn:Hc; [|done].
        injection Hitems as <-. unfold GiftBox_validate. simpl. by rewrite (Hq q). }
      simpl negb. cbv iota. cbn [fst snd].
      split_and!; [done..|by eapply GiftBox_findOpen_created| |done|done].
      destruct (truthy (bb_cardId body)); [done|].
      simpl in Htarget. by rewrite Htarget in Hlink.
    + cbn [fst snd].
      split_and!; [done..|by eapply GiftBox_findOpen_created| |done|done].
      destruct (truthy (bb_cardId body)); [done|].
      simpl in Htarget. by rewrite Htarget in Hlink.
  - intros Hclash. unfold findOrCreateGiftBox.
    by rewrite Hnone, GiftBox_save_clash.
Qed.

Lemma addToGiftBox_rejected_quantity_leaves_empty_box_witness :
  (addToGiftBox Sample.numberToString Sample.stringToNumber Sample.db0 Sample.alice
     (Sample.cardBody Sample.coffeeId 0) 1900 Sample.ramp).2
  = Fail 500 "Failed to add gift to box."
  ∧ GiftBox (addToGiftBox Sample.numberToString Sample.stringToNumber Sample.db0
               Sample.alice (Sample.cardBody Sample.coffeeId 0) 1900 Sample.ramp).1
    = [createdBox Sample.alice (Sample.cardBody Sample.coffeeId 0) Sample.ramp].
Proof.
  destruct (addToGiftBox_rejected_quantity_leaves_empty_box Sample.numberToString
              Sample.stringToNumber Sample.db0 Sample.alice
              (Sample.cardBody Sample.coffeeId 0) 1900 Sample.ramp Sample.coffeeId
              Sample.coffee)
    as [Hfresh _].
  - vm_compute; reflexivity.
  - reflexivity.
  - vm_compute; reflexivity.
  - vm_compute; reflexivity.
  - reflexivity.
  - split; [intros _; vm_compute; eexists; reflexivity|intros [=]].
  - vm_compute; reflexivity.
  - intros q Hq. vm_compute in Hq. injection Hq as <-. reflexivity.
  - destruct Hfresh as (Hfail & Hboxes & _); [constructor|].
    split; [exact Hfail|exact Hboxes].
Defined.

Lemma forallb_insert_at {A} (f : A → bool) (l : list A) k e x :
  forallb f l = true → l !! k = Some e → forallb f (<[k:=x]> l) = f x.
Proof.
  revert k. induction l as [|y l IH]; intros [|k] Hall Hk; try done;
    simpl in *; apply andb_prop in Hall as [Hy Hl].
  - by rewrite Hl, andb_true_r.
  - by rewrite Hy, (IH k).
Qed.

(** X16: only the merged quantity of a line item is checked.  On the open
    box that the query finds, with a line item for the gift (the request
    writes the id as the store prints it), addToGiftBox with any number as
    quantity, negative ones included, succeeds when the sum of the line
    item's quantity and the number, as doubles add, is at least one, and
    the line item then has that sum; when the sum is below one or no
    number the save is refused, the call answers 500 and the store is
    unchanged. *)
Theorem addToGiftBox_checks_the_merged_quantity
    (Number_toString : float → string) (String_toNumber : string → float)
    (db : Db) (user : IUser) (body : BoxBody) (now : Z) (src : Entropy)
    (gift : IGift) (i : nat) (b : IGiftBox) (k : nat) (e : IGiftBoxItem) (q : float) :
  boxesOk db →
  addToGiftBoxValidator body = [] →
  truthy (bb_cardId body) || truthy (bb_websiteId body) = true →
  castObjectId (bb_giftId body) = Some (bb_giftId body) →
  Gift db !! bb_giftId body = Some gift → isActive gift = true →
  targetOwned db user body →
  GiftBox_findOpen db (_id user) (bb_cardId body) (bb_websiteId body) = Some (i, b) →
  list_find (λ g, giftId g = bb_giftId body) (gifts b) = Some (k, e) →
  default (JNumber 1) (bb_quantity body) = JNumber q →
  let merged := (toNumber (quantity e) + q)%float in
  let b1 := setGifts b (<[k:=setQuantity e (Some merged)]> (gifts b)) in
  let result := addToGiftBox Number_toString String_toNumber db user body now src in
  ((1 <=? merged)%float = true →
     result = (setGiftBox db (<[i:=b1]> (GiftBox db)),
               Json (mkBoxView i b1 (populate db b1))))
  ∧ ((1 <=? merged)%float = false →
     result = (db, Fail 500 "Failed to add gift to box.")).
Proof.
  intros Hok Hvalid Htarget Hcast Hgift Hactive Howned Hf He Hq merged b1 result.
  subst result.
  destruct (GiftBox_findOpen_Some _ _ _ _ _ _ Hf) as (Hi & _).
  destruct (boxesOk_lookup _ _ _ Hok Hi) as [_ Hv].
  rewrite (addToGiftBox_checked _ _ db user body now src (bb_giftId body) gift) by done.
  unfold findOrCreateGiftBox. rewrite Hf, Hq.
  rewrite (addGift_found _ _ _ _ _ _ _ k e He). cbn [jsAdd castNumber]. fold merged.
  assert (GiftBox_validate b1 = (1 <=? merged)%float) as Hb1.
  { unfold GiftBox_validate, b1. simpl.
    rewrite (forallb_insert_at _ _ k e); [done|exact Hv|by eapply list_find_lookup]. }
  split; intros Hm.
  - rewrite (is_nan_false_of_leb _ _ Hm). simpl. fold b1. rewrite Hb1, Hm.
    simpl negb. cbv iota.
    by rewrite (GiftBox_save_existing db i b) by done.
  - destruct (is_nan merged); [done|]. simpl. fold b1. by rewrite Hb1, Hm.
Qed.

Lemma addToGiftBox_checks_the_merged_quantity_witness :
  (∃ b1,
     addToGiftBox Sample.numberToString Sample.stringToNumber Sample.boxed Sample.alice
       (Sample.cardBody Sample.coffeeId (-1)) 2000 Sample.zeros
     = (setGiftBox Sample.boxed [b1], Json (mkBoxView 0 b1 (populate Sample.boxed b1)))
     ∧ quantity <$> gifts b1 = [Some 1%float])
  ∧ addToGiftBox Sample.numberToString Sample.stringToNumber Sample.boxed Sample.alice
      (Sample.cardBody Sample.coffeeId (-2)) 2000 Sample.zeros
    = (Sample.boxed, Fail 500 "Failed to add gift to box.").
Proof.
  assert (boxesOk Sample.boxed) as Hok.
  { split_and!; vm_compute; repeat constructor. by intros ?%elem_of_nil. }
  split.
  - exists (setGifts Sample.coffeeBox [mkItem Sample.coffeeId (Some 1%float) 1900]).
    split; [|reflexivity].
    apply (addToGiftBox_checks_the_merged_quantity Sample.numberToString
             Sample.stringToNumber Sample.boxed Sample.alice
             (Sample.cardBody Sample.coffeeId (-1)) 2000 Sample.zeros Sample.coffee
             0 Sample.coffeeBox 0 (mkItem Sample.coffeeId (Some 2%float) 1900) (-1)).
    + exact Hok.
    + vm_compute; reflexivity.
    + reflexivity.
    + vm_compute; reflexivity.
    + vm_compute; reflexivity.
    + reflexivity.
    + split; [intros _; vm_compute; eexists; reflexivity|intros [=]].
    + vm_compute; reflexivity.
    + vm_compute; reflexivity.
    + reflexivity.
    + vm_compute; reflexivity.
  - apply (addToGiftBox_checks_the_merged_quantity Sample.numberToString
             Sample.stringToNumber Sample.boxed Sample.alice
             (Sample.cardBody Sample.coffeeId (-2)) 2000 Sample.zeros Sample.coffee
             0 Sample.coffeeBox 0 (mkItem Sample.coffeeId (Some 2%float) 1900) (-2)).
    + exact Hok.
    + vm_compute; reflexivity.
    + reflexivity.
    + vm_compute; reflexivity.
    + vm_compute; reflexivity.
    + reflexivity.
    + split; [intros _; vm_compute; eexists; reflexivity|intros [=]].
    + vm_compute; reflexivity.
    + vm_compute; reflexivity.
    + reflexivity.
    + vm_compute; reflexivity.
Defined.

Lemma putWallet_userWallet db uid (f : IWallet → IWallet) :
  putWallet (Wallet db) (userWallet db uid).1 (f (userWallet db uid).2)
  = match Wallet_findOne_userId db uid with
    | Some (k, w) => <[k:=f w]> (Wallet db)
    | None => Wallet db ++ [f (newWallet uid)]
    end.
Proof.
  unfold userWallet, putWallet.
  destruct (Wallet_findOne_userId db uid) as [[k w]|] eqn:Hw; simpl.
  - apply Wallet_findOne_userId_lookup in Hw.
    by rewrite bool_decide_true by (by eapply lookup_lt_Some).
  - by rewrite bool_decide_false by lia.
Qed.

(** X17: from the gift box to the wallet.  A valid first addToGiftBox of
    a pair, for a number [q] (at least one, and finite) of an active gift
    on an owned target, creates a box with that one line item and answers
    with it; redeeming the box by its code, the recipient logged in, then
    answers with the total [0 + value * q] of the gift's value (not its
    price), as doubles compute it, marks the box redeemed and credits
    exactly that total to the recipient's wallet, which is created if it
    does not exist.  The sender is charged nothing by either call. *)
Theorem gift_box_round_trip
    (Number_toString : float → string) (String_toNumber : string → float)
    (db : Db) (user recipient : IUser) (body : BoxBody) (now now' : Z)
    (src src' : Entropy) (gid : ObjectId) (gift : IGift) (q : float) :
  boxesOk db →
  addToGiftBoxValidator body = [] →
  truthy (bb_cardId body) || truthy (bb_websiteId body) = true →
  castObjectId (bb_giftId body) = Some gid →
  Gift db !! gid = Some gift → isActive gift = true →
  targetOwned db user body →
  GiftBox_findOpen db (_id user) (bb_cardId body) (bb_websiteId body) = None →
  codeFresh db (generateRedemptionCode src).1 →
  default (JNumber 1) (bb_quantity body) = JNumber q →
  (1 <=? q)%float = true → is_finite q = true →
  nonneg (value gift) →
  (∀ k w, Wallet_findOne_userId db (_id recipient) = Some (k, w) → nonneg (balance w)) →
  let code := (generateRedemptionCode src).1 in
  let n := length (GiftBox db) in
  let item := mkItem gid (Some q) now in
  let b1 := setGifts (createdBox user body src) [item] in
  let total := (0 + value gift * q)%float in
  let r1 := addToGiftBox Number_toString String_toNumber db user body now src in
  let r2 := redeemGiftBox r1.1 (Some recipient) code now' src' in
  r1.2 = Json (mkBoxView n b1 [(Some gift, item)])
  ∧ GiftBox r1.1 = GiftBox db ++ [b1]
  ∧ Wallet r1.1 = Wallet db
  ∧ r2.2 = Json (mkRedeemData (mkBoxView n (setRedeemed b1 now') [(Some gift, item)])
                   total true)
  ∧ GiftBox r2.1 = GiftBox db ++ [setRedeemed b1 now']
  ∧ Wallet r2.1
    = match Wallet_findOne_userId db (_id recipient) with
      | Some (k, w) => <[k:=credited w total code now']> (Wallet db)
      | None => Wallet db ++ [credited (newWallet (_id recipient)) total code now']
      end
  ∧ Gift r2.1 = Gift db.
Proof.
  intros Hok Hvalid Htarget Hcast Hgift Hactive Howned Hnone Hfresh Hq Hq1 Hqfin
    Hvalue Hbal code n item b1 total r1 r2.
  pose proof (addToGiftBox_boxes Number_toString String_toNumber db user body now src
                Hok) as [Hok1 _].
  pose proof (addToGiftBox_Wallet Number_toString String_toNumber db user body now src)
    as HW.
  pose proof (addToGiftBox_Gift Number_toString String_toNumber db user body now src)
    as HG.
  fold r1 in Hok1, HW, HG.
  assert (r1.2 = Json (mkBoxView n b1 [(Some gift, item)])
          ∧ GiftBox r1.1 = GiftBox db ++ [b1]) as [Hr1 Hboxes].
  { subst r1.
    rewrite (addToGiftBox_checked _ _ db user body now src gid gift) by done.
    destruct (findOrCreateGiftBox_created db user body src Howned Hnone Hfresh)
      as (db1 & Hfc & Hboxes & _ & HG1 & _).
    rewrite Hfc, Hq.
    destruct (findOrCreateGiftBox_spec _ _ _ _ _ _ _ _ Hok Hfc) as (Hok1' & Hi & _).
    assert (addGift Number_toString String_toNumber (gifts (createdBox user body src))
              (bb_giftId body) gid (JNumber q) now = Some [item]) as ->.
    { unfold addGift. cbn [gifts createdBox list_find].
      by rewrite castNumber_number. }
    fold b1.
    assert (GiftBox_validate b1 = true) as ->.
    { unfold GiftBox_validate. simpl. by rewrite andb_true_r. }
    simpl negb. cbv iota.
    rewrite (GiftBox_save_existing db1 n (createdBox user body src)) by done.
    cbn [fst snd GiftBox setGiftBox].
    rewrite Hboxes. subst n. rewrite insert_at_end.
    split; [|done]. do 2 f_equal.
    unfold populate. cbn [gifts b1 setGifts map giftId item].
    change (Gift (setGiftBox db1 (GiftBox db ++ [b1]))) with (Gift db1).
    rewrite HG1. do 2 f_equal. exact Hgift. }
  assert (GiftBox r1.1 !! n = Some b1) as Hn.
  { rewrite Hboxes. by apply list_lookup_middle. }
  assert (populate r1.1 b1 = [(Some gift, item)]) as Hpop.
  { unfold populate. rewrite HG. cbn [gifts b1 setGifts map giftId item].
    do 2 f_equal. exact Hgift. }
  assert (totalValueFrom (populate r1.1 b1) 0 = Some total) as Htotal.
  { by rewrite Hpop. }
  assert (Wallet_findOne_userId r1.1 (_id recipient)
          = Wallet_findOne_userId db (_id recipient)) as Hfind.
  { unfold Wallet_findOne_userId. by rewrite HW. }
  assert (userWallet r1.1 (_id recipient) = userWallet db (_id recipient)) as Hu.
  { unfold userWallet. by rewrite Hfind, HW. }
  assert (nonneg total) as Htotal0.
  { subst total. apply add_nonneg; [reflexivity|].
    apply mul_nonneg; [done|]. by apply one_leb_positive. }
  assert (nonneg (balance (userWallet db (_id recipient)).2 + total)) as Hnew.
  { apply add_nonneg; [|done]. unfold userWallet.
    destruct (Wallet_findOne_userId db (_id recipient)) as [[k w]|] eqn:Hw; simpl.
    - by eapply Hbal.
    - reflexivity. }
  subst r2.
  rewrite (redeemGiftBox_open r1.1 n b1 code recipient now' src') by done.
  rewrite Htotal, Hu. unfold nonneg in Hnew. rewrite Hnew.
  cbn [fst snd GiftBox Wallet Gift]. rewrite Hpop, HW, HG.
  split_and!; [done..| | |done].
  - rewrite Hboxes. subst n. by rewrite insert_at_end.
  - apply (putWallet_userWallet db (_id recipient) (λ w, credited w total code now')).
Qed.

Lemma gift_box_round_trip_witness :
  Wallet (redeemGiftBox Sample.boxed (Some Sample.bob)
            (generateRedemptionCode Sample.ramp).1 2100 Sample.zeros).1
  = [credited (newWallet (_id Sample.bob)) (0 + 1000 * 2)
       (generateRedemptionCode Sample.ramp).1 2100].
Proof.
  destruct (gift_box_round_trip Sample.numberToString Sample.stringToNumber
              Sample.db0 Sample.alice Sample.bob
              (Sample.cardBody Sample.coffeeId 2) 1900 2100 Sample.ramp Sample.zeros
              Sample.coffeeId Sample.coffee 2)
    as (_ & _ & _ & _ & _ & Hw & _).
  - apply boxesOk_initial.
  - vm_compute; reflexivity.
  - reflexivity.
  - vm_compute; reflexivity.
  - vm_compute; reflexivity.
  - reflexivity.
  - split; [intros _; vm_compute; eexists; reflexivity|intros [=]].
  - vm_compute; reflexivity.
  - constructor.
  - reflexivity.
  - reflexivity.
  - reflexivity.
  - reflexivity.
  - intros k w [=].
  - exact Hw.
Defined.

Lemma totalValueFrom_None db items sum :
  Exists (λ it, Gift db !! giftId it = None) items →
  totalValueFrom (map (λ it, (Gift db !! giftId it, it)) items) sum = None.
Proof.
  intros Hex. revert sum. induction Hex as [it items Hit|it items _ IH]; intros sum;
    simpl.
  - by rewrite Hit.
  - destruct (Gift db !! giftId it); [apply IH|done].
Qed.

Lemma totalValueFrom_Some db items sum :
  Forall (λ it, is_Some (Gift db !! giftId it)) items →
  is_Some (totalValueFrom (map (λ it, (Gift db !! giftId it, it)) items) sum).
Proof.
  intros Hall. revert sum. induction Hall as [|it items [g Hg] _ IH]; intros sum;
    simpl; [done|].
  rewrite Hg. apply IH.
Qed.

(** X18: a box with a line item whose gift has left the catalog is spent
    without a payout.  redeemGiftBox saves the box as redeemed before it
    computes the total; when a line item refers to no gift of the catalog
    the computation throws, the call answers 500, the box stays redeemed and
    no wallet is credited or created; every later call with the code is
    then rejected as already redeemed.  When every line item refers to a gift
    of the catalog the total is computed. *)
Theorem redeemGiftBox_missing_gift_spends_the_box
    (db : Db) (i : nat) (b : IGiftBox) (code : string) :
  boxesOk db → GiftBox db !! i = Some b → redemptionCode b = Some code →
  isRedeemed b = false →
  (Exists (λ it, Gift db !! giftId it = None) (gifts b) →
   ∀ user now src,
     let db' := setGiftBox db (<[i:=setRedeemed b now]> (GiftBox db)) in
     redeemGiftBox db user code now src = (db', Fail 500 "Failed to redeem gift box.")
     ∧ Wallet db' = Wallet db
     ∧ ∀ user' now' src',
         redeemGiftBox db' user' code now' src'
         = (db', Fail 400 "This gift box has already been redeemed."))
  ∧ (Forall (λ it, is_Some (Gift db !! giftId it)) (gifts b) →
     is_Some (totalValueFrom (populate db b) 0)).
Proof.
  intros Hok Hi Hc Hr. split.
  - intros Hmissing user now src db'. split_and!.
    + unfold redeemGiftBox.
      rewrite (GiftBox_findOne_code_at db i b code), Hr by done.
      rewrite (GiftBox_save_existing db i b) by done.
      unfold populate. by rewrite totalValueFrom_None.
    + done.
    + intros user' now' src'.
      apply (redeemGiftBox_redeemed db' i (setRedeemed b now)); [|..|done|done].
      * destruct (boxesOk_lookup _ _ _ Hok Hi) as [_ Hv].
        by apply (boxesOk_insert db i b).
      * apply list_lookup_insert_eq. by eapply lookup_lt_Some.
  - apply totalValueFrom_Some.
Qed.

Lemma redeemGiftBox_missing_gift_spends_the_box_witness :
  redeemGiftBox (setGift Sample.boxed (delete Sample.coffeeId (Gift Sample.boxed)))
    (Some Sample.bob) Sample.boxCode 2100 Sample.zeros
  = (setGiftBox (setGift Sample.boxed (delete Sample.coffeeId (Gift Sample.boxed)))
       [setRedeemed Sample.coffeeBox 2100],
     Fail 500 "Failed to redeem gift box.").
Proof.
  destruct (redeemGiftBox_missing_gift_spends_the_box
              (setGift Sample.boxed (delete Sample.coffeeId (Gift Sample.boxed)))
              0 Sample.coffeeBox Sample.boxCode) as [Hspent _].
  - split_and!; vm_compute; repeat constructor. by intros ?%elem_of_nil.
  - vm_compute; reflexivity.
  - reflexivity.
  - reflexivity.
  - destruct (Hspent) with (user := Some Sample.bob) (now := 2100%Z)
      (src := Sample.zeros) as (Hres & _).
    + apply Exists_exists. exists (mkItem Sample.coffeeId (Some 2%float) 1900).
      split; [by left|vm_compute; reflexivity].
    + exact Hres.
Defined.

(** ** Reading the balance, links and tokens *)

(** X20: getBalance reads, except that it opens the wallet of a user who
    has none.  For a user without a wallet the call adds an empty wallet in
    NGN at the end of the collection and answers a balance of zero; for a
    user with a wallet it changes nothing and answers the balance of that
    wallet.  Either way a second call changes nothing and gives the same
    answer, and the gifts and the boxes are never touched. *)
Theorem getBalance_opens_the_wallet_once (db : Db) (user : IUser) :
  getBalance (getBalance db user).1 user = getBalance db user
  ∧ (Wallet_findOne_userId db (_id user) = None →
     getBalance db user
     = (setWallet db (Wallet db ++ [newWallet (_id user)]),
        Json (mkBalanceData 0 "NGN")))
  ∧ (∀ i w, Wallet_findOne_userId db (_id user) = Some (i, w) →
       getBalance db user = (db, Json (mkBalanceData (balance w) (currency w))))
  ∧ Gift (getBalance db user).1 = Gift db
  ∧ GiftBox (getBalance db user).1 = GiftBox db.
Proof.
  unfold getBalance.
  destruct (getOrCreateWallet db (_id user)) as [[db1 i] w] eqn:Hg.
  pose proof (getOrCreateWallet_spec _ _ _ _ _ Hg) as (_ & _ & Hf1 & Hcase).
  cbn [fst]. split_and!.
  - unfold getOrCreateWallet. by rewrite Hf1.
  - intros Hnone. unfold getOrCreateWallet in Hg. rewrite Hnone in Hg.
    by injection Hg as <- <- <-.
  - intros i0 w0 Hsome. unfold getOrCreateWallet in Hg. rewrite Hsome in Hg.
    by injection Hg as <- <- <-.
  - by destruct Hcase as [->|(_ & _ & _ & ->)].
  - by destruct Hcase as [->|(_ & _ & _ & ->)].
Qed.

(** X21: the shareable link and the token are the random bytes in lower
    case hexadecimal, sixteen characters for the eight bytes of a link and
    sixty-four for the thirty-two bytes of a token; two draws give the same
    string exactly when they give the same bytes, and each call uses up
    exactly the bytes it has encoded. *)
Theorem link_and_token_encode_the_bytes (src1 src2 : Entropy) :
  (String.length (generateShareableLink src1).1 = 16%nat
   ∧ forallb isLowerHexDigit (list_ascii_of_string (generateShareableLink src1).1) = true
   ∧ ((generateShareableLink src1).1 = (generateShareableLink src2).1
      ↔ (randomBytes src1 8).1 = (randomBytes src2 8).1)
   ∧ ∀ k, (generateShareableLink src1).2 k = src1 (8 + k)%nat)
  ∧ (String.length (generateToken src1).1 = 64%nat
     ∧ forallb isLowerHexDigit (list_ascii_of_string (generateToken src1).1) = true
     ∧ ((generateToken src1).1 = (generateToken src2).1
        ↔ (randomBytes src1 32).1 = (randomBytes src2 32).1)
     ∧ ∀ k, (generateToken src1).2 k = src1 (32 + k)%nat).
Proof.
  unfold generateShareableLink, generateToken, randomBytes. cbn [fst snd].
  split.
  - destruct (toHex_format (map src1 (seq 0 8))) as (Hlen & Hdigits & _).
    split_and!; [by rewrite Hlen|done| |done].
    split; [apply toHex_inj|by intros ->].
  - destruct (toHex_format (map src1 (seq 0 32))) as (Hlen & Hdigits & _).
    split_and!; [by rewrite Hlen|done| |done].
    split; [apply toHex_inj|by intros ->].
Qed.
